(** * Snake game (mar.py): simulation core, effects and persistence

    A shallow embedding of the simulation core of [src/mar.py]: the snake
    entity and its advance step, the collision loop, the food effect table,
    the timed speed effects, the tick gate and the save/load codec.

    Python integers are unbounded, so they are [Z]; a cell or a direction is
    a pair of integers; Python lists are [list]; a Python [dict] with string
    keys is an insertion-ordered association list.  Code that can raise is
    written in a small state-and-exception monad, so that the mutations made
    before a [raise] are kept, as they are on the Python object. *)

From Stdlib Require Import ZArith String List Bool Lia.
Import ListNotations.

Open Scope string_scope.
Open Scope list_scope.
Open Scope Z_scope.

Set Implicit Arguments.
Set Warnings "-register-all".

(** ** Outcomes and the state-and-exception monad *)

Inductive exn : Type :=
| IndexError
| KeyError
| TypeError
| AttributeError
| OverflowError.

(** [Ret a]: the Python code ran to completion with value [a].
    [Raise e]: it raised [e].
    [Untyped]: Python goes on with a value that the typed records below
    cannot hold (a cell with three coordinates, a number parsed from a
    string, a food kind that is not a string): nothing is claimed there. *)
Inductive Py (A : Type) : Type :=
| Ret (a : A)
| Raise (e : exn)
| Untyped.

Arguments Ret {A} a.
Arguments Raise {A} e.
Arguments Untyped {A}.

Definition M (S A : Type) : Type := S -> Py A * S.

Definition ret {S A} (a : A) : M S A := fun s => (Ret a, s).

Definition bind {S A B} (c : M S A) (k : A -> M S B) : M S B :=
  fun s =>
    match c s with
    | (Ret a, s') => k a s'
    | (Raise e, s') => (Raise e, s')
    | (Untyped, s') => (Untyped, s')
    end.

Definition get {S} : M S S := fun s => (Ret s, s).
Definition modify {S} (f : S -> S) : M S unit := fun s => (Ret tt, f s).
Definition lift {S A} (r : Py A) : M S A := fun s => (r, s).

Notation "x <- c ;; k" := (bind c (fun x => k))
  (at level 61, c at next level, right associativity).
Notation "c ;;; k" := (bind c (fun _ => k))
  (at level 61, right associativity).

(** [for x in xs: body x], left to right, stopping at the first exception. *)
Fixpoint for_each {S A} (xs : list A) (body : A -> M S unit) : M S unit :=
  match xs with
  | [] => ret tt
  | x :: xs' => body x ;;; for_each xs' body
  end.

(** ** Cells, colours and Python list indexing *)

Definition Cell : Type := (Z * Z)%type.
Definition Color : Type := (Z * Z * Z)%type.

Definition cell_eqb (p q : Cell) : bool :=
  (fst p =? fst q) && (snd p =? snd q).

(** [c in cells] on a Python list of tuples. *)
Definition cell_in (c : Cell) (cells : list Cell) : bool :=
  existsb (cell_eqb c) cells.

(** [l[-k]] for [k >= 1]. *)
Definition item_neg {A} (l : list A) (k : nat) : Py A :=
  if (length l <? k)%nat then Raise IndexError
  else match nth_error l (length l - k) with
       | Some x => Ret x
       | None => Raise IndexError
       end.

(** [l[:-1]]. *)
Definition all_but_last {A} (l : list A) : list A := removelast l.

(** ** Constants (lines 23-84) *)

Definition DIS_WIDTH : Z := 1240.
Definition DIS_HEIGHT : Z := 600.
Definition GRID_SIZE : Z := 10.
Definition SPECIAL_EFFECT_DURATION : Z := 3000.

(** ** Snake (lines 172-221) *)

(** The key codes of one player, [controls] in the source. *)
Record Controls : Type := {
  key_left : Z;
  key_right : Z;
  key_up : Z;
  key_down : Z
}.

Record Snake : Type := {
  color : Color;
  body : list Cell;            (* tail first, head last *)
  dir : Cell;
  pending_dir : Cell;
  controls : Controls;
  grow : Z;
  alive : bool;
  score : Z;
  speed_effect : Z;
  last_effect_time : Z
}.

Definition set_body (b : list Cell) (s : Snake) : Snake :=
  {| color := color s; body := b; dir := dir s; pending_dir := pending_dir s;
     controls := controls s; grow := grow s; alive := alive s; score := score s;
     speed_effect := speed_effect s; last_effect_time := last_effect_time s |}.

Definition set_dir (d : Cell) (s : Snake) : Snake :=
  {| color := color s; body := body s; dir := d; pending_dir := pending_dir s;
     controls := controls s; grow := grow s; alive := alive s; score := score s;
     speed_effect := speed_effect s; last_effect_time := last_effect_time s |}.

Definition set_pending_dir (d : Cell) (s : Snake) : Snake :=
  {| color := color s; body := body s; dir := dir s; pending_dir := d;
     controls := controls s; grow := grow s; alive := alive s; score := score s;
     speed_effect := speed_effect s; last_effect_time := last_effect_time s |}.

Definition set_grow (n : Z) (s : Snake) : Snake :=
  {| color := color s; body := body s; dir := dir s; pending_dir := pending_dir s;
     controls := controls s; grow := n; alive := alive s; score := score s;
     speed_effect := speed_effect s; last_effect_time := last_effect_time s |}.

Definition set_alive (b : bool) (s : Snake) : Snake :=
  {| color := color s; body := body s; dir := dir s; pending_dir := pending_dir s;
     controls := controls s; grow := grow s; alive := b; score := score s;
     speed_effect := speed_effect s; last_effect_time := last_effect_time s |}.

Definition set_score (n : Z) (s : Snake) : Snake :=
  {| color := color s; body := body s; dir := dir s; pending_dir := pending_dir s;
     controls := controls s; grow := grow s; alive := alive s; score := n;
     speed_effect := speed_effect s; last_effect_time := last_effect_time s |}.

Definition set_speed_effect (n : Z) (s : Snake) : Snake :=
  {| color := color s; body := body s; dir := dir s; pending_dir := pending_dir s;
     controls := controls s; grow := grow s; alive := alive s; score := score s;
     speed_effect := n; last_effect_time := last_effect_time s |}.

(** [Snake.__init__] (lines 175-185). *)
Definition Snake_init (c : Color) (start_pos : Cell) (ctl : Controls)
    (initial_len : Z) : Snake :=
  {| color := c; body := [start_pos]; dir := (GRID_SIZE, 0);
     pending_dir := (GRID_SIZE, 0); controls := ctl; grow := initial_len - 1;
     alive := true; score := 0; speed_effect := 0; last_effect_time := 0 |}.

(** The direction read off the last two body cells (lines 201-206). *)
Definition current_dir : M Snake Cell :=
  s <- get ;;
  if (2 <=? length (body s))%nat then
    head <- lift (item_neg (body s) 1) ;;
    neck <- lift (item_neg (body s) 2) ;;
    ret (fst head - fst neck, snd head - snd neck)
  else ret (dir s).

(** The test of line 209-211. *)
Definition keeps_current (pending cur : Cell) : bool :=
  ((fst pending =? - fst cur) && (snd pending =? - snd cur))
  || cell_eqb pending (0, 0).

(** [Snake.update] (lines 199-221). *)
Definition Snake_update : M Snake unit :=
  cur <- current_dir ;;
  s <- get ;;
  (if keeps_current (pending_dir s) cur
   then modify (set_dir cur)
   else modify (set_dir (pending_dir s))) ;;;
  s <- get ;;
  last <- lift (item_neg (body s) 1) ;;
  let new_head := (fst last + fst (dir s), snd last + snd (dir s)) in
  modify (set_body (body s ++ [new_head])) ;;;
  s <- get ;;
  if 0 <? grow s
  then modify (set_grow (grow s - 1))
  else modify (set_body (tl (body s))).

Definition neg_cell (d : Cell) : Cell := (- fst d, - snd d).

(** The committed direction chosen on lines 209-214. *)
Definition committed (s : Snake) (cur : Cell) : Cell :=
  if keeps_current (pending_dir s) cur then cur else pending_dir s.

(** ** Python dictionaries with string keys

    Insertion-ordered, one entry per key: assigning to a key that is present
    overwrites its value in place, a new key goes to the end. *)

Definition Dict (V : Type) : Type := list (string * V).

Fixpoint dict_get {V} (k : string) (d : Dict V) : option V :=
  match d with
  | [] => None
  | (k', v) :: d' => if String.eqb k k' then Some v else dict_get k d'
  end.

(** [d[k] = v]. *)
Fixpoint dict_set {V} (k : string) (v : V) (d : Dict V) : Dict V :=
  match d with
  | [] => [(k, v)]
  | (k', v') :: d' =>
      if String.eqb k k' then (k', v) :: d' else (k', v') :: dict_set k v d'
  end.

(** [del d[k]] for a key that is present. *)
Definition dict_del {V} (k : string) (d : Dict V) : Dict V :=
  filter (fun e => negb (String.eqb k (fst e))) d.

(** [list(d.keys())]. *)
Definition dict_keys {V} (d : Dict V) : list string := map fst d.

(** [d[k]], raising [KeyError] when [k] is absent. *)
Definition dict_item {V} (k : string) (d : Dict V) : Py V :=
  match dict_get k d with
  | Some v => Ret v
  | None => Raise KeyError
  end.

(** ** Themes and difficulty presets (lines 35-80) *)

(** [self.theme] is a reference to one of the three palettes of [THEMES]
    ([get_theme_name] compares with [is]); the reference is the tag. *)
Inductive Theme : Type := Classic | Dark | Neon.

Definition theme_eqb (a b : Theme) : bool :=
  match a, b with
  | Classic, Classic | Dark, Dark | Neon, Neon => true
  | _, _ => false
  end.

Definition palette (t : Theme) : Dict Color :=
  match t with
  | Classic =>
      [("bg", (50, 153, 213)); ("snake1", (0, 0, 0)); ("snake2", (0, 100, 0));
       ("food", (0, 255, 0)); ("text", (255, 255, 102));
       ("obstacle", (120, 120, 120)); ("bonus", (255, 165, 0));
       ("speed_up", (255, 0, 0)); ("speed_down", (0, 0, 255));
       ("shrink", (128, 0, 128))]
  | Dark =>
      [("bg", (20, 20, 20)); ("snake1", (200, 200, 200));
       ("snake2", (150, 255, 150)); ("food", (100, 255, 100));
       ("text", (200, 200, 50)); ("obstacle", (70, 70, 70));
       ("bonus", (255, 140, 0)); ("speed_up", (255, 80, 80));
       ("speed_down", (80, 80, 255)); ("shrink", (180, 80, 180))]
  | Neon =>
      [("bg", (10, 10, 30)); ("snake1", (0, 255, 255)); ("snake2", (255, 0, 255));
       ("food", (0, 255, 0)); ("text", (255, 255, 0)); ("obstacle", (0, 120, 255));
       ("bonus", (255, 255, 255)); ("speed_up", (255, 50, 50));
       ("speed_down", (50, 50, 255)); ("shrink", (255, 0, 255))]
  end.

Definition THEMES : Dict Theme :=
  [("classic", Classic); ("dark", Dark); ("neon", Neon)].

Record Difficulty : Type := {
  speed : Z;
  obstacles_of : Z             (* the "obstacles" entry of a preset *)
}.

Definition DIFFICULTIES : Dict Difficulty :=
  [("easy", {| speed := 10; obstacles_of := 10 |});
   ("medium", {| speed := 15; obstacles_of := 20 |});
   ("hard", {| speed := 20; obstacles_of := 35 |})].


(** ** Food and the game session (lines 229-305) *)

Record Food : Type := {
  pos : Cell;
  kind : string;
  food_color : Color
}.

Record SnakeGame : Type := {
  theme : Theme;
  base_speed : Z;
  obstacle_count : Z;
  two_player : bool;
  snake1 : Snake;
  snake2 : option Snake;       (* [None] in a one-player session *)
  high_score : Z;
  obstacles : list Cell;
  foods : list Food;
  running : bool;
  paused : bool;
  last_update : Z;
  update_interval : Z;
  special_effects : Dict Z     (* effect kind -> activation time, ms *)
}.

Definition set_theme_ref (t : Theme) (g : SnakeGame) : SnakeGame :=
  {| theme := t; base_speed := base_speed g; obstacle_count := obstacle_count g;
     two_player := two_player g; snake1 := snake1 g; snake2 := snake2 g;
     high_score := high_score g; obstacles := obstacles g; foods := foods g;
     running := running g; paused := paused g; last_update := last_update g;
     update_interval := update_interval g; special_effects := special_effects g |}.

Definition set_base_speed (n : Z) (g : SnakeGame) : SnakeGame :=
  {| theme := theme g; base_speed := n; obstacle_count := obstacle_count g;
     two_player := two_player g; snake1 := snake1 g; snake2 := snake2 g;
     high_score := high_score g; obstacles := obstacles g; foods := foods g;
     running := running g; paused := paused g; last_update := last_update g;
     update_interval := update_interval g; special_effects := special_effects g |}.

Definition set_obstacle_count (n : Z) (g : SnakeGame) : SnakeGame :=
  {| theme := theme g; base_speed := base_speed g; obstacle_count := n;
     two_player := two_player g; snake1 := snake1 g; snake2 := snake2 g;
     high_score := high_score g; obstacles := obstacles g; foods := foods g;
     running := running g; paused := paused g; last_update := last_update g;
     update_interval := update_interval g; special_effects := special_effects g |}.

Definition set_two_player (b : bool) (g : SnakeGame) : SnakeGame :=
  {| theme := theme g; base_speed := base_speed g; obstacle_count := obstacle_count g;
     two_player := b; snake1 := snake1 g; snake2 := snake2 g;
     high_score := high_score g; obstacles := obstacles g; foods := foods g;
     running := running g; paused := paused g; last_update := last_update g;
     update_interval := update_interval g; special_effects := special_effects g |}.

Definition set_snake1 (s : Snake) (g : SnakeGame) : SnakeGame :=
  {| theme := theme g; base_speed := base_speed g; obstacle_count := obstacle_count g;
     two_player := two_player g; snake1 := s; snake2 := snake2 g;
     high_score := high_score g; obstacles := obstacles g; foods := foods g;
     running := running g; paused := paused g; last_update := last_update g;
     update_interval := update_interval g; special_effects := special_effects g |}.

Definition set_snake2 (s : option Snake) (g : SnakeGame) : SnakeGame :=
  {| theme := theme g; base_speed := base_speed g; obstacle_count := obstacle_count g;
     two_player := two_player g; snake1 := snake1 g; snake2 := s;
     high_score := high_score g; obstacles := obstacles g; foods := foods g;
     running := running g; paused := paused g; last_update := last_update g;
     update_interval := update_interval g; special_effects := special_effects g |}.

Definition set_high_score (n : Z) (g : SnakeGame) : SnakeGame :=
  {| theme := theme g; base_speed := base_speed g; obstacle_count := obstacle_count g;
     two_player := two_player g; snake1 := snake1 g; snake2 := snake2 g;
     high_score := n; obstacles := obstacles g; foods := foods g;
     running := running g; paused := paused g; last_update := last_update g;
     update_interval := update_interval g; special_effects := special_effects g |}.

Definition set_obstacles (l : list Cell) (g : SnakeGame) : SnakeGame :=
  {| theme := theme g; base_speed := base_speed g; obstacle_count := obstacle_count g;
     two_player := two_player g; snake1 := snake1 g; snake2 := snake2 g;
     high_score := high_score g; obstacles := l; foods := foods g;
     running := running g; paused := paused g; last_update := last_update g;
     update_interval := update_interval g; special_effects := special_effects g |}.

Definition set_foods (l : list Food) (g : SnakeGame) : SnakeGame :=
  {| theme := theme g; base_speed := base_speed g; obstacle_count := obstacle_count g;
     two_player := two_player g; snake1 := snake1 g; snake2 := snake2 g;
     high_score := high_score g; obstacles := obstacles g; foods := l;
     running := running g; paused := paused g; last_update := last_update g;
     update_interval := update_interval g; special_effects := special_effects g |}.

Definition set_last_update (t : Z) (g : SnakeGame) : SnakeGame :=
  {| theme := theme g; base_speed := base_speed g; obstacle_count := obstacle_count g;
     two_player := two_player g; snake1 := snake1 g; snake2 := snake2 g;
     high_score := high_score g; obstacles := obstacles g; foods := foods g;
     running := running g; paused := paused g; last_update := t;
     update_interval := update_interval g; special_effects := special_effects g |}.

Definition set_special_effects (d : Dict Z) (g : SnakeGame) : SnakeGame :=
  {| theme := theme g; base_speed := base_speed g; obstacle_count := obstacle_count g;
     two_player := two_player g; snake1 := snake1 g; snake2 := snake2 g;
     high_score := high_score g; obstacles := obstacles g; foods := foods g;
     running := running g; paused := paused g; last_update := last_update g;
     update_interval := update_interval g; special_effects := d |}.

(** The snakes of a session are addressed by player. *)
Inductive Player : Type := P1 | P2.

Definition player_eqb (a b : Player) : bool :=
  match a, b with
  | P1, P1 | P2, P2 => true
  | _, _ => false
  end.

Definition get_snake (who : Player) (g : SnakeGame) : option Snake :=
  match who with
  | P1 => Some (snake1 g)
  | P2 => snake2 g
  end.

Definition put_snake (who : Player) (s : Snake) (g : SnakeGame) : SnakeGame :=
  match who with
  | P1 => set_snake1 s g
  | P2 => set_snake2 (Some s) g
  end.

(** Run a snake-level computation on [self.snake1] or [self.snake2]; on a
    missing second snake the attribute access on [None] raises. *)
Definition on_snake {A} (who : Player) (c : M Snake A) : M SnakeGame A :=
  fun g =>
    match get_snake who g with
    | Some s => let (r, s') := c s in (r, put_snake who s' g)
    | None => (Raise AttributeError, g)
    end.

(** [snakes = [self.snake1] + ([self.snake2] if self.snake2 else [])]. *)
Definition snakes (g : SnakeGame) : list Player :=
  P1 :: (match snake2 g with Some _ => [P2] | None => [] end).

(** [float(n)] of an integer [n >= 0] raises [OverflowError] when [n]
    rounds, to nearest with ties to even, beyond the largest finite double
    [2^1024 - 2^971]: from [2^1024 - 2^970] on. *)
Definition FLOAT_LIMIT : Z := 2 ^ 1024 - 2 ^ 970.

Definition float_overflows (n : Z) : bool := FLOAT_LIMIT <=? n.

(** [compute_interval] (lines 307-315).  Where [float(speed)] is a float,
    [int(1000 / float(speed))] with [speed >= 5] is the integer quotient:
    up to 1000 the divisor is exact and the float quotient is within 2^-45
    of the exact one, which is an integer or at least [1/speed] away from
    the next one; above 1000 the float divisor is above 1000 too and both
    are 0. *)
Definition compute_interval (g : SnakeGame) : Py Z :=
  let speed_mod := 0 in
  let speed_mod := speed_mod + speed_effect (snake1 g) in
  let speed_mod :=
    match snake2 g with
    | Some s2 => speed_mod + speed_effect s2
    | None => speed_mod
    end in
  let speed := Z.max 5 (base_speed g + speed_mod) in
  if float_overflows speed then Raise OverflowError
  else Ret (1000 / speed).

(** ** Food effects (lines 446-469) *)

Definition add_grow (n : Z) : M Snake unit :=
  modify (fun s => set_grow (grow s + n) s).
Definition add_score (n : Z) : M Snake unit :=
  modify (fun s => set_score (score s + n) s).
Definition add_speed_effect (n : Z) : M Snake unit :=
  modify (fun s => set_speed_effect (speed_effect s + n) s).

(** [self.special_effects[key] = ticks]. *)
Definition arm_effect (key : string) (ticks : Z) : M SnakeGame unit :=
  modify (fun g => set_special_effects (dict_set key ticks (special_effects g)) g).

(** The "shrink" branch on the snake (lines 464-469). *)
Definition shrink : M Snake unit :=
  add_score 3 ;;;
  s <- get ;;
  if (3 <? length (body s))%nat then
    let mid := (length (body s) / 2)%nat in
    modify (set_body (skipn (mid - 1)%nat (body s))) ;;;
    modify (set_grow 0)
  else ret tt.

(** [apply_food_effect(snake, food)]; [ticks] is the reading of
    [pygame.time.get_ticks()] taken when an effect timer is armed. *)
Definition apply_food_effect (ticks : Z) (who : Player) (food : Food)
    : M SnakeGame unit :=
  if String.eqb (kind food) "normal" then
    on_snake who (add_grow 1 ;;; add_score 1)
  else if String.eqb (kind food) "bonus" then
    on_snake who (add_grow 2 ;;; add_score 5)
  else if String.eqb (kind food) "speed_up" then
    on_snake who (add_score 2 ;;; add_speed_effect 2) ;;;
    arm_effect "speed_up" ticks
  else if String.eqb (kind food) "speed_down" then
    on_snake who (add_score 2 ;;; add_speed_effect (-2)) ;;;
    arm_effect "speed_down" ticks
  else if String.eqb (kind food) "shrink" then
    on_snake who shrink
  else ret tt.

(** ** Collisions (lines 401-444) *)

(** The wall test of line 408. *)
Definition out_of_bounds (head : Cell) : bool :=
  (fst head <? 0) || (DIS_WIDTH <=? fst head)
  || (snd head <? 0) || (DIS_HEIGHT <=? snd head).

(** [snake.alive = False]. *)
Definition kill (who : Player) : M SnakeGame unit :=
  on_snake who (modify (set_alive false)).

Definition when {S} (b : bool) (c : M S unit) : M S unit :=
  if b then c else ret tt.

(** [snake.body[-1]] of a snake of the session. *)
Definition head_of (who : Player) : M SnakeGame Cell :=
  on_snake who (s <- get ;; lift (item_neg (body s) 1)).

(** The body of the first loop for one snake (lines 405-423); [all_snakes]
    is the list [snakes] built on line 403. *)
Definition collide (all_snakes : list Player) (who : Player)
    : M SnakeGame unit :=
  head <- head_of who ;;
  when (out_of_bounds head) (kill who) ;;;
  g <- get ;;
  when (cell_in head (obstacles g)) (kill who) ;;;
  s <- on_snake who get ;;
  when (cell_in head (all_but_last (body s))) (kill who) ;;;
  for_each all_snakes (fun other =>
    if player_eqb other who then ret tt
    else
      o <- on_snake other get ;;
      when (cell_in head (body o)) (kill who)).

(** The first loop of [check_collisions] (lines 403-423). *)
Definition collision_loop : M SnakeGame unit :=
  g <- get ;;
  for_each (snakes g) (collide (snakes g)).

Definition eats (head : Cell) (f : Food) : bool := cell_eqb head (pos f).

Section Collaborators.

(** Two parts of the session are driven by collaborators outside the
    simulation rules: [spawn_foods] (lines 317-345) draws cells from the
    random generator, and [handle_game_over] (lines 471-508) writes the high
    score and polls the keyboard for restart, load or quit. *)
Variable spawn_foods : M SnakeGame unit.
Variable handle_game_over : M SnakeGame unit.

(** The body of the second loop for one snake (lines 427-439).  Foods are
    compared by identity in [self.foods.remove(f)], and [eaten] holds each
    food at the head's cell once, so the removals leave the foods that are
    not at the head's cell. *)
Definition eat_foods (ticks : Z) (who : Player) : M SnakeGame unit :=
  head <- head_of who ;;
  g <- get ;;
  let eaten := filter (eats head) (foods g) in
  for_each eaten (apply_food_effect ticks who) ;;;
  modify (fun g => set_foods (filter (fun f => negb (eats head f)) (foods g)) g) ;;;
  match eaten with
  | [] => ret tt
  | _ :: _ => spawn_foods
  end.

(** [all(not s.alive for s in snakes)]. *)
Definition all_dead (g : SnakeGame) : bool :=
  forallb (fun who =>
    match get_snake who g with
    | Some s => negb (alive s)
    | None => true
    end) (snakes g).

(** [check_collisions] (lines 401-444); the clock readings taken while
    foods are eaten in one call are one value, [ticks]. *)
Definition check_collisions (ticks : Z) : M SnakeGame unit :=
  g <- get ;;
  let all_snakes := snakes g in
  for_each all_snakes (collide all_snakes) ;;;
  for_each all_snakes (eat_foods ticks) ;;;
  g <- get ;;
  when (all_dead g) handle_game_over.

(** ** Timed effects and the frame update (lines 373-399) *)

(** The reversal applied to every snake when [key] expires. *)
Definition reverse_effect (key : string) : M SnakeGame unit :=
  if String.eqb key "speed_up" then
    on_snake P1 (add_speed_effect (-2)) ;;;
    g <- get ;;
    match snake2 g with
    | Some _ => on_snake P2 (add_speed_effect (-2))
    | None => ret tt
    end
  else if String.eqb key "speed_down" then
    on_snake P1 (add_speed_effect 2) ;;;
    g <- get ;;
    match snake2 g with
    | Some _ => on_snake P2 (add_speed_effect 2)
    | None => ret tt
    end
  else ret tt.

(** One iteration of the expiry loop (lines 390-399). *)
Definition expire_key (now : Z) (key : string) : M SnakeGame unit :=
  g <- get ;;
  activated <- lift (dict_item key (special_effects g)) ;;
  if SPECIAL_EFFECT_DURATION <=? now - activated then
    reverse_effect key ;;;
    modify (fun g => set_special_effects (dict_del key (special_effects g)) g)
  else ret tt.

(** The expiry loop (lines 388-399), over a snapshot of the keys. *)
Definition expire_effects (now : Z) : M SnakeGame unit :=
  g <- get ;;
  for_each (dict_keys (special_effects g)) (expire_key now).

(** The tick gate of line 381. *)
Definition tick_due (now interval : Z) (g : SnakeGame) : bool :=
  interval <=? now - last_update g.

(** One simulation tick (lines 382-386). *)
Definition tick (now ticks : Z) : M SnakeGame unit :=
  on_snake P1 Snake_update ;;;
  g <- get ;;
  match snake2 g with
  | Some _ => on_snake P2 Snake_update
  | None => ret tt
  end ;;;
  check_collisions ticks ;;;
  modify (set_last_update now).

(** [SnakeGame.update] (lines 373-399); [now] is the clock reading of line
    375 and [ticks] the later reading used when a food is eaten. *)
Definition update (now ticks : Z) : M SnakeGame unit :=
  g <- get ;;
  if paused g then modify (set_last_update now)
  else
    interval <- lift (compute_interval g) ;;
    when (tick_due now interval g) (tick now ticks) ;;;
    expire_effects now.

End Collaborators.

(** ** JSON values and the Python operations applied to them

    What [json.load] returns: [None], a bool, an integer, a string, a list
    or a dict with string keys.  (JSON numbers with a fraction are outside
    this type; [save_game] writes none.) *)

Inductive json : Type :=
| JNull
| JBool (b : bool)
| JNum (z : Z)
| JStr (s : string)
| JArr (l : list json)
| JObj (o : Dict json).

(** Python truth value ([if not state], [bool(x)], [if state.get(..)]). *)
Definition truthy (j : json) : bool :=
  match j with
  | JNull => false
  | JBool b => b
  | JNum z => negb (z =? 0)
  | JStr s => negb (String.eqb s "")
  | JArr l => match l with [] => false | _ :: _ => true end
  | JObj o => match o with [] => false | _ :: _ => true end
  end.

(** [j.get(k, default)]: only a dict has [get]. *)
Definition py_get (j : json) (k : string) (default : json) : Py json :=
  match j with
  | JObj o => Ret (match dict_get k o with Some v => v | None => default end)
  | _ => Raise AttributeError
  end.

(** [j[k]] with a string key. *)
Definition py_item (j : json) (k : string) : Py json :=
  match j with
  | JObj o => dict_item k o
  | _ => Raise TypeError
  end.

(** [int(j)]. *)
Definition py_int (j : json) : Py Z :=
  match j with
  | JNum z => Ret z
  | JBool b => Ret (if b then 1 else 0)
  | JStr _ => Untyped
  | _ => Raise TypeError
  end.

(** [tuple(j)] read as a cell: a list of two integers. *)
Definition py_tuple (j : json) : Py Cell :=
  match j with
  | JArr [JNum x; JNum y] => Ret (x, y)
  | JArr _ | JStr _ | JObj _ => Untyped
  | _ => Raise TypeError
  end.

(** [for p in j]. *)
Definition py_iter (j : json) : Py (list json) :=
  match j with
  | JArr l => Ret l
  | JStr _ | JObj _ => Untyped
  | _ => Raise TypeError
  end.

(** [[tuple(p) for p in j]]. *)
Fixpoint tuples (l : list json) : Py (list Cell) :=
  match l with
  | [] => Ret []
  | p :: l' =>
      match py_tuple p with
      | Ret c =>
          match tuples l' with
          | Ret cs => Ret (c :: cs)
          | Raise e => Raise e
          | Untyped => Untyped
          end
      | Raise e => Raise e
      | Untyped => Untyped
      end
  end.

Definition py_tuples (j : json) : Py (list Cell) :=
  match py_iter j with
  | Ret l => tuples l
  | Raise e => Raise e
  | Untyped => Untyped
  end.

(** [D.get(j, default)] on a dict with string keys: a list or a dict is
    unhashable, any other value that is not a key gives the default. *)
Definition lookup_or {V} (d : Dict V) (j : json) (default : V) : Py V :=
  match j with
  | JStr s => Ret (match dict_get s d with Some v => v | None => default end)
  | JArr _ | JObj _ => Raise TypeError
  | _ => Ret default
  end.

(** A value kept as it is in a field of the typed records. *)
Definition as_bool (j : json) : Py bool :=
  match j with JBool b => Ret b | _ => Untyped end.
Definition as_str (j : json) : Py string :=
  match j with JStr s => Ret s | _ => Untyped end.

(** [self.theme[role]]. *)
Definition theme_item (t : Theme) (role : string) : Py Color :=
  dict_item role (palette t).

(** ** Persistence (lines 144-161, 542-633) *)

(** [get_theme_name] (lines 542-547). *)
Fixpoint theme_name_in (d : Dict Theme) (t : Theme) : string :=
  match d with
  | [] => "classic"
  | (name, p) :: d' => if theme_eqb p t then name else theme_name_in d' t
  end.

Definition get_theme_name (g : SnakeGame) : string :=
  theme_name_in THEMES (theme g).

(** [get_difficulty_name] (lines 554-559). *)
Fixpoint difficulty_name_in (d : Dict Difficulty) (g : SnakeGame) : string :=
  match d with
  | [] => "custom"
  | (name, cfg) :: d' =>
      if (speed cfg =? base_speed g) && (obstacles_of cfg =? obstacle_count g)
      then name else difficulty_name_in d' g
  end.

Definition get_difficulty_name (g : SnakeGame) : string :=
  difficulty_name_in DIFFICULTIES g.

(** The save file on disk. *)
Inductive SaveFile : Type :=
| Absent
| Corrupt                      (* present, but it cannot be read as JSON *)
| Holds (j : json).

(** How a write to the save file ends. *)
Inductive WriteOutcome : Type :=
| Written
| OpenFailed                   (* [open] raised: the file is as before *)
| DumpFailed.                  (* [json.dump] raised after the file was truncated *)

(** [save_state] (lines 144-150): every exception is swallowed. *)
Definition save_state (w : WriteOutcome) (state : json) (f : SaveFile)
    : SaveFile :=
  match w with
  | Written => Holds state
  | OpenFailed => f
  | DumpFailed => Corrupt
  end.

(** [load_state] (lines 153-161); Python's [None] is [JNull]. *)
Definition load_state (f : SaveFile) : json :=
  match f with
  | Holds j => j
  | Absent | Corrupt => JNull
  end.

(** A tuple is written by [json.dump] as a list. *)
Definition cell_json (c : Cell) : json := JArr [JNum (fst c); JNum (snd c)].

Definition snake_json (s : Snake) : json :=
  JObj [("body", JArr (map cell_json (body s)));
        ("dir", cell_json (dir s));
        ("pending_dir", cell_json (pending_dir s));
        ("grow", JNum (grow s));
        ("alive", JBool (alive s));
        ("score", JNum (score s));
        ("speed_effect", JNum (speed_effect s))].

Definition food_json (f : Food) : json :=
  JObj [("pos", cell_json (pos f)); ("kind", JStr (kind f))].

(** The record built by [save_game] (lines 563-590), as [json.dump] writes it. *)
Definition saved_record (g : SnakeGame) : json :=
  JObj [("difficulty", JStr (get_difficulty_name g));
        ("theme", JStr (get_theme_name g));
        ("two_player", JBool (two_player g));
        ("snake1", snake_json (snake1 g));
        ("snake2", match snake2 g with
                   | Some s2 => snake_json s2
                   | None => JNull
                   end);
        ("obstacles", JArr (map cell_json (obstacles g)));
        ("foods", JArr (map food_json (foods g)));
        ("high_score", JNum (high_score g))].

(** [save_game] (lines 561-591): the session is not changed, the file is. *)
Definition save_game (w : WriteOutcome) (g : SnakeGame) (f : SaveFile)
    : SaveFile :=
  save_state w (saved_record g) f.

(** The seven assignments that restore one snake (lines 605-611, 616-622). *)
Definition restore_snake (who : Player) (s : json) : M SnakeGame unit :=
  b <- lift (py_item s "body") ;;
  cells <- lift (py_tuples b) ;;
  on_snake who (modify (set_body cells)) ;;;
  d <- lift (py_item s "dir") ;;
  d <- lift (py_tuple d) ;;
  on_snake who (modify (set_dir d)) ;;;
  p <- lift (py_item s "pending_dir") ;;
  p <- lift (py_tuple p) ;;
  on_snake who (modify (set_pending_dir p)) ;;;
  n <- lift (py_item s "grow") ;;
  n <- lift (py_int n) ;;
  on_snake who (modify (set_grow n)) ;;;
  a <- lift (py_item s "alive") ;;
  on_snake who (modify (set_alive (truthy a))) ;;;
  n <- lift (py_item s "score") ;;
  n <- lift (py_int n) ;;
  on_snake who (modify (set_score n)) ;;;
  n <- lift (py_get s "speed_effect" (JNum 0)) ;;
  n <- lift (py_int n) ;;
  on_snake who (modify (set_speed_effect n)).

(** One iteration of the loop over the saved foods (lines 628-631). *)
Definition restore_food (f : json) : M SnakeGame unit :=
  k <- lift (py_get f "kind" (JStr "normal")) ;;
  g <- get ;;
  default <- lift (theme_item (theme g) "food") ;;
  c <- lift (lookup_or (palette (theme g)) k default) ;;
  p <- lift (py_item f "pos") ;;
  p <- lift (py_tuple p) ;;
  k <- lift (as_str k) ;;
  modify (fun g =>
    set_foods (foods g ++ [{| pos := p; kind := k; food_color := c |}]) g).

(** [load_game] (lines 593-633); [ticks] is the clock reading of line 633. *)
Definition load_game (f : SaveFile) (ticks : Z) : M SnakeGame unit :=
  let state := load_state f in
  if negb (truthy state) then ret tt
  else
    name <- lift (py_get state "theme" (JStr "classic")) ;;
    default <- lift (dict_item "classic" THEMES) ;;
    t <- lift (lookup_or THEMES name default) ;;
    modify (set_theme_ref t) ;;;
    name <- lift (py_get state "difficulty" (JStr "medium")) ;;
    default <- lift (dict_item "medium" DIFFICULTIES) ;;
    cfg <- lift (lookup_or DIFFICULTIES name default) ;;
    modify (set_base_speed (speed cfg)) ;;;
    name <- lift (py_get state "difficulty" (JStr "medium")) ;;
    default <- lift (dict_item "medium" DIFFICULTIES) ;;
    cfg <- lift (lookup_or DIFFICULTIES name default) ;;
    modify (set_obstacle_count (obstacles_of cfg)) ;;;
    tp <- lift (py_get state "two_player" (JBool false)) ;;
    tp <- lift (as_bool tp) ;;
    modify (set_two_player tp) ;;;

    s1 <- lift (py_item state "snake1") ;;
    g <- get ;;
    c <- lift (theme_item (theme g) "snake1") ;;
    modify (set_snake1 (Snake_init c (0, 0) (controls (snake1 g)) 3)) ;;;
    restore_snake P1 s1 ;;;

    s2 <- lift (py_get state "snake2" JNull) ;;
    (if truthy s2 then
       s2 <- lift (py_item state "snake2") ;;
       g <- get ;;
       c <- lift (theme_item (theme g) "snake2") ;;
       ctl <- on_snake P2 (s <- get ;; ret (controls s)) ;;
       modify (set_snake2 (Some (Snake_init c (0, 0) ctl 3))) ;;;
       restore_snake P2 s2
     else modify (set_snake2 None)) ;;;

    obs <- lift (py_get state "obstacles" (JArr [])) ;;
    cells <- lift (py_tuples obs) ;;
    modify (set_obstacles cells) ;;;
    modify (set_foods []) ;;;
    fs <- lift (py_get state "foods" (JArr [])) ;;
    fs <- lift (py_iter fs) ;;
    for_each fs restore_food ;;;
    g <- get ;;
    hs <- lift (py_get state "high_score" (JNum (high_score g))) ;;
    hs <- lift (py_int hs) ;;
    modify (set_high_score hs) ;;;
    modify (set_last_update ticks).

(** ** A snake in motion

    What play maintains from [Snake.__init__] on: the committed and the
    pending direction are not the null vector and the last two cells of the
    body are distinct. *)
Definition moving (s : Snake) : Prop :=
  dir s <> (0, 0) /\ pending_dir s <> (0, 0) /\
  forall front neck head, body s = front ++ [neck; head] -> neck <> head.

(** ** The death rule, in words

    The condition under which the first loop of [check_collisions] is said
    to clear a snake's [alive] flag, for the snake [who] with head cell
    [head]: the head is off the board, on an obstacle, on the snake's own
    body apart from the head, or on the body of the other snake. *)

Definition other_player (who : Player) : Player :=
  match who with
  | P1 => P2
  | P2 => P1
  end.

Definition dies (g : SnakeGame) (who : Player) (head : Cell) : bool :=
  out_of_bounds head
  || cell_in head (obstacles g)
  || match get_snake who g with
     | Some s => cell_in head (all_but_last (body s))
     | None => false
     end
  || match get_snake (other_player who) g with
     | Some o => cell_in head (body o)
     | None => false
     end.

(** The same rule when only a living other snake counts. *)
Definition dies_living_only (g : SnakeGame) (who : Player) (head : Cell)
    : bool :=
  out_of_bounds head
  || cell_in head (obstacles g)
  || match get_snake who g with
     | Some s => cell_in head (all_but_last (body s))
     | None => false
     end
  || match get_snake (other_player who) g with
     | Some o => alive o && cell_in head (body o)
     | None => false
     end.

(** What one pass of the first loop does to the session, in closed form. *)
Definition mark (who : Player) (dead : bool) (g : SnakeGame) : SnakeGame :=
  match get_snake who g with
  | Some s => if dead then put_snake who (set_alive false s) g else g
  | None => g
  end.

(** ** Closed forms for the expiry loop *)

(** Add [z] to the speed modifier of every snake of the session. *)
Definition shift_speed (z : Z) (g : SnakeGame) : SnakeGame :=
  let g1 := set_snake1 (set_speed_effect (speed_effect (snake1 g) + z) (snake1 g)) g in
  match snake2 g with
  | Some s2 => set_snake2 (Some (set_speed_effect (speed_effect s2 + z) s2)) g1
  | None => g1
  end.

(** The session after [reverse_effect key]. *)
Definition reversed (key : string) (g : SnakeGame) : SnakeGame :=
  if String.eqb key "speed_up" then shift_speed (-2) g
  else if String.eqb key "speed_down" then shift_speed 2 g
  else g.

(** The session after one iteration of the expiry loop on an entry. *)
Definition expire_entry (now : Z) (e : string * Z) (g : SnakeGame) : SnakeGame :=
  if SPECIAL_EFFECT_DURATION <=? now - snd e then
    set_special_effects (dict_del (fst e) (special_effects (reversed (fst e) g)))
      (reversed (fst e) g)
  else g.

(** The speed delta that the expiry of [key] adds to every snake. *)
Definition reversal_delta (key : string) : Z :=
  if String.eqb key "speed_up" then -2
  else if String.eqb key "speed_down" then 2
  else 0.

Definition expired (now : Z) (e : string * Z) : bool :=
  SPECIAL_EFFECT_DURATION <=? now - snd e.

(** The sum of the deltas of the entries that have expired at [now]. *)
Fixpoint total_reversal (now : Z) (entries : Dict Z) : Z :=
  match entries with
  | [] => 0
  | e :: rest =>
      (if expired now e then reversal_delta (fst e) else 0)
      + total_reversal now rest
  end.

(** The session after the expiry loop has run over [entries]. *)
Definition expire_all (now : Z) (entries : Dict Z) (g : SnakeGame) : SnakeGame :=
  fold_left (fun g e => expire_entry now e g) entries g.

(** A Python dict holds a key once. *)
Fixpoint distinct_keys (ks : list string) : bool :=
  match ks with
  | [] => true
  | k :: ks' => negb (existsb (String.eqb k) ks') && distinct_keys ks'
  end.

Definition is_dict {V} (d : Dict V) : Prop :=
  distinct_keys (dict_keys d) = true.

(** A computation that never touches [self.special_effects]. *)
Definition keeps_effects {A} (c : M SnakeGame A) : Prop :=
  forall g r g', c g = (r, g') -> special_effects g' = special_effects g.

(** The speed modifiers of the two snakes. *)
Definition speed_effects (g : SnakeGame) : Z * option Z :=
  (speed_effect (snake1 g), option_map speed_effect (snake2 g)).

(** ** Persisted records, typed

    The session-state record of the external interface: a mapping whose
    entries [difficulty], [theme], [two_player], [obstacles], [foods],
    [high_score] and, inside a snake, [speed_effect], and inside a food,
    [kind], may be missing; [snake2] may be missing or null.  [record_json]
    is the JSON value such a record is read as.  These describe the inputs
    of [load_game]; the loading itself is the code above. *)

Record SavedSnake : Type := {
  sv_body : list Cell;
  sv_dir : Cell;
  sv_pending_dir : Cell;
  sv_grow : Z;
  sv_alive : bool;
  sv_score : Z;
  sv_speed_effect : option Z
}.

Record SavedFood : Type := {
  sf_pos : Cell;
  sf_kind : option string
}.

Record SavedState : Type := {
  sv_difficulty : option string;
  sv_theme : option string;
  sv_two_player : option bool;
  sv_snake1 : SavedSnake;
  sv_snake2 : option (option SavedSnake);   (* missing, null, or a record *)
  sv_obstacles : option (list Cell);
  sv_foods : option (list SavedFood);
  sv_high_score : option Z
}.

(** An entry that is present or missing. *)
Definition opt_entry (k : string) (o : option json) : Dict json :=
  match o with
  | Some v => [(k, v)]
  | None => []
  end.

Definition saved_snake_json (s : SavedSnake) : json :=
  JObj ([("body", JArr (map cell_json (sv_body s)));
         ("dir", cell_json (sv_dir s));
         ("pending_dir", cell_json (sv_pending_dir s));
         ("grow", JNum (sv_grow s));
         ("alive", JBool (sv_alive s));
         ("score", JNum (sv_score s))]
        ++ opt_entry "speed_effect" (option_map JNum (sv_speed_effect s))).

Definition saved_food_json (f : SavedFood) : json :=
  JObj ([("pos", cell_json (sf_pos f))]
        ++ opt_entry "kind" (option_map JStr (sf_kind f))).

Definition record_json (r : SavedState) : json :=
  JObj (opt_entry "difficulty" (option_map JStr (sv_difficulty r))
        ++ opt_entry "theme" (option_map JStr (sv_theme r))
        ++ opt_entry "two_player" (option_map JBool (sv_two_player r))
        ++ [("snake1", saved_snake_json (sv_snake1 r))]
        ++ opt_entry "snake2"
             (option_map (fun o => match o with
                                   | Some s => saved_snake_json s
                                   | None => JNull
                                   end) (sv_snake2 r))
        ++ opt_entry "obstacles"
             (option_map (fun l => JArr (map cell_json l)) (sv_obstacles r))
        ++ opt_entry "foods"
             (option_map (fun l => JArr (map saved_food_json l)) (sv_foods r))
        ++ opt_entry "high_score" (option_map JNum (sv_high_score r))).

(** The typed record that [save_game] writes for a session. *)
Definition saved_snake (s : Snake) : SavedSnake :=
  {| sv_body := body s; sv_dir := dir s; sv_pending_dir := pending_dir s;
     sv_grow := grow s; sv_alive := alive s; sv_score := score s;
     sv_speed_effect := Some (speed_effect s) |}.

Definition saved_food (f : Food) : SavedFood :=
  {| sf_pos := pos f; sf_kind := Some (kind f) |}.

Definition saved_state (g : SnakeGame) : SavedState :=
  {| sv_difficulty := Some (get_difficulty_name g);
     sv_theme := Some (get_theme_name g);
     sv_two_player := Some (two_player g);
     sv_snake1 := saved_snake (snake1 g);
     sv_snake2 := Some (option_map saved_snake (snake2 g));
     sv_obstacles := Some (obstacles g);
     sv_foods := Some (map saved_food (foods g));
     sv_high_score := Some (high_score g) |}.

(** ** The session after a load, in closed form *)

Definition or_default {A} (o : option A) (d : A) : A :=
  match o with
  | Some a => a
  | None => d
  end.

(** [D.get(name, default)] for a name that may be missing from the record. *)
Definition resolve {V} (d : Dict V) (name : option string) (default : V) : V :=
  match name with
  | Some n => or_default (dict_get n d) default
  | None => default
  end.

Definition role_color (t : Theme) (role : string) : Color :=
  or_default (dict_get role (palette t)) (0, 0, 0).

Definition medium : Difficulty := {| speed := 15; obstacles_of := 20 |}.

Definition restored_snake (c : Color) (ctl : Controls) (s : SavedSnake) : Snake :=
  {| color := c; body := sv_body s; dir := sv_dir s;
     pending_dir := sv_pending_dir s; controls := ctl; grow := sv_grow s;
     alive := sv_alive s; score := sv_score s;
     speed_effect := or_default (sv_speed_effect s) 0; last_effect_time := 0 |}.

Definition restored_food (t : Theme) (f : SavedFood) : Food :=
  let k := or_default (sf_kind f) "normal" in
  {| pos := sf_pos f; kind := k;
     food_color := or_default (dict_get k (palette t)) (role_color t "food") |}.

Definition loaded (r : SavedState) (ticks : Z) (g : SnakeGame) : SnakeGame :=
  let t := resolve THEMES (sv_theme r) Classic in
  let cfg := resolve DIFFICULTIES (sv_difficulty r) medium in
  {| theme := t;
     base_speed := speed cfg;
     obstacle_count := obstacles_of cfg;
     two_player := or_default (sv_two_player r) false;
     snake1 := restored_snake (role_color t "snake1") (controls (snake1 g))
                 (sv_snake1 r);
     snake2 :=
       match sv_snake2 r, snake2 g with
       | Some (Some s), Some old =>
           Some (restored_snake (role_color t "snake2") (controls old) s)
       | _, _ => None
       end;
     high_score := or_default (sv_high_score r) (high_score g);
     obstacles := or_default (sv_obstacles r) [];
     foods := map (restored_food t) (or_default (sv_foods r) []);
     running := running g;
     paused := paused g;
     last_update := ticks;
     update_interval := update_interval g;
     special_effects := special_effects g |}.

(** The record holds a second snake only if the session has one. *)
Definition second_snake_fits (r : SavedState) (g : SnakeGame) : Prop :=
  match sv_snake2 r, snake2 g with
  | Some (Some _), None => False
  | _, _ => True
  end.

(** ** What a round trip is compared on *)

(** The state of a snake that the save file carries over. *)
Definition snake_state (s : Snake)
    : list Cell * Cell * Cell * Z * Z * bool :=
  (body s, dir s, pending_dir s, grow s, score s, alive s).

(** Position and kind of a food. *)
Definition food_state (f : Food) : Cell * string := (pos f, kind f).

(** ** Sample sessions

    Concrete snakes and sessions on which the rules are evaluated. *)

(** Key codes; their values play no part in the rules. *)
Definition arrows : Controls :=
  {| key_left := 1073741904; key_right := 1073741903;
     key_up := 1073741906; key_down := 1073741905 |}.
Definition wasd : Controls :=
  {| key_left := 97; key_right := 100; key_up := 119; key_down := 115 |}.

Definition snake_with (c : Color) (ctl : Controls) (cells : list Cell)
    (d pending : Cell) (growth : Z) (living : bool) (modifier : Z) : Snake :=
  {| color := c; body := cells; dir := d; pending_dir := pending;
     controls := ctl; grow := growth; alive := living; score := 0;
     speed_effect := modifier; last_effect_time := 0 |}.

(** A medium, classic session that is running and not paused. *)
Definition session_with (s1 : Snake) (s2 : option Snake) (obs : list Cell)
    (fs : list Food) (effects : Dict Z) : SnakeGame :=
  {| theme := Classic; base_speed := 15; obstacle_count := 20;
     two_player := match s2 with Some _ => true | None => false end;
     snake1 := s1; snake2 := s2; high_score := 0; obstacles := obs;
     foods := fs; running := true; paused := false; last_update := 0;
     update_interval := 66; special_effects := effects |}.

(** A living snake heading right whose head has just entered (100,100). *)
Definition runner : Snake :=
  snake_with (0, 0, 0) arrows [(80, 100); (90, 100); (100, 100)]
    (10, 0) (10, 0) 0 true 0.

(** A snake that died earlier and lies across (100,100). *)
Definition corpse : Snake :=
  snake_with (0, 100, 0) wasd [(100, 90); (100, 100); (100, 110)]
    (0, 10) (0, 10) 0 false 0.

Definition runner_meets_corpse : SnakeGame :=
  session_with runner (Some corpse) [] [] [].

Definition speed_up_food : Food :=
  {| pos := (100, 100); kind := "speed_up"; food_color := (255, 0, 0) |}.

(** A living second snake elsewhere on the board. *)
Definition rival : Snake :=
  snake_with (0, 100, 0) wasd [(900, 300); (910, 300); (920, 300)]
    (10, 0) (10, 0) 0 true 0.

(** Two living snakes, no effect active, both speed modifiers 0. *)
Definition duel : SnakeGame := session_with runner (Some rival) [] [] [].

(** One snake that ate a speed_up food at 1000 ms: modifier 2, timer armed. *)
Definition boosted : SnakeGame :=
  session_with
    (snake_with (0, 0, 0) arrows [(80, 100); (90, 100); (100, 100)]
       (10, 0) (10, 0) 0 true 2)
    None [] [] [("speed_up", 1000)].




(** ** What snake and effect steps leave alone *)

(** The fields of the session other than the snakes and the effect map. *)
Definition board_of (g : SnakeGame)
    : Theme * Z * Z * bool * Z * list Cell * list Food * bool * bool * Z * Z :=
  (theme g, base_speed g, obstacle_count g, two_player g, high_score g,
   obstacles g, foods g, running g, paused g, last_update g,
   update_interval g).

(** [(speed, obstacles)] of the session is one of the presets. *)
Definition is_preset (g : SnakeGame) : bool :=
  existsb (fun e => (speed (snd e) =? base_speed g)
                    && (obstacles_of (snd e) =? obstacle_count g))
          DIFFICULTIES.

(** ** Key events on a snake (lines 187-197) *)

Inductive Event : Type :=
| QUIT
| KEYDOWN (key : Z)
| OtherEvent.                  (* any other event type *)

(** [Snake.handle_event]. *)
Definition handle_event (event : Event) : M Snake unit :=
  match event with
  | KEYDOWN key =>
      s <- get ;;
      if key =? key_left (controls s) then
        modify (set_pending_dir (- GRID_SIZE, 0))
      else if key =? key_right (controls s) then
        modify (set_pending_dir (GRID_SIZE, 0))
      else if key =? key_up (controls s) then
        modify (set_pending_dir (0, - GRID_SIZE))
      else if key =? key_down (controls s) then
        modify (set_pending_dir (0, GRID_SIZE))
      else ret tt
  | _ => ret tt
  end.

(** ** Grid paths *)

(** One of the four steps of one grid unit. *)
Definition unit_dir (d : Cell) : bool :=
  cell_eqb d (GRID_SIZE, 0) || cell_eqb d (- GRID_SIZE, 0)
  || cell_eqb d (0, GRID_SIZE) || cell_eqb d (0, - GRID_SIZE).

(** Each cell is one grid step from the one before it. *)
Fixpoint contiguous (cells : list Cell) : bool :=
  match cells with
  | x :: (y :: _) as rest =>
      unit_dir (fst y - fst x, snd y - snd x) && contiguous rest
  | _ => true
  end.

Definition on_grid_path (s : Snake) : Prop :=
  unit_dir (dir s) = true /\ unit_dir (pending_dir s) = true /\
  contiguous (body s) = true /\ body s <> [].

(** What play does to a snake object itself. *)
Inductive SnakeOp : Type :=
| OpEvent (e : Event)          (* [handle_event] *)
| OpUpdate                     (* [update] *)
| OpShrink.                    (* the shrink branch of [apply_food_effect] *)

Definition snake_op (op : SnakeOp) : M Snake unit :=
  match op with
  | OpEvent e => handle_event e
  | OpUpdate => Snake_update
  | OpShrink => shrink
  end.

(** ** Sound sessions *)

(** Every snake of the session is on a grid path and the effect map is a
    dict. *)
Definition sound (g : SnakeGame) : Prop :=
  (forall who s, get_snake who g = Some s -> on_grid_path s) /\
  is_dict (special_effects g).

(** A collaborator that returns, keeps the session sound and neither adds
    nor removes a snake. *)
Definition well_behaved (c : M SnakeGame unit) : Prop :=
  forall g, sound g ->
    exists g', c g = (Ret tt, g') /\ sound g' /\ snakes g' = snakes g.

(** [self.update_interval = n]. *)
Definition set_update_interval (n : Z) (g : SnakeGame) : SnakeGame :=
  {| theme := theme g; base_speed := base_speed g; obstacle_count := obstacle_count g;
     two_player := two_player g; snake1 := snake1 g; snake2 := snake2 g;
     high_score := high_score g; obstacles := obstacles g; foods := foods g;
     running := running g; paused := paused g; last_update := last_update g;
     update_interval := n; special_effects := special_effects g |}.

(** ** The high score file (lines 123-141, 473-476) *)

(** [load_high_score]: every exception is turned into 0. *)
Definition load_high_score (f : SaveFile) : Py Z :=
  match f with
  | Holds data =>
      match py_get data "high_score" (JNum 0) with
      | Ret v =>
          match py_int v with
          | Ret n => Ret n
          | Raise _ => Ret 0
          | Untyped => Untyped
          end
      | Raise _ => Ret 0
      | Untyped => Untyped
      end
  | Absent | Corrupt => Ret 0
  end.

(** [save_high_score]: every exception is swallowed. *)
Definition save_high_score (w : WriteOutcome) (value : Z) (f : SaveFile)
    : SaveFile :=
  match w with
  | Written => Holds (JObj [("high_score", JNum value)])
  | OpenFailed => f
  | DumpFailed => Corrupt
  end.

(** [total_score] of lines 473 and 528. *)
Definition total_score (g : SnakeGame) : Z :=
  score (snake1 g) + match snake2 g with Some s2 => score s2 | None => 0 end.

(** The first part of [handle_game_over] (lines 473-476): the session and
    the high score file afterwards. *)
Definition settle_high_score (w : WriteOutcome) (g : SnakeGame) (f : SaveFile)
    : SnakeGame * SaveFile :=
  if high_score g <? total_score g then
    (set_high_score (total_score g) g, save_high_score w (total_score g) f)
  else (g, f).

(** ** Random placement (lines 164-168, 242-254, 317-345)

    The random generator is a tape of integers read from the front; each
    call takes one draw and reduces it to the range asked for.  Nothing is
    said about how likely a draw is, only what a draw can lead to. *)

Definition Rng : Type := nat -> Z.

Definition draw : M Rng Z := fun r => (Ret (r 0%nat), fun n => r (S n)).

(** [random.randrange(start, stop)], called with [start < stop]. *)
Definition randrange (start stop : Z) : M Rng Z :=
  d <- draw ;; ret (start + d mod (stop - start)).

(** [random.random() < 0.35]. *)
Definition random_below_035 : M Rng bool :=
  d <- draw ;; ret (d mod 100 <? 35).

(** [random.choice(l)] on a non-empty list. *)
Definition choice {A} (l : list A) (default : A) : M Rng A :=
  d <- draw ;; ret (nth (Z.to_nat (d mod Z.of_nat (length l))) l default).

(** [round(n / float(d))] for integers [0 <= n] and [0 < d] that a float
    holds exactly: the nearest integer, a tie going to the even one. *)
Definition round_div (n d : Z) : Z :=
  let q := n / d in
  let r := n mod d in
  if 2 * r <? d then q
  else if d <? 2 * r then q + 1
  else if Z.even q then q else q + 1.

(** [grid_pos_random] (lines 164-168). *)
Definition grid_pos_random (max_w max_h : Z) : M Rng Cell :=
  x <- randrange 0 (max_w - GRID_SIZE) ;;
  y <- randrange 0 (max_h - GRID_SIZE) ;;
  ret (round_div x GRID_SIZE * GRID_SIZE, round_div y GRID_SIZE * GRID_SIZE).

Definition MAX_ATTEMPTS : Z := 5000.

(** The loop of [create_obstacles] with [left] attempts to go. *)
Fixpoint create_obstacles_loop (left : nat) (count : Z) (exclude : list Cell)
    (placed : list Cell) : M Rng (list Cell) :=
  if Z.of_nat (length placed) <? count then
    match left with
    | O => ret placed
    | S left' =>
        p <- grid_pos_random DIS_WIDTH DIS_HEIGHT ;;
        if cell_in p exclude then
          create_obstacles_loop left' count exclude placed
        else if negb (cell_in p placed) then
          create_obstacles_loop left' count exclude (placed ++ [p])
        else create_obstacles_loop left' count exclude placed
    end
  else ret placed.

(** [create_obstacles] (lines 242-254). *)
Definition create_obstacles (count : Z) (exclude_positions : list Cell)
    : M Rng (list Cell) :=
  create_obstacles_loop (Z.to_nat MAX_ATTEMPTS) count exclude_positions [].

(** The cells of the set [occupied] of [find_free_pos] (lines 332-336). *)
Definition occupied (g : SnakeGame) : list Cell :=
  obstacles g ++ body (snake1 g)
  ++ match snake2 g with Some s2 => body s2 | None => [] end
  ++ map pos (foods g).

(** The loop of [find_free_pos] with [left] attempts to go. *)
Fixpoint find_free_pos_loop (left : nat) (taken : list Cell) : M Rng Cell :=
  match left with
  | O => ret (GRID_SIZE, GRID_SIZE)
  | S left' =>
      p <- grid_pos_random DIS_WIDTH DIS_HEIGHT ;;
      if negb (cell_in p taken) then ret p
      else find_free_pos_loop left' taken
  end.

(** [find_free_pos] (lines 330-345). *)
Definition find_free_pos (g : SnakeGame) : M Rng Cell :=
  find_free_pos_loop (Z.to_nat MAX_ATTEMPTS) (occupied g).

Definition SPECIAL_TYPES : list string :=
  ["bonus"; "speed_up"; "speed_down"; "shrink"].

(** [self.foods.append(f)]. *)
Definition append_food (f : Food) (g : SnakeGame) : SnakeGame :=
  set_foods (foods g ++ [f]) g.

(** [spawn_foods] (lines 317-328): the session after the call. *)
Definition spawn_foods (g : SnakeGame) : M Rng SnakeGame :=
  p <- find_free_pos g ;;
  c <- lift (theme_item (theme g) "food") ;;
  let g := append_food {| pos := p; kind := "normal"; food_color := c |} g in
  special <- random_below_035 ;;
  if special then
    k <- choice SPECIAL_TYPES "" ;;
    c <- lift (theme_item (theme g) k) ;;
    p <- find_free_pos g ;;
    ret (append_food {| pos := p; kind := k; food_color := c |} g)
  else ret g.

(** [spawn_foods] as a step of the session, drawing from the tape [r]. *)
Definition spawn_with (r : Rng) : M SnakeGame unit :=
  fun g =>
    match spawn_foods g r with
    | (Ret g', _) => (Ret tt, g')
    | (Raise e, _) => (Raise e, g)
    | (Untyped, _) => (Untyped, g)
    end.

(** ** Starting a session (lines 261-305, 684-693) *)

(** [D[key]] for a key that came out of a JSON record. *)
Definition json_item {V} (d : Dict V) (key : json) : Py V :=
  match key with
  | JStr s => dict_item s d
  | JArr _ | JObj _ => Raise TypeError
  | _ => Raise KeyError
  end.

(** [SnakeGame.__init__]; [score_file] is the high score file it reads and
    [ticks] the clock reading of line 303. *)
Definition SnakeGame_init (difficulty theme_name two_player : json)
    (score_file : SaveFile) (ticks : Z) : M Rng SnakeGame :=
  t <- lift (json_item THEMES theme_name) ;;
  cfg <- lift (json_item DIFFICULTIES difficulty) ;;
  cfg' <- lift (json_item DIFFICULTIES difficulty) ;;
  tp <- lift (as_bool two_player) ;;
  c1 <- lift (theme_item t "snake1") ;;
  let s1 := Snake_init c1 (DIS_WIDTH / 4, DIS_HEIGHT / 2) arrows 3 in
  s2 <- (if truthy two_player then
           c2 <- lift (theme_item t "snake2") ;;
           ret (Some (Snake_init c2 (3 * DIS_WIDTH / 4, DIS_HEIGHT / 2) wasd 3))
         else ret None) ;;
  hs <- lift (load_high_score score_file) ;;
  obs <- create_obstacles (obstacles_of cfg')
           (body s1 ++ match s2 with
                       | Some s => firstn 1 (body s)
                       | None => []
                       end) ;;
  let g :=
    {| theme := t; base_speed := speed cfg; obstacle_count := obstacles_of cfg';
       two_player := tp; snake1 := s1; snake2 := s2; high_score := hs;
       obstacles := obs; foods := []; running := true; paused := false;
       last_update := ticks; update_interval := 0; special_effects := [] |} in
  g <- spawn_foods g ;;
  interval <- lift (compute_interval g) ;;
  ret (set_update_interval interval g).

(** The "load save" key of [main_menu] (lines 684-693), up to the start of
    the main loop: [None] when there is no saved state. *)
Definition menu_load (save_file score_file : SaveFile) (ticks ticks' : Z)
    : M Rng (option SnakeGame) :=
  let state := load_state save_file in
  if truthy state then
    d <- lift (py_get state "difficulty" (JStr "medium")) ;;
    t <- lift (py_get state "theme" (JStr "classic")) ;;
    tp <- lift (py_get state "two_player" (JBool false)) ;;
    game <- SnakeGame_init d t tp score_file ticks ;;
    match load_game save_file ticks' game with
    | (Ret _, game') => ret (Some game')
    | (Raise e, _) => lift (Raise e)
    | (Untyped, _) => lift Untyped
    end
  else ret None.

(** A cell of the board: both coordinates multiples of the grid unit, and
    not out of bounds. *)
Definition aligned (p : Cell) : bool :=
  (fst p mod GRID_SIZE =? 0) && (snd p mod GRID_SIZE =? 0).

Definition board_cell (p : Cell) : bool :=
  aligned p && negb (out_of_bounds p).

(** ** Commands of the running game (lines 347-371, 549-552) *)

Definition set_running (b : bool) (g : SnakeGame) : SnakeGame :=
  {| theme := theme g; base_speed := base_speed g; obstacle_count := obstacle_count g;
     two_player := two_player g; snake1 := snake1 g; snake2 := snake2 g;
     high_score := high_score g; obstacles := obstacles g; foods := foods g;
     running := b; paused := paused g; last_update := last_update g;
     update_interval := update_interval g; special_effects := special_effects g |}.

Definition set_paused (b : bool) (g : SnakeGame) : SnakeGame :=
  {| theme := theme g; base_speed := base_speed g; obstacle_count := obstacle_count g;
     two_player := two_player g; snake1 := snake1 g; snake2 := snake2 g;
     high_score := high_score g; obstacles := obstacles g; foods := foods g;
     running := running g; paused := b; last_update := last_update g;
     update_interval := update_interval g; special_effects := special_effects g |}.

(** [set_theme] (lines 549-552). *)
Definition set_theme (name : string) (g : SnakeGame) : SnakeGame :=
  match dict_get name THEMES with
  | Some t => set_theme_ref t g
  | None => g
  end.

(** [names.index(x)]; [None] stands for the [ValueError] of a missing [x]. *)
Fixpoint list_index (x : string) (names : list string) : option nat :=
  match names with
  | [] => None
  | n :: names' =>
      if String.eqb n x then Some O
      else option_map S (list_index x names')
  end.

(** The theme key (lines 358-362); [None] stands for the [ValueError]. *)
Definition cycle_theme (g : SnakeGame) : option SnakeGame :=
  let names := dict_keys THEMES in
  match list_index (get_theme_name g) names with
  | Some current_index =>
      let next_name :=
        nth ((current_index + 1) mod length names)%nat names "" in
      Some (set_theme next_name g)
  | None => None
  end.

(** Key codes of pygame 2 for the command keys. *)
Definition K_q : Z := 113.
Definition K_p : Z := 112.
Definition K_t : Z := 116.
Definition K_l : Z := 108.
Definition K_s : Z := 115.

(** The session together with its save file. *)
Record World : Type := {
  game : SnakeGame;
  save_file : SaveFile
}.

(** Run a computation of the session inside the world. *)
Definition on_game {A} (c : M SnakeGame A) : M World A :=
  fun w =>
    let (r, g') := c (game w) in
    (r, {| game := g'; save_file := save_file w |}).

(** The command keys of lines 353-366; [wo] is how a write to the save
    file ends and [ticks] the clock reading of a load. *)
Definition command_key (wo : WriteOutcome) (ticks : Z) (key : Z)
    : M World unit :=
  if key =? K_q then on_game (modify (set_running false))
  else if key =? K_p then
    on_game (modify (fun g => set_paused (negb (paused g)) g))
  else if key =? K_t then
    w <- get ;;
    match cycle_theme (game w) with
    | Some g' => on_game (modify (fun _ => g'))
    | None => lift Untyped
    end
  else if key =? K_l then
    w <- get ;; on_game (load_game (save_file w) ticks)
  else if key =? K_s then
    modify (fun w => {| game := game w;
                        save_file := save_game wo (game w) (save_file w) |})
  else ret tt.

(** The delegation to the snakes of lines 368-371. *)
Definition delegate (event : Event) : M World unit :=
  on_game (on_snake P1 (handle_event event)) ;;;
  w <- get ;;
  match snake2 (game w) with
  | Some _ => on_game (on_snake P2 (handle_event event))
  | None => ret tt
  end.

(** The body of the loop of [handle_events] for one event. *)
Definition handle_one_event (wo : WriteOutcome) (ticks : Z) (event : Event)
    : M World unit :=
  match event with
  | QUIT => on_game (modify (set_running false))
  | KEYDOWN key => command_key wo ticks key ;;; delegate event
  | OtherEvent => ret tt
  end.

(** [handle_events] (lines 347-371) on the events of one frame. *)
Definition handle_events (wo : WriteOutcome) (ticks : Z) (events : list Event)
    : M World unit :=
  for_each events (handle_one_event wo ticks).

(** ** Points for a food *)

(** What [apply_food_effect] adds to the score for a kind. *)
Definition points (k : string) : Z :=
  if String.eqb k "normal" then 1
  else if String.eqb k "bonus" then 5
  else if String.eqb k "speed_up" then 2
  else if String.eqb k "speed_down" then 2
  else if String.eqb k "shrink" then 3
  else 0.


(** The points of a list of foods. *)
Definition feast (fs : list Food) : Z :=
  fold_right (fun f acc => points (kind f) + acc) 0 fs.

(** ** What the command keys leave alone *)

(** [s'] is [s] but for its pending direction. *)
Definition steered (s s' : Snake) : Prop :=
  s' = set_pending_dir (pending_dir s') s.

(** [g'] is [g] but for the running and paused flags, the theme and the
    pending directions of its snakes. *)
Definition commanded (g g' : SnakeGame) : Prop :=
  steered (snake1 g) (snake1 g') /\
  match snake2 g, snake2 g' with
  | Some s, Some s' => steered s s'
  | None, None => True
  | _, _ => False
  end /\
  base_speed g' = base_speed g /\ obstacle_count g' = obstacle_count g /\
  two_player g' = two_player g /\ high_score g' = high_score g /\
  obstacles g' = obstacles g /\ foods g' = foods g /\
  last_update g' = last_update g /\ update_interval g' = update_interval g /\
  special_effects g' = special_effects g.


(** ** More sample sessions *)

(** A snake of eight cells heading right, its head on (100,100). *)
Definition long_runner : Snake :=
  snake_with (0, 0, 0) arrows
    [(30, 100); (40, 100); (50, 100); (60, 100); (70, 100); (80, 100);
     (90, 100); (100, 100)]
    (10, 0) (10, 0) 2 true 0.

Definition shrink_food : Food :=
  {| pos := (100, 100); kind := "shrink"; food_color := (128, 0, 128) |}.

(** One snake, no effect active. *)
Definition solo : SnakeGame := session_with runner None [] [] [].

(** The long snake with two foods under its head and one elsewhere. *)
Definition feeding : SnakeGame :=
  session_with long_runner None []
    [speed_up_food; shrink_food;
     {| pos := (500, 300); kind := "normal"; food_color := (255, 0, 0) |}]
    [].

(** A generator that yields 0 at every draw. *)
Definition zeros : Rng := fun _ => 0.

(** [duel] with no save file on disk. *)
Definition at_play : World := {| game := duel; save_file := Absent |}.


(** The record of a one-player session whose snake has a speed modifier of
    [2^1024], which JSON can hold and [float] cannot. *)
Definition overdriven_record : SavedState :=
  {| sv_difficulty := Some "medium"; sv_theme := Some "classic";
     sv_two_player := Some false;
     sv_snake1 :=
       {| sv_body := [(80, 100); (90, 100); (100, 100)]; sv_dir := (10, 0);
          sv_pending_dir := (10, 0); sv_grow := 0; sv_alive := true;
          sv_score := 0; sv_speed_effect := Some (2 ^ 1024) |};
     sv_snake2 := None; sv_obstacles := None; sv_foods := None;
     sv_high_score := None |}.

(** * Properties *)

Unset Implicit Arguments.

(** ** Running the monad *)

Lemma bind_ret {S A B} {c : M S A} (k : A -> M S B) {s s' : S} {a : A} :
  c s = (Ret a, s') -> bind c k s = k a s'.
Proof. intros H. unfold bind. now rewrite H. Qed.

(** ** Python indexing from the end *)

Lemma item_neg_last {A} (l : list A) (x : A) : item_neg (l ++ [x]) 1 = Ret x.
Proof.
  unfold item_neg. rewrite length_app. simpl.
  replace (length l + 1 <? 1)%nat with false
    by (symmetry; apply Nat.ltb_ge; lia).
  replace (length l + 1 - 1)%nat with (length l) by lia.
  now rewrite nth_error_app2, Nat.sub_diag by lia.
Qed.

Lemma item_neg_neck {A} (l : list A) (y x : A) :
  item_neg (l ++ [y; x]) 2 = Ret y.
Proof.
  unfold item_neg. rewrite length_app. simpl.
  replace (length l + 2 <? 2)%nat with false
    by (symmetry; apply Nat.ltb_ge; lia).
  replace (length l + 2 - 2)%nat with (length l) by lia.
  now rewrite nth_error_app2, Nat.sub_diag by lia.
Qed.

(** A non-empty list, seen from its end. *)
Lemma snoc_cases {A} (l : list A) :
  l <> [] -> exists front x, l = front ++ [x].
Proof.
  intros H. destruct (exists_last H) as [front [x E]]. now exists front, x.
Qed.

(** ** The advance step *)

Lemma current_dir_short (s : Snake) :
  (length (body s) < 2)%nat -> current_dir s = (Ret (dir s), s).
Proof.
  intros H. unfold current_dir, bind, get.
  replace (2 <=? length (body s))%nat with false
    by (symmetry; apply Nat.leb_gt; lia).
  reflexivity.
Qed.

Lemma current_dir_long (s : Snake) (l : list Cell) (n h : Cell) :
  body s = l ++ [n; h] ->
  current_dir s = (Ret (fst h - fst n, snd h - snd n), s).
Proof.
  intros E. unfold current_dir, bind, get, lift.
  replace (2 <=? length (body s))%nat with true
    by (symmetry; apply Nat.leb_le; rewrite E, length_app; simpl; lia).
  rewrite E.
  replace (l ++ [n; h]) with ((l ++ [n]) ++ [h]) at 1
    by (now rewrite <- app_assoc).
  rewrite item_neg_last, item_neg_neck. reflexivity.
Qed.

Lemma current_dir_total (s : Snake) :
  body s <> [] -> exists c, current_dir s = (Ret c, s).
Proof.
  intros H. destruct (snoc_cases _ H) as [front [h E]].
  destruct front as [|c front].
  - exists (dir s). apply current_dir_short. rewrite E. simpl. lia.
  - assert (Hf : c :: front <> []) by discriminate.
    destruct (snoc_cases _ Hf) as [l [n E']].
    exists (fst h - fst n, snd h - snd n).
    apply current_dir_long with (l := l).
    rewrite E, E', <- app_assoc. reflexivity.
Qed.

(** [Snake.update] in closed form, given the current direction and head. *)
Lemma Snake_update_run (s : Snake) (front : list Cell) (h cur : Cell) :
  body s = front ++ [h] ->
  current_dir s = (Ret cur, s) ->
  let d := committed s cur in
  let new_head := (fst h + fst d, snd h + snd d) in
  Snake_update s =
    (Ret tt,
     if 0 <? grow s
     then set_grow (grow s - 1) (set_body (body s ++ [new_head]) (set_dir d s))
     else set_body (tl (body s ++ [new_head]))
            (set_body (body s ++ [new_head]) (set_dir d s))).
Proof.
  intros E Hc d new_head. unfold Snake_update.
  rewrite (bind_ret _ Hc). unfold bind at 1. unfold get at 1.
  assert (Hd : (if keeps_current (pending_dir s) cur
                then modify (set_dir cur)
                else modify (set_dir (pending_dir s))) s
               = (Ret tt, set_dir d s)).
  { unfold d, committed. destruct (keeps_current _ _); reflexivity. }
  rewrite (bind_ret _ Hd).
  unfold bind, get, lift, modify. simpl.
  rewrite E, item_neg_last. simpl. fold new_head.
  destruct (0 <? grow s); reflexivity.
Qed.

Lemma cell_eqb_eq (p q : Cell) : cell_eqb p q = true <-> p = q.
Proof.
  unfold cell_eqb. destruct p as [a b], q as [c d]. simpl.
  rewrite andb_true_iff, !Z.eqb_eq. split.
  - intros [-> ->]. reflexivity.
  - intros E. inversion E. auto.
Qed.

Lemma cell_eqb_refl (p : Cell) : cell_eqb p p = true.
Proof. now apply cell_eqb_eq. Qed.

Lemma keeps_current_iff (p cur : Cell) :
  keeps_current p cur = true <-> p = neg_cell cur \/ p = (0, 0).
Proof.
  unfold keeps_current, neg_cell. rewrite orb_true_iff, cell_eqb_eq.
  rewrite andb_true_iff, !Z.eqb_eq. destruct p as [a b], cur as [c d]. simpl.
  split.
  - intros [[-> ->]|H]; auto.
  - intros [H|H]; auto. inversion H. auto.
Qed.

Lemma two_last_cells {A} (l : list A) :
  (2 <= length l)%nat -> exists front n h, l = front ++ [n; h].
Proof.
  intros H. assert (Hl : l <> []) by (destruct l; simpl in H; [lia|discriminate]).
  destruct (snoc_cases _ Hl) as [l1 [h E]]. subst l.
  assert (H1 : l1 <> []).
  { destruct l1; [simpl in H; lia | discriminate]. }
  destruct (snoc_cases _ H1) as [front [n E]]. subst l1.
  exists front, n, h. now rewrite <- app_assoc.
Qed.

(** C5. One call of [Snake.update] on a snake with a body returns, and puts
    exactly one new head cell, the old head plus the committed direction, at
    the end of the body.  If the growth counter was positive it goes down by
    one and the body is one cell longer; otherwise the cell at index 0 is
    removed and the length of the body is unchanged. *)
Theorem Snake_update_advance (s : Snake) :
  body s <> [] ->
  exists s' h,
    Snake_update s = (Ret tt, s') /\
    item_neg (body s) 1 = Ret h /\
    let new_head := (fst h + fst (dir s'), snd h + snd (dir s')) in
    item_neg (body s') 1 = Ret new_head /\
    (0 < grow s ->
       grow s' = grow s - 1 /\
       body s' = body s ++ [new_head] /\
       length (body s') = S (length (body s))) /\
    (grow s <= 0 ->
       grow s' = grow s /\
       body s' = tl (body s) ++ [new_head] /\
       length (body s') = length (body s)).
Proof.
  intros H.
  destruct (snoc_cases _ H) as [front [h E]].
  destruct (current_dir_total s H) as [cur Hc].
  pose proof (Snake_update_run s front h cur E Hc) as R. cbv zeta in R.
  destruct (0 <? grow s) eqn:G.
  - eexists. exists h. split; [exact R|]. simpl.
    split; [rewrite E; apply item_neg_last|].
    split; [apply item_neg_last|].
    apply Z.ltb_lt in G. split; [|lia].
    intros _. repeat split. rewrite length_app. simpl. lia.
  - eexists. exists h. split; [exact R|]. simpl.
    split; [rewrite E; apply item_neg_last|].
    apply Z.ltb_ge in G.
    assert (T : forall x, tl (body s ++ [x]) = tl (body s) ++ [x]).
    { intros x. rewrite E. destruct front; reflexivity. }
    rewrite T.
    split; [apply item_neg_last|].
    split; [lia|].
    intros _. repeat split. rewrite length_app, E. simpl.
    destruct front; simpl; rewrite ?length_app; simpl; lia.
Qed.

(** C6. For a snake whose body has at least two cells, [Snake.update]
    returns, and the direction it commits is not the negation of the current
    direction read off the last two cells (these being two distinct cells, so
    that the current direction is not the null vector); a pending direction
    equal to that negation, or to (0,0), leaves the current direction in
    force. *)
Theorem Snake_update_no_reversal (s : Snake) :
  (2 <= length (body s))%nat ->
  exists front neck head s',
    body s = front ++ [neck; head] /\
    Snake_update s = (Ret tt, s') /\
    let cur := (fst head - fst neck, snd head - snd neck) in
    (neck <> head -> dir s' <> neg_cell cur) /\
    (pending_dir s = neg_cell cur \/ pending_dir s = (0, 0) -> dir s' = cur).
Proof.
  intros H. destruct (two_last_cells _ H) as [front [n [h E]]].
  pose proof (current_dir_long s front n h E) as Hc.
  assert (E' : body s = (front ++ [n]) ++ [h]) by (now rewrite <- app_assoc).
  pose proof (Snake_update_run s _ h _ E' Hc) as R. cbv zeta in R.
  exists front, n, h. eexists. split; [exact E|]. split; [exact R|].
  set (cur := (fst h - fst n, snd h - snd n)) in *.
  assert (D : forall s0, dir (if 0 <? grow s
      then set_grow (grow s - 1) (set_body (body s ++ [s0]) (set_dir (committed s cur) s))
      else set_body (tl (body s ++ [s0]))
             (set_body (body s ++ [s0]) (set_dir (committed s cur) s)))
      = committed s cur).
  { intros s0. destruct (0 <? grow s); reflexivity. }
  cbv zeta. rewrite D. unfold committed. split.
  - intros Hne.
    assert (Hcur : cur <> neg_cell cur).
    { unfold cur, neg_cell. simpl. intros C. inversion C.
      apply Hne. destruct n, h. simpl in *. f_equal; lia. }
    destruct (keeps_current (pending_dir s) cur) eqn:K.
    + exact Hcur.
    + intros C. assert (K' : keeps_current (pending_dir s) cur = true)
        by (apply keeps_current_iff; now left).
      congruence.
  - intros K. apply keeps_current_iff in K. now rewrite K.
Qed.

(** The proviso of the last theorem holds throughout play: a fresh snake is
    in motion, and the advance step keeps a snake in motion. *)
Lemma moving_init (c : Color) (start_pos : Cell) (ctl : Controls) (n : Z) :
  moving (Snake_init c start_pos ctl n).
Proof.
  unfold moving, Snake_init, GRID_SIZE. simpl.
  split; [discriminate|]. split; [discriminate|].
  intros front neck head E.
  destruct front as [|x [|y front]]; discriminate.
Qed.

Lemma moving_update (s s' : Snake) :
  body s <> [] -> moving s -> Snake_update s = (Ret tt, s') -> moving s'.
Proof.
  intros Hb [Hd [Hp Hl]] R.
  destruct (snoc_cases _ Hb) as [front [h E]].
  destruct (current_dir_total s Hb) as [cur Hc].
  assert (Hcur : cur <> (0, 0)).
  { destruct front as [|c front].
    - rewrite current_dir_short in Hc by (rewrite E; simpl; lia).
      inversion Hc. subst cur. exact Hd.
    - assert (Hf : c :: front <> []) by discriminate.
      destruct (snoc_cases _ Hf) as [l [n E']].
      assert (E2 : body s = l ++ [n; h])
        by (rewrite E, E', <- app_assoc; reflexivity).
      rewrite (current_dir_long s l n h E2) in Hc. inversion Hc.
      intros C. inversion C. apply (Hl l n h E2).
      destruct n, h. simpl in *. f_equal; lia. }
  assert (Hcm : committed s cur <> (0, 0)).
  { unfold committed. now destruct (keeps_current (pending_dir s) cur). }
  pose proof (Snake_update_run s front h cur E Hc) as R'. cbv zeta in R'.
  rewrite R in R'. inversion R' as [R'']. clear R R'.
  set (nh := (fst h + fst (committed s cur), snd h + snd (committed s cur))) in *.
  assert (Hnh : h <> nh).
  { intros C. apply Hcm. unfold nh in C. destruct h as [hx hy].
    destruct (committed s cur) as [dx dy]. simpl in C. inversion C.
    f_equal; lia. }
  assert (Last : forall b front0 neck head,
            tl (b ++ [h; nh]) = front0 ++ [neck; head] \/
            b ++ [h; nh] = front0 ++ [neck; head] -> neck <> head).
  { intros b front0 neck head [T|T].
    - destruct b as [|x b]; simpl in T.
      + destruct front0 as [|y [|z front0]]; discriminate.
      + replace (b ++ [h; nh]) with ((b ++ [h]) ++ [nh]) in T
          by (now rewrite <- app_assoc).
        replace (front0 ++ [neck; head]) with ((front0 ++ [neck]) ++ [head]) in T
          by (now rewrite <- app_assoc).
        apply app_inj_tail in T. destruct T as [T1 T2].
        apply app_inj_tail in T1. destruct T1 as [_ T1]. congruence.
    - replace (b ++ [h; nh]) with ((b ++ [h]) ++ [nh]) in T
        by (now rewrite <- app_assoc).
      replace (front0 ++ [neck; head]) with ((front0 ++ [neck]) ++ [head]) in T
        by (now rewrite <- app_assoc).
      apply app_inj_tail in T. destruct T as [T1 T2].
      apply app_inj_tail in T1. destruct T1 as [_ T1]. congruence. }
  assert (Eb : body s ++ [nh] = front ++ [h; nh])
    by (rewrite E, <- app_assoc; reflexivity).
  destruct (0 <? grow s); subst s'; simpl; rewrite Eb;
    (split; [exact Hcm|]); (split; [exact Hp|]);
    intros front0 neck head T.
  - apply (Last front front0 neck head). now right.
  - apply (Last front front0 neck head). now left.
Qed.

(** ** Snakes inside the session *)

Lemma on_snake_run {A} (who : Player) (c : M Snake A) (g : SnakeGame)
    (s s' : Snake) (r : Py A) :
  get_snake who g = Some s -> c s = (r, s') ->
  on_snake who c g = (r, put_snake who s' g).
Proof. intros Hs Hc. unfold on_snake. now rewrite Hs, Hc. Qed.

Lemma put_get_snake (who : Player) (s : Snake) (g : SnakeGame) :
  get_snake who g = Some s -> put_snake who s g = g.
Proof.
  destruct g, who; simpl; intros E; inversion E; reflexivity.
Qed.

(** ** The food effect table *)

(** [apply_food_effect] in closed form, kind by kind. *)
Lemma apply_food_effect_run (ticks : Z) (who : Player) (food : Food)
    (g : SnakeGame) (s : Snake) :
  get_snake who g = Some s ->
  (kind food = "normal" ->
     apply_food_effect ticks who food g =
       (Ret tt, put_snake who (set_score (score s + 1) (set_grow (grow s + 1) s)) g))
  /\ (kind food = "bonus" ->
     apply_food_effect ticks who food g =
       (Ret tt, put_snake who (set_score (score s + 5) (set_grow (grow s + 2) s)) g))
  /\ (kind food = "speed_up" ->
     apply_food_effect ticks who food g =
       (Ret tt,
        set_special_effects (dict_set "speed_up" ticks (special_effects g))
          (put_snake who
             (set_speed_effect (speed_effect s + 2) (set_score (score s + 2) s)) g)))
  /\ (kind food = "speed_down" ->
     apply_food_effect ticks who food g =
       (Ret tt,
        set_special_effects (dict_set "speed_down" ticks (special_effects g))
          (put_snake who
             (set_speed_effect (speed_effect s - 2) (set_score (score s + 2) s)) g)))
  /\ (kind food = "shrink" ->
     apply_food_effect ticks who food g =
       (Ret tt,
        put_snake who
          (if (3 <? length (body s))%nat
           then set_grow 0
                  (set_body (skipn (length (body s) / 2 - 1)%nat (body s))
                     (set_score (score s + 3) s))
           else set_score (score s + 3) s) g)).
Proof.
  intros Hs. unfold apply_food_effect.
  repeat split; intros K; rewrite K; simpl.
  - apply on_snake_run with (s := s); [exact Hs | reflexivity].
  - apply on_snake_run with (s := s); [exact Hs | reflexivity].
  - unfold bind.
    rewrite (on_snake_run who _ g s
               (set_speed_effect (speed_effect s + 2) (set_score (score s + 2) s))
               (Ret tt) Hs eq_refl).
    destruct who; reflexivity.
  - unfold bind.
    rewrite (on_snake_run who _ g s
               (set_speed_effect (speed_effect s - 2) (set_score (score s + 2) s))
               (Ret tt) Hs eq_refl).
    destruct who; reflexivity.
  - apply on_snake_run with (s := s); [exact Hs|].
    unfold shrink, bind, add_score, modify, get, ret. simpl.
    destruct (3 <? length (body s))%nat; reflexivity.
Qed.

(** C7. Applying a food effect to a snake of the session returns, and the
    session afterwards is the session before with exactly these changes to
    the eating snake [s]: normal, growth +1 and score +1; bonus, growth +2
    and score +5; speed_up, score +2, speed modifier +2 and the speed_up
    timer set to the current clock reading; speed_down, score +2, speed
    modifier -2 and the speed_down timer set; shrink, score +3 and, when the
    body has more than 3 cells, the cells at indices 0 up to but not
    including [length/2 - 1] dropped and the growth counter set to 0. *)
Theorem apply_food_effect_table (ticks : Z) (who : Player) (food : Food)
    (g : SnakeGame) (s : Snake) :
  get_snake who g = Some s ->
  (kind food = "normal" ->
     apply_food_effect ticks who food g =
       (Ret tt, put_snake who (set_score (score s + 1) (set_grow (grow s + 1) s)) g))
  /\ (kind food = "bonus" ->
     apply_food_effect ticks who food g =
       (Ret tt, put_snake who (set_score (score s + 5) (set_grow (grow s + 2) s)) g))
  /\ (kind food = "speed_up" ->
     apply_food_effect ticks who food g =
       (Ret tt,
        set_special_effects (dict_set "speed_up" ticks (special_effects g))
          (put_snake who
             (set_speed_effect (speed_effect s + 2) (set_score (score s + 2) s)) g)))
  /\ (kind food = "speed_down" ->
     apply_food_effect ticks who food g =
       (Ret tt,
        set_special_effects (dict_set "speed_down" ticks (special_effects g))
          (put_snake who
             (set_speed_effect (speed_effect s - 2) (set_score (score s + 2) s)) g)))
  /\ (kind food = "shrink" ->
     apply_food_effect ticks who food g =
       (Ret tt,
        put_snake who
          (if (3 <? length (body s))%nat
           then set_grow 0
                  (set_body (skipn (length (body s) / 2 - 1)%nat (body s))
                     (set_score (score s + 3) s))
           else set_score (score s + 3) s) g)).
Proof. exact (apply_food_effect_run ticks who food g s). Qed.

(** ** The collision loop *)

Local Arguments item_neg : simpl never.

Lemma head_of_run (who : Player) (g : SnakeGame) (s : Snake) (h : Cell) :
  get_snake who g = Some s -> item_neg (body s) 1 = Ret h ->
  head_of who g = (Ret h, g).
Proof.
  intros Hs Hh. unfold head_of.
  rewrite (on_snake_run who _ g s s (Ret h) Hs).
  - now rewrite put_get_snake.
  - unfold bind, get, lift. now rewrite Hh.
Qed.

Lemma collide_run (g : SnakeGame) (who : Player) (s : Snake) (h : Cell) :
  get_snake who g = Some s -> item_neg (body s) 1 = Ret h ->
  collide (snakes g) who g = (Ret tt, mark who (dies g who h) g).
Proof.
  intros Hs Hh. unfold collide.
  rewrite (bind_ret _ (head_of_run who g s h Hs Hh)).
  unfold mark, dies. rewrite Hs.
  destruct g as [th bs oc tp s1 s2 hs obs fs rn pa lu ui se].
  destruct who, s2 as [o|]; simpl in Hs; inversion Hs; subst; simpl;
    unfold bind, when, kill, on_snake, get, ret, modify; simpl;
    destruct (out_of_bounds h); simpl;
    destruct (cell_in h obs); simpl;
    destruct (cell_in h (all_but_last (body s))); simpl;
    try destruct (cell_in h (body o)); simpl;
    try destruct (cell_in h (body s1)); simpl;
    reflexivity.
Qed.

Lemma set_alive_same (s : Snake) : set_alive (alive s) s = s.
Proof. now destruct s. Qed.

Lemma item_neg_in (l : list Cell) (h : Cell) :
  item_neg l 1 = Ret h -> cell_in h l = true.
Proof.
  intros H. destruct l as [|c l]; [discriminate|].
  assert (Hl : c :: l <> []) by discriminate.
  destruct (snoc_cases _ Hl) as [front [x E]]. rewrite E in *.
  rewrite item_neg_last in H. inversion H. subst x.
  unfold cell_in. rewrite existsb_app. simpl.
  now rewrite cell_eqb_refl, orb_true_r.
Qed.

Lemma item_neg_nonempty {A} (l : list A) :
  l <> [] -> exists h, item_neg l 1 = Ret h.
Proof.
  intros H. destruct (snoc_cases _ H) as [front [x E]]. subst l.
  exists x. apply item_neg_last.
Qed.

Lemma snakes_mark (who : Player) (b : bool) (g : SnakeGame) :
  snakes (mark who b g) = snakes g.
Proof.
  unfold mark. destruct g as [th bs oc tp s1 s2 hs obs fs rn pa lu ui se].
  destruct who, s2, b; reflexivity.
Qed.

Lemma dies_mark (p who : Player) (b : bool) (g : SnakeGame) (h : Cell) :
  dies (mark p b g) who h = dies g who h.
Proof.
  unfold mark, dies. destruct g as [th bs oc tp s1 s2 hs obs fs rn pa lu ui se].
  destruct p, who, s2, b; reflexivity.
Qed.

Lemma get_snake_mark (p who : Player) (b : bool) (g : SnakeGame) (s : Snake) :
  get_snake who g = Some s ->
  get_snake who (mark p b g) =
    Some (if player_eqb p who then set_alive (alive s && negb b) s else s).
Proof.
  unfold mark. destruct g as [th bs oc tp s1 s2 hs obs fs rn pa lu ui se].
  destruct p, who, s2, b; simpl; intros E; inversion E; subst;
    rewrite ?andb_false_r, ?andb_true_r, ?set_alive_same; reflexivity.
Qed.

(** The first loop of [check_collisions] in closed form. *)
Lemma collision_loop_run (g : SnakeGame) (h1 : Cell) :
  item_neg (body (snake1 g)) 1 = Ret h1 ->
  (forall s2, snake2 g = Some s2 -> body s2 <> []) ->
  exists g',
    collision_loop g = (Ret tt, g') /\
    snakes g' = snakes g /\
    forall who s h,
      get_snake who g = Some s -> item_neg (body s) 1 = Ret h ->
      get_snake who g' = Some (set_alive (alive s && negb (dies g who h)) s).
Proof.
  intros H1 H2.
  assert (L : collision_loop g = for_each (snakes g) (collide (snakes g)) g)
    by reflexivity.
  pose proof (collide_run g P1 (snake1 g) h1 eq_refl H1) as C1.
  destruct (snake2 g) as [s2|] eqn:E2.
  - destruct (item_neg_nonempty _ (H2 s2 eq_refl)) as [h2 Hh2].
    set (g1 := mark P1 (dies g P1 h1) g) in *.
    assert (G2 : get_snake P2 g1 = Some s2).
    { unfold g1. rewrite (get_snake_mark P1 P2 _ g s2 E2). reflexivity. }
    pose proof (collide_run g1 P2 s2 h2 G2 Hh2) as C2.
    unfold g1 in C2 at 1. rewrite snakes_mark in C2.
    exists (mark P2 (dies g1 P2 h2) g1). split; [|split].
    + rewrite L. unfold snakes at 1. rewrite E2. simpl.
      rewrite (bind_ret _ C1). fold g1. rewrite (bind_ret _ C2). reflexivity.
    + unfold g1. now rewrite !snakes_mark.
    + intros who s h Hs Hh.
      assert (G1 : get_snake who g1 =
                   Some (if player_eqb P1 who
                         then set_alive (alive s && negb (dies g P1 h1)) s else s))
        by (apply get_snake_mark; exact Hs).
      rewrite (get_snake_mark P2 who _ g1 _ G1).
      unfold g1. rewrite dies_mark.
      destruct who; simpl in *.
      * inversion Hs. subst s. rewrite H1 in Hh. inversion Hh. reflexivity.
      * rewrite E2 in Hs. inversion Hs. subst s. rewrite Hh2 in Hh.
        inversion Hh. reflexivity.
  - exists (mark P1 (dies g P1 h1) g). split; [|split].
    + rewrite L. unfold snakes at 1. rewrite E2. simpl.
      rewrite (bind_ret _ C1). reflexivity.
    + apply snakes_mark.
    + intros who s h Hs Hh.
      rewrite (get_snake_mark P1 who _ g s Hs).
      destruct who; simpl in *.
      * inversion Hs. subst s. rewrite H1 in Hh. inversion Hh. reflexivity.
      * rewrite E2 in Hs. discriminate.
Qed.

(** [collision_loop] is the first phase of [check_collisions]. *)
Lemma check_collisions_first_loop (spawn_foods handle_game_over : M SnakeGame unit)
    (ticks : Z) (g : SnakeGame) :
  check_collisions spawn_foods handle_game_over ticks g =
    (collision_loop ;;;
     for_each (snakes g) (eat_foods spawn_foods ticks) ;;;
     g' <- get ;;
     when (all_dead g') handle_game_over) g.
Proof. reflexivity. Qed.

(** C4 (amended). When every snake has a body, the first loop of
    [check_collisions] returns, and it leaves each snake as it was except
    for the [alive] flag, which is cleared exactly when the snake's head is
    outside [0,1240) x [0,600), or on an obstacle, or on the snake's own body
    apart from the head, or on the body, head included, of the other snake,
    whether that snake is alive or not; a flag that was already cleared stays
    cleared.  In particular two snakes whose heads are on one cell both end
    with the flag cleared. *)
Theorem collision_loop_deaths (g : SnakeGame) :
  (forall who s, get_snake who g = Some s -> body s <> []) ->
  exists g',
    collision_loop g = (Ret tt, g') /\
    (forall who s h,
       get_snake who g = Some s -> item_neg (body s) 1 = Ret h ->
       get_snake who g' = Some (set_alive (alive s && negb (dies g who h)) s)) /\
    (forall s2 h,
       snake2 g = Some s2 ->
       item_neg (body (snake1 g)) 1 = Ret h -> item_neg (body s2) 1 = Ret h ->
       alive (snake1 g') = false /\
       exists s2', snake2 g' = Some s2' /\ alive s2' = false).
Proof.
  intros Hb.
  destruct (item_neg_nonempty _ (Hb P1 (snake1 g) eq_refl)) as [h1 H1].
  destruct (collision_loop_run g h1 H1 (fun s2 E => Hb P2 s2 E))
    as [g' [R [_ F]]].
  exists g'. split; [exact R|]. split; [exact F|].
  intros s2 h E2 Hh1 Hh2.
  pose proof (F P1 (snake1 g) h eq_refl Hh1) as F1.
  pose proof (F P2 s2 h E2 Hh2) as F2.
  simpl in F1, F2.
  assert (D1 : dies g P1 h = true).
  { unfold dies. simpl. rewrite E2, (item_neg_in _ _ Hh2).
    now rewrite !orb_true_r. }
  assert (D2 : dies g P2 h = true).
  { unfold dies. simpl. rewrite (item_neg_in _ _ Hh1).
    now rewrite !orb_true_r. }
  rewrite D1 in F1. rewrite D2 in F2. rewrite andb_false_r in F1, F2.
  inversion F1 as [F1']. split; [now rewrite F1'|].
  eexists. split; [exact F2|reflexivity].
Qed.

(** C4, as stated, fails.  A living snake whose head enters a cell of a snake
    that is already dead has its [alive] flag cleared, though its head is on
    the board, on no obstacle, not on its own body and on the body of no
    living snake. *)
Lemma collision_with_dead_snake :
  exists g',
    collision_loop runner_meets_corpse = (Ret tt, g') /\
    item_neg (body (snake1 runner_meets_corpse)) 1 = Ret (100, 100) /\
    alive (snake1 runner_meets_corpse) = true /\
    dies_living_only runner_meets_corpse P1 (100, 100) = false /\
    alive (snake1 g') = false.
Proof. eexists. vm_compute. repeat split. Qed.

(** ** The tick gate *)

Lemma FLOAT_LIMIT_large : 1000 < FLOAT_LIMIT.
Proof. reflexivity. Qed.

(** [compute_interval] in terms of its divisor. *)
Lemma compute_interval_run (g : SnakeGame) :
  let divisor :=
    Z.max 5 (base_speed g + (speed_effect (snake1 g) +
      match snake2 g with Some s2 => speed_effect s2 | None => 0 end)) in
  compute_interval g =
    if float_overflows divisor then Raise OverflowError
    else Ret (1000 / divisor).
Proof.
  intros divisor. unfold compute_interval.
  replace (Z.max 5 (base_speed g +
             match snake2 g with
             | Some s2 => 0 + speed_effect (snake1 g) + speed_effect s2
             | None => 0 + speed_effect (snake1 g)
             end)) with divisor; [reflexivity|].
  unfold divisor. destruct (snake2 g); f_equal; lia.
Qed.

Section TickGate.

Variable spawn_foods : M SnakeGame unit.
Variable handle_game_over : M SnakeGame unit.

(** C9 (amended). The divisor max(5, base tick rate + the speed modifiers
    of the snakes present) is at least 5.  While it is below
    [2^1024 - 2^970], so that [float] can hold it, the update interval is
    the integer quotient of 1000 by it and lies between 0 and 200 ms; from
    there on [compute_interval] raises [OverflowError], and so does the
    [update] of a session that is not paused.  The gate compares
    [now - last_update] with the interval computed from the session as it
    is at that check: a paused session only has its tick clock set to
    [now], with no tick and no expiry loop; while the session is not paused
    and the difference is below the interval, [update] runs no tick, only
    the expiry loop; when the difference reaches the interval it runs the
    tick first. *)
Theorem tick_interval (g : SnakeGame) :
  let divisor :=
    Z.max 5 (base_speed g + (speed_effect (snake1 g) +
      match snake2 g with Some s2 => speed_effect s2 | None => 0 end)) in
  5 <= divisor /\
  (divisor < FLOAT_LIMIT ->
     compute_interval g = Ret (1000 / divisor) /\
     0 <= 1000 / divisor <= 200 /\
     (forall now ticks,
        paused g = false -> now - last_update g < 1000 / divisor ->
        update spawn_foods handle_game_over now ticks g =
          expire_effects now g) /\
     (forall now ticks,
        paused g = false -> 1000 / divisor <= now - last_update g ->
        update spawn_foods handle_game_over now ticks g =
          (tick spawn_foods handle_game_over now ticks ;;;
           expire_effects now) g)) /\
  (FLOAT_LIMIT <= divisor ->
     compute_interval g = Raise OverflowError /\
     forall now ticks,
       paused g = false ->
       update spawn_foods handle_game_over now ticks g
         = (Raise OverflowError, g)) /\
  (forall now ticks,
     paused g = true ->
     update spawn_foods handle_game_over now ticks g
       = (Ret tt, set_last_update now g)).
Proof.
  intros divisor.
  pose proof (compute_interval_run g) as E. cbv zeta in E. fold divisor in E.
  assert (D : 5 <= divisor) by (unfold divisor; lia).
  split; [exact D|]. split; [|split].
  - intros L.
    assert (F : float_overflows divisor = false)
      by (unfold float_overflows; apply Z.leb_gt; exact L).
    rewrite F in E. split; [exact E|]. split.
    { split; [apply Z.div_pos; lia | apply Z.div_le_upper_bound; lia]. }
    split; intros now ticks P G; unfold update, bind at 1, get at 1;
      rewrite P; unfold bind at 1, lift at 1; rewrite E;
      unfold tick_due, when.
    + replace (1000 / divisor <=? now - last_update g) with false
        by (symmetry; apply Z.leb_gt; exact G).
      reflexivity.
    + replace (1000 / divisor <=? now - last_update g) with true
        by (symmetry; apply Z.leb_le; exact G).
      reflexivity.
  - intros L.
    assert (F : float_overflows divisor = true)
      by (unfold float_overflows; apply Z.leb_le; exact L).
    rewrite F in E. split; [exact E|].
    intros now ticks P. unfold update, bind at 1, get at 1. rewrite P.
    unfold bind, lift. now rewrite E.
  - intros now ticks P. unfold update, bind, get. now rewrite P.
Qed.

End TickGate.

(** C9, as stated, fails for some session states.  A record whose snake has
    a speed modifier of [2^1024] is loaded without an error; in the session
    it leaves, which is not paused, no interval is computed:
    [compute_interval] raises [OverflowError] at [float(speed)], and so does
    the frame update. *)
Lemma compute_interval_overflow :
  exists g',
    load_game (Holds (record_json overdriven_record)) 0 solo = (Ret tt, g') /\
    paused g' = false /\
    compute_interval g' = Raise OverflowError /\
    update (ret tt) (ret tt) 100 100 g' = (Raise OverflowError, g').
Proof.
  eexists. split; [vm_compute; reflexivity|].
  split; [reflexivity|]. split; reflexivity.
Qed.

(** ** Dictionaries *)

Lemma dict_get_del_other {V} (k k' : string) (d : Dict V) :
  k <> k' -> dict_get k (dict_del k' d) = dict_get k d.
Proof.
  intros N. induction d as [|[k0 v] d IH]; simpl; [reflexivity|].
  destruct (String.eqb k' k0) eqn:E; simpl.
  - apply String.eqb_eq in E. subst k0.
    destruct (String.eqb k k') eqn:E'; [apply String.eqb_eq in E'; contradiction|].
    exact IH.
  - destruct (String.eqb k k0); [reflexivity|exact IH].
Qed.

Lemma dict_get_del_same {V} (k : string) (d : Dict V) :
  dict_get k (dict_del k d) = None.
Proof.
  induction d as [|[k0 v] d IH]; simpl; [reflexivity|].
  destruct (String.eqb k k0) eqn:E; simpl; [exact IH|].
  now rewrite E.
Qed.

Lemma dict_get_del_none {V} (k k' : string) (d : Dict V) :
  dict_get k d = None -> dict_get k (dict_del k' d) = None.
Proof.
  intros H. destruct (String.eqb k k') eqn:E.
  - apply String.eqb_eq in E. subst. apply dict_get_del_same.
  - rewrite dict_get_del_other; [exact H|].
    intros C. subst. now rewrite String.eqb_refl in E.
Qed.

Lemma existsb_eqb_false (k : string) (ks : list string) :
  existsb (String.eqb k) ks = false -> forall k', In k' ks -> k <> k'.
Proof.
  intros H k' I C. subst k'.
  assert (T : existsb (String.eqb k) ks = true).
  { apply existsb_exists. exists k. split; [exact I|apply String.eqb_refl]. }
  congruence.
Qed.

Lemma dict_get_in {V} (d : Dict V) (k : string) (v : V) :
  is_dict d -> In (k, v) d -> dict_get k d = Some v.
Proof.
  unfold is_dict, dict_keys.
  induction d as [|[k0 v0] d IH]; simpl; intros D I; [contradiction|].
  apply andb_true_iff in D. destruct D as [D1 D2].
  apply negb_true_iff in D1.
  destruct I as [I|I].
  - inversion I. subst. now rewrite String.eqb_refl.
  - destruct (String.eqb k k0) eqn:E.
    + apply String.eqb_eq in E. subst k0.
      exfalso. apply (existsb_eqb_false _ _ D1 k); [|reflexivity].
      apply in_map_iff. exists (k, v). split; [reflexivity|exact I].
    + now apply IH.
Qed.

Lemma dict_get_none_keys {V} (d : Dict V) (k : string) :
  dict_get k d = None -> forall k', In k' (dict_keys d) -> k' <> k.
Proof.
  induction d as [|[k0 v0] d IH]; simpl; intros H k' I; [contradiction|].
  destruct (String.eqb k k0) eqn:E; [discriminate|].
  destruct I as [I|I].
  - subst k'. intros C. subst. now rewrite String.eqb_refl in E.
  - now apply IH.
Qed.

Lemma dict_del_keys {V} (k : string) (d : Dict V) (k' : string) :
  In k' (dict_keys (dict_del k d)) -> In k' (dict_keys d).
Proof.
  unfold dict_keys, dict_del. intros I. apply in_map_iff in I.
  destruct I as [e [E I]]. apply filter_In in I. destruct I as [I _].
  apply in_map_iff. now exists e.
Qed.

Lemma is_dict_del {V} (k : string) (d : Dict V) :
  is_dict d -> is_dict (dict_del k d).
Proof.
  unfold is_dict. induction d as [|[k0 v0] d IH]; simpl; intros D; [reflexivity|].
  apply andb_true_iff in D. destruct D as [D1 D2].
  destruct (String.eqb k k0) eqn:E; simpl; [now apply IH|].
  rewrite (IH D2), andb_true_r. apply negb_true_iff in D1.
  apply negb_true_iff.
  destruct (existsb (String.eqb k0) (dict_keys (dict_del k d))) eqn:X; [|reflexivity].
  apply existsb_exists in X. destruct X as [k1 [I1 E1]].
  apply String.eqb_eq in E1. subst k1.
  exfalso. apply (existsb_eqb_false _ _ D1 k0); [|reflexivity].
  now apply dict_del_keys in I1.
Qed.

Lemma dict_get_set_same {V} (k : string) (v : V) (d : Dict V) :
  dict_get k (dict_set k v d) = Some v.
Proof.
  induction d as [|[k0 v0] d IH]; simpl.
  - now rewrite String.eqb_refl.
  - destruct (String.eqb k k0) eqn:E; simpl; rewrite E; [reflexivity|exact IH].
Qed.

Lemma dict_get_set_other {V} (k k' : string) (v : V) (d : Dict V) :
  k <> k' -> dict_get k (dict_set k' v d) = dict_get k d.
Proof.
  intros N. induction d as [|[k0 v0] d IH]; simpl.
  - destruct (String.eqb k k') eqn:E; [apply String.eqb_eq in E; contradiction|].
    reflexivity.
  - destruct (String.eqb k' k0) eqn:E; simpl.
    + apply String.eqb_eq in E. subst k0.
      destruct (String.eqb k k') eqn:E'; [|reflexivity].
      apply String.eqb_eq in E'. contradiction.
    + destruct (String.eqb k k0); [reflexivity|exact IH].
Qed.


Lemma dict_set_keys {V} (k : string) (v : V) (d : Dict V) (k' : string) :
  In k' (dict_keys (dict_set k v d)) -> k' = k \/ In k' (dict_keys d).
Proof.
  induction d as [|[k0 v0] d IH]; cbn [dict_set dict_keys map fst In].
  - intros [H|[]]. now left.
  - destruct (String.eqb k k0); cbn [map fst In].
    + intros H. now right.
    + intros [H|H]; [right; now left|].
      destruct (IH H) as [H'|H']; [now left|right; now right].
Qed.

Lemma is_dict_set {V} (k : string) (v : V) (d : Dict V) :
  is_dict d -> is_dict (dict_set k v d).
Proof.
  unfold is_dict.
  induction d as [|[k0 v0] d IH]; intros D; [reflexivity|].
  cbn [dict_keys map fst distinct_keys] in D.
  apply andb_true_iff in D. destruct D as [D1 D2]. apply negb_true_iff in D1.
  cbn [dict_set]. destruct (String.eqb k k0) eqn:E.
  - cbn [dict_keys map fst distinct_keys]. fold (dict_keys d).
    unfold dict_keys in *. now rewrite D1, D2.
  - cbn [dict_keys map fst distinct_keys]. fold (dict_keys (dict_set k v d)).
    rewrite (IH D2), andb_true_r. apply negb_true_iff.
    destruct (existsb (String.eqb k0) (dict_keys (dict_set k v d))) eqn:X;
      [|reflexivity].
    apply existsb_exists in X. destruct X as [k1 [I1 E1]].
    apply String.eqb_eq in E1. subst k1. exfalso.
    destruct (dict_set_keys _ _ _ _ I1) as [H|H].
    + subst k0. now rewrite String.eqb_refl in E.
    + now apply (existsb_eqb_false _ _ D1 k0).
Qed.

(** ** The expiry loop *)

Lemma reverse_effect_run (key : string) (g : SnakeGame) :
  reverse_effect key g = (Ret tt, reversed key g).
Proof.
  unfold reverse_effect, reversed, shift_speed.
  destruct g as [th bs oc tp s1 s2 hs obs fs rn pa lu ui se].
  destruct (String.eqb key "speed_up"); [destruct s2; reflexivity|].
  destruct (String.eqb key "speed_down"); [destruct s2; reflexivity|].
  reflexivity.
Qed.

Lemma special_effects_reversed (key : string) (g : SnakeGame) :
  special_effects (reversed key g) = special_effects g.
Proof.
  unfold reversed, shift_speed.
  destruct (String.eqb key "speed_up"); [destruct (snake2 g); reflexivity|].
  destruct (String.eqb key "speed_down"); [destruct (snake2 g); reflexivity|].
  reflexivity.
Qed.

Lemma special_effects_expire_entry (now : Z) (e : string * Z) (g : SnakeGame) :
  special_effects (expire_entry now e g) =
    if expired now e then dict_del (fst e) (special_effects g)
    else special_effects g.
Proof.
  unfold expire_entry, expired.
  destruct (SPECIAL_EFFECT_DURATION <=? now - snd e); [|reflexivity].
  simpl. now rewrite special_effects_reversed.
Qed.

Lemma expire_key_run (now : Z) (k : string) (t : Z) (g : SnakeGame) :
  dict_get k (special_effects g) = Some t ->
  expire_key now k g = (Ret tt, expire_entry now (k, t) g).
Proof.
  intros H. unfold expire_key, expire_entry, bind, get, lift, dict_item.
  rewrite H. simpl.
  destruct (SPECIAL_EFFECT_DURATION <=? now - t); [|reflexivity].
  now rewrite reverse_effect_run.
Qed.

Lemma expire_loop_run (now : Z) (entries : Dict Z) :
  is_dict entries ->
  forall g,
    (forall k t, In (k, t) entries -> dict_get k (special_effects g) = Some t) ->
    for_each (dict_keys entries) (expire_key now) g =
      (Ret tt, expire_all now entries g).
Proof.
  unfold is_dict, dict_keys, expire_all.
  induction entries as [|[k t] rest IH]; simpl; intros D g H; [reflexivity|].
  apply andb_true_iff in D. destruct D as [D1 D2].
  apply negb_true_iff in D1.
  rewrite (bind_ret _ (expire_key_run now k t g (H k t (or_introl eq_refl)))).
  apply IH; [exact D2|].
  intros k' t' I. rewrite special_effects_expire_entry. simpl.
  assert (N : k' <> k).
  { intros C. subst k'. apply (existsb_eqb_false _ _ D1 k); [|reflexivity].
    apply in_map_iff. exists (k, t'). split; [reflexivity|exact I]. }
  destruct (expired now (k, t)).
  - rewrite dict_get_del_other by exact N. apply H. now right.
  - apply H. now right.
Qed.

(** The expiry loop returns on every session whose effect map is a dict. *)
Lemma expire_effects_run (now : Z) (g : SnakeGame) :
  is_dict (special_effects g) ->
  expire_effects now g = (Ret tt, expire_all now (special_effects g) g).
Proof.
  intros D. unfold expire_effects, bind, get.
  apply expire_loop_run; [exact D|].
  intros k t I. now apply dict_get_in.
Qed.

Lemma set_speed_effect_zero (s : Snake) :
  set_speed_effect (speed_effect s + 0) s = s.
Proof. destruct s. unfold set_speed_effect. simpl. now rewrite Z.add_0_r. Qed.

Lemma snakes_reversed (key : string) (g : SnakeGame) :
  snake1 (reversed key g) =
    set_speed_effect (speed_effect (snake1 g) + reversal_delta key) (snake1 g)
  /\ snake2 (reversed key g) =
    option_map (fun s => set_speed_effect (speed_effect s + reversal_delta key) s)
      (snake2 g).
Proof.
  unfold reversed, reversal_delta, shift_speed.
  destruct g as [th bs oc tp s1 s2 hs obs fs rn pa lu ui se]. simpl.
  destruct (String.eqb key "speed_up"); [destruct s2; split; reflexivity|].
  destruct (String.eqb key "speed_down"); [destruct s2; split; reflexivity|].
  rewrite set_speed_effect_zero. split; [reflexivity|].
  destruct s2; simpl; [|reflexivity].
  now rewrite set_speed_effect_zero.
Qed.

(** The snakes after the loop: only the speed modifier has moved, by the sum
    of the deltas of the expired entries. *)
Lemma snakes_expire_all (now : Z) (entries : Dict Z) :
  forall g,
    snake1 (expire_all now entries g) =
      set_speed_effect (speed_effect (snake1 g) + total_reversal now entries)
        (snake1 g)
    /\ snake2 (expire_all now entries g) =
      option_map
        (fun s => set_speed_effect (speed_effect s + total_reversal now entries) s)
        (snake2 g).
Proof.
  unfold expire_all.
  induction entries as [|e rest IH]; simpl; intros g.
  - rewrite set_speed_effect_zero. split; [reflexivity|].
    destruct (snake2 g); simpl; [|reflexivity]. now rewrite set_speed_effect_zero.
  - destruct (IH (expire_entry now e g)) as [I1 I2]. rewrite I1, I2. clear IH I1 I2.
    unfold expire_entry, expired.
    destruct (SPECIAL_EFFECT_DURATION <=? now - snd e); simpl.
    + destruct (snakes_reversed (fst e) g) as [R1 R2]. rewrite R1, R2.
      split.
      * unfold set_speed_effect. simpl. f_equal. lia.
      * destruct (snake2 g); simpl; [|reflexivity].
        unfold set_speed_effect. simpl. do 2 f_equal. lia.
    + split; reflexivity.
Qed.

Lemma special_effects_expire_all_none (now : Z) (entries : Dict Z) (k : string) :
  forall g,
    dict_get k (special_effects g) = None ->
    dict_get k (special_effects (expire_all now entries g)) = None.
Proof.
  unfold expire_all. induction entries as [|e rest IH]; simpl; intros g H.
  - exact H.
  - apply IH. rewrite special_effects_expire_entry.
    destruct (expired now e); [now apply dict_get_del_none|exact H].
Qed.

Lemma special_effects_expire_all_gone (now : Z) (entries : Dict Z)
    (k : string) (t : Z) :
  In (k, t) entries -> expired now (k, t) = true ->
  forall g, dict_get k (special_effects (expire_all now entries g)) = None.
Proof.
  unfold expire_all. induction entries as [|e rest IH]; simpl; intros I X g.
  - contradiction.
  - destruct I as [I|I].
    + subst e. apply (special_effects_expire_all_none now rest k).
      rewrite special_effects_expire_entry, X. apply dict_get_del_same.
    + now apply IH.
Qed.

Lemma is_dict_expire_all (now : Z) (entries : Dict Z) :
  forall g, is_dict (special_effects g) ->
            is_dict (special_effects (expire_all now entries g)).
Proof.
  unfold expire_all. induction entries as [|e rest IH]; simpl; intros g D.
  - exact D.
  - apply IH. rewrite special_effects_expire_entry.
    destruct (expired now e); [now apply is_dict_del|exact D].
Qed.

(** No speed entry, no reversal. *)
Lemma total_reversal_neutral (now : Z) (entries : Dict Z) :
  dict_get "speed_up" entries = None ->
  dict_get "speed_down" entries = None ->
  total_reversal now entries = 0.
Proof.
  induction entries as [|[k t] rest IH]; intros U D; [reflexivity|].
  cbn [dict_get] in U, D. cbn [total_reversal fst]. unfold reversal_delta.
  rewrite String.eqb_sym in U. rewrite String.eqb_sym in D.
  destruct (String.eqb k "speed_up"); [discriminate|].
  destruct (String.eqb k "speed_down"); [discriminate|].
  rewrite (IH U D). now destruct (expired now (k, t)).
Qed.

(** One speed_up entry and no speed_down entry: one reversal of 2, once the
    entry has expired. *)
Lemma total_reversal_speed_up (now t : Z) (entries : Dict Z) :
  is_dict entries ->
  dict_get "speed_up" entries = Some t ->
  dict_get "speed_down" entries = None ->
  total_reversal now entries = if expired now ("speed_up", t) then -2 else 0.
Proof.
  unfold is_dict, dict_keys.
  induction entries as [|[k t0] rest IH]; intros D U N; [discriminate|].
  cbn [map fst distinct_keys] in D.
  apply andb_true_iff in D. destruct D as [D1 D2]. apply negb_true_iff in D1.
  cbn [dict_get] in U, N. cbn [total_reversal fst]. unfold reversal_delta.
  rewrite String.eqb_sym in U. rewrite String.eqb_sym in N.
  destruct (String.eqb k "speed_up") eqn:E.
  - apply String.eqb_eq in E. subst k. inversion U. subst t0.
    rewrite total_reversal_neutral; [now destruct (expired now ("speed_up", t))| |exact N].
    destruct (dict_get "speed_up" rest) eqn:G; [|reflexivity].
    exfalso.
    assert (I : In "speed_up" (map fst rest)).
    { clear - G. induction rest as [|[k v] rest IH]; [discriminate|].
      cbn [dict_get] in G. cbn [map fst In].
      destruct (String.eqb "speed_up" k) eqn:E.
      - apply String.eqb_eq in E. now left.
      - right. now apply IH. }
    apply (existsb_eqb_false _ _ D1 "speed_up" I). reflexivity.
  - destruct (String.eqb k "speed_down"); [discriminate|].
    rewrite (IH D2 U N). now destruct (expired now (k, t0)).
Qed.

(** On a session with no speed entry the expiry loop moves no modifier. *)
Lemma expire_effects_idle (now : Z) (g : SnakeGame) :
  is_dict (special_effects g) ->
  dict_get "speed_up" (special_effects g) = None ->
  dict_get "speed_down" (special_effects g) = None ->
  exists g',
    expire_effects now g = (Ret tt, g') /\
    snake1 g' = snake1 g /\ snake2 g' = snake2 g.
Proof.
  intros D U N. exists (expire_all now (special_effects g) g).
  split; [now apply expire_effects_run|].
  destruct (snakes_expire_all now (special_effects g) g) as [S1 S2].
  rewrite S1, S2, (total_reversal_neutral now _ U N), set_speed_effect_zero.
  split; [reflexivity|].
  destruct (snake2 g); simpl; [|reflexivity]. now rewrite set_speed_effect_zero.
Qed.

Lemma dict_get_some_in {V} (k : string) (v : V) (d : Dict V) :
  dict_get k d = Some v -> In (k, v) d.
Proof.
  induction d as [|[k0 v0] d IH]; intros H; [discriminate|].
  cbn [dict_get] in H. destruct (String.eqb k k0) eqn:E.
  - apply String.eqb_eq in E. inversion H. subst. now left.
  - right. now apply IH.
Qed.

Lemma get_snake_expire_all (now : Z) (g : SnakeGame) (who : Player) (s : Snake) :
  get_snake who g = Some s ->
  get_snake who (expire_all now (special_effects g) g) =
    Some (set_speed_effect
            (speed_effect s + total_reversal now (special_effects g)) s).
Proof.
  intros H. destruct (snakes_expire_all now (special_effects g) g) as [S1 S2].
  destruct who; simpl in *.
  - inversion H. subst s. now rewrite S1.
  - rewrite S2, H. reflexivity.
Qed.

(** ** Re-triggering a speed effect *)



(** ** A speed effect from eating to expiry *)

(** Where the round from eating to expiry is exact: the eating snake always
    ends on the modifier it had before the food, and so does a session with
    one snake as a whole. *)
Lemma speed_up_expiry_eater (g : SnakeGame) (who : Player) (s : Snake)
    (food : Food) (t now : Z) :
  get_snake who g = Some s ->
  kind food = "speed_up" ->
  is_dict (special_effects g) ->
  dict_get "speed_up" (special_effects g) = None ->
  dict_get "speed_down" (special_effects g) = None ->
  SPECIAL_EFFECT_DURATION <= now - t ->
  exists g1 g2 s2,
    apply_food_effect t who food g = (Ret tt, g1) /\
    expire_effects now g1 = (Ret tt, g2) /\
    get_snake who g2 = Some s2 /\
    speed_effect s2 = speed_effect s /\
    (snake2 g = None -> speed_effects g2 = speed_effects g).
Proof.
  intros Hs K D U N X.
  destruct (apply_food_effect_run t who food g s Hs) as [_ [_ [R _]]].
  specialize (R K).
  set (s1 := set_speed_effect (speed_effect s + 2) (set_score (score s + 2) s)) in *.
  set (g1 := set_special_effects (dict_set "speed_up" t (special_effects g))
               (put_snake who s1 g)) in *.
  assert (E1 : special_effects g1 = dict_set "speed_up" t (special_effects g))
    by reflexivity.
  assert (D1 : is_dict (special_effects g1))
    by (rewrite E1; now apply is_dict_set).
  assert (G1 : get_snake who g1 = Some s1)
    by (unfold g1; destruct who; reflexivity).
  assert (T : total_reversal now (special_effects g1) = -2).
  { rewrite (total_reversal_speed_up now t (special_effects g1) D1).
    - replace (expired now ("speed_up", t)) with true; [reflexivity|].
      symmetry. apply Z.leb_le. exact X.
    - rewrite E1. apply dict_get_set_same.
    - rewrite E1, dict_get_set_other; [exact N|discriminate]. }
  exists g1, (expire_all now (special_effects g1) g1),
    (set_speed_effect (speed_effect s1 + -2) s1).
  split; [exact R|]. split; [now apply expire_effects_run|].
  split; [now rewrite (get_snake_expire_all now g1 who s1 G1), T|].
  split; [simpl; lia|].
  intros One. unfold speed_effects.
  destruct (snakes_expire_all now (special_effects g1) g1) as [S1 S2].
  rewrite S1, S2, T.
  destruct who; simpl in Hs.
  - inversion Hs. subst s. unfold g1. simpl. rewrite One. simpl.
    f_equal. lia.
  - rewrite One in Hs. discriminate.
Qed.

(** C3 on the code, two players.  The first snake eats a speed_up food at
    1000 ms with no effect active; the entry expires at the check of 4000 ms
    and nothing else happens in between.  The eater's modifier is back at 0,
    the other snake's modifier has gone from 0 to -2. *)
Theorem speed_up_expiry_two_players :
  exists g1 g2,
    apply_food_effect 1000 P1 speed_up_food duel = (Ret tt, g1) /\
    speed_effects duel = (0, Some 0) /\
    speed_effects g1 = (2, Some 0) /\
    expire_effects 4000 g1 = (Ret tt, g2) /\
    special_effects g2 = [] /\
    speed_effects g2 = (0, Some (-2)).
Proof. do 2 eexists. vm_compute. repeat split. Qed.

(** ** Reading a persisted record *)

Lemma py_tuple_cell (c : Cell) : py_tuple (cell_json c) = Ret c.
Proof. now destruct c. Qed.

Lemma tuples_cells (l : list Cell) : tuples (map cell_json l) = Ret l.
Proof.
  induction l as [|c l IH]; [reflexivity|].
  cbn [map tuples]. now rewrite py_tuple_cell, IH.
Qed.

Lemma py_tuples_cells (l : list Cell) :
  py_tuples (JArr (map cell_json l)) = Ret l.
Proof. unfold py_tuples. simpl. apply tuples_cells. Qed.

Lemma theme_item_role (t : Theme) :
  theme_item t "snake1" = Ret (role_color t "snake1")
  /\ theme_item t "snake2" = Ret (role_color t "snake2")
  /\ theme_item t "food" = Ret (role_color t "food").
Proof. destruct t; repeat split. Qed.

Ltac split_record r :=
  destruct r as [difficulty0 theme0 two_player0 s10 s20 obstacles0 foods0 hs0];
  destruct difficulty0, theme0, two_player0, s20 as [[?|]|], obstacles0,
    foods0, hs0.

Lemma truthy_record (r : SavedState) : truthy (record_json r) = true.
Proof. split_record r; reflexivity. Qed.

Lemma record_theme (r : SavedState) :
  py_get (record_json r) "theme" (JStr "classic") =
    Ret (JStr (or_default (sv_theme r) "classic")).
Proof. split_record r; reflexivity. Qed.

Lemma record_difficulty (r : SavedState) :
  py_get (record_json r) "difficulty" (JStr "medium") =
    Ret (JStr (or_default (sv_difficulty r) "medium")).
Proof. split_record r; reflexivity. Qed.

Lemma record_two_player (r : SavedState) :
  py_get (record_json r) "two_player" (JBool false) =
    Ret (JBool (or_default (sv_two_player r) false)).
Proof. split_record r; reflexivity. Qed.

Lemma record_snake1 (r : SavedState) :
  py_item (record_json r) "snake1" = Ret (saved_snake_json (sv_snake1 r)).
Proof. split_record r; reflexivity. Qed.

Lemma record_snake2_get (r : SavedState) :
  py_get (record_json r) "snake2" JNull =
    Ret (match sv_snake2 r with
         | Some (Some s) => saved_snake_json s
         | _ => JNull
         end).
Proof. split_record r; reflexivity. Qed.

Lemma record_snake2_item (r : SavedState) (s : SavedSnake) :
  sv_snake2 r = Some (Some s) ->
  py_item (record_json r) "snake2" = Ret (saved_snake_json s).
Proof. split_record r; simpl; intros E; inversion E; reflexivity. Qed.

Lemma record_obstacles (r : SavedState) :
  py_get (record_json r) "obstacles" (JArr []) =
    Ret (JArr (map cell_json (or_default (sv_obstacles r) []))).
Proof. split_record r; reflexivity. Qed.

Lemma record_foods (r : SavedState) :
  py_get (record_json r) "foods" (JArr []) =
    Ret (JArr (map saved_food_json (or_default (sv_foods r) []))).
Proof. split_record r; reflexivity. Qed.

Lemma record_high_score (r : SavedState) (current : Z) :
  py_get (record_json r) "high_score" (JNum current) =
    Ret (JNum (or_default (sv_high_score r) current)).
Proof. split_record r; reflexivity. Qed.

Lemma truthy_saved_snake (s : SavedSnake) : truthy (saved_snake_json s) = true.
Proof. reflexivity. Qed.

(** Restoring a snake from its record: the seven assignments. *)
Lemma restore_snake_run (who : Player) (sv : SavedSnake) (g : SnakeGame)
    (s0 : Snake) :
  get_snake who g = Some s0 ->
  restore_snake who (saved_snake_json sv) g =
    (Ret tt,
     put_snake who
       (set_speed_effect (or_default (sv_speed_effect sv) 0)
          (set_score (sv_score sv)
             (set_alive (sv_alive sv)
                (set_grow (sv_grow sv)
                   (set_pending_dir (sv_pending_dir sv)
                      (set_dir (sv_dir sv) (set_body (sv_body sv) s0)))))))
       g).
Proof.
  intros Hs.
  destruct sv as [b [dx dy] [px py] gr al sc [se|]];
    destruct g as [th bs oc tp s1 s2 hs obs fs rn pa lu ui eff];
    destruct who; simpl in Hs; inversion Hs; subst;
    unfold restore_snake, saved_snake_json;
    cbn [bind lift py_item dict_item dict_get String.eqb Ascii.eqb Bool.eqb
         app opt_entry option_map];
    rewrite py_tuples_cells; reflexivity.
Qed.

Lemma restore_food_run (f : SavedFood) (g : SnakeGame) :
  restore_food (saved_food_json f) g =
    (Ret tt, set_foods (foods g ++ [restored_food (theme g) f]) g).
Proof.
  destruct (theme_item_role (theme g)) as [_ [_ F]].
  destruct f as [[x y] [k|]];
    unfold restore_food, saved_food_json;
    cbn [bind lift get py_get py_item dict_item dict_get String.eqb Ascii.eqb
         Bool.eqb app opt_entry option_map];
    rewrite F; reflexivity.
Qed.

Lemma restore_foods_run (fs : list SavedFood) :
  forall g,
    for_each (map saved_food_json fs) restore_food g =
      (Ret tt, set_foods (foods g ++ map (restored_food (theme g)) fs) g).
Proof.
  induction fs as [|f fs IH]; intros g.
  - simpl. rewrite app_nil_r. now destruct g.
  - cbn [map for_each]. rewrite (bind_ret _ (restore_food_run f g)).
    rewrite IH. destruct g. simpl. now rewrite <- app_assoc.
Qed.

Lemma resolve_lookup {V} (d : Dict V) (name : option string) (fallback : string)
    (default : V) :
  dict_get fallback d = Some default ->
  lookup_or d (JStr (or_default name fallback)) default =
    Ret (resolve d name default).
Proof.
  intros H. destruct name as [n|]; simpl; [reflexivity|]. now rewrite H.
Qed.

Lemma restore_snake1_run (sv : SavedSnake) (g : SnakeGame) :
  restore_snake P1 (saved_snake_json sv) g =
    (Ret tt,
     set_snake1
       (set_speed_effect (or_default (sv_speed_effect sv) 0)
          (set_score (sv_score sv)
             (set_alive (sv_alive sv)
                (set_grow (sv_grow sv)
                   (set_pending_dir (sv_pending_dir sv)
                      (set_dir (sv_dir sv) (set_body (sv_body sv) (snake1 g))))))))
       g).
Proof. exact (restore_snake_run P1 sv g (snake1 g) eq_refl). Qed.

Ltac run_load :=
  cbn beta iota delta
      [theme base_speed obstacle_count two_player snake1 snake2 high_score
       obstacles foods running paused last_update update_interval
       special_effects
       set_theme_ref set_base_speed set_obstacle_count set_two_player
       set_snake1 set_snake2 set_high_score set_obstacles set_foods
       set_last_update set_special_effects
       on_snake get_snake put_snake as_bool py_iter py_int truthy negb].

Ltac load_tail :=
  rewrite record_obstacles, py_tuples_cells, record_foods; run_load;
  rewrite restore_foods_run, record_high_score; run_load;
  try reflexivity.

(** [load_game] on a well-formed record, in closed form. *)
Lemma load_game_record (r : SavedState) (ticks : Z) (g : SnakeGame) :
  second_snake_fits r g ->
  load_game (Holds (record_json r)) ticks g = (Ret tt, loaded r ticks g).
Proof.
  intros Fit. unfold load_game, load_state. rewrite truthy_record.
  change (dict_item "classic" THEMES) with (Ret Classic).
  change (dict_item "medium" DIFFICULTIES) with (Ret medium).
  unfold bind, lift, get, modify, ret. run_load.
  rewrite record_theme.
  rewrite (resolve_lookup THEMES (sv_theme r) "classic" Classic eq_refl).
  rewrite record_difficulty.
  rewrite (resolve_lookup DIFFICULTIES (sv_difficulty r) "medium" medium eq_refl).
  rewrite record_two_player. run_load.
  rewrite record_snake1.
  destruct (theme_item_role (resolve THEMES (sv_theme r) Classic)) as [T1 [T2 _]].
  unfold second_snake_fits in Fit. unfold loaded.
  destruct g as [th bs oc tp s1 s2 hs obs fs rn pa lu ui eff].
  run_load. rewrite T1.
  rewrite restore_snake1_run. run_load.
  rewrite record_snake2_get.
  destruct (sv_snake2 r) as [[sv2|]|] eqn:E2.
  - rewrite truthy_saved_snake. rewrite (record_snake2_item r sv2 E2).
    run_load. rewrite T2.
    destruct s2 as [old|]; [|contradiction].
    run_load.
    erewrite restore_snake_run by reflexivity.
    load_tail.
  - run_load. load_tail.
  - run_load. load_tail.
Qed.

(** ** Save, then load *)

Lemma saved_record_typed (g : SnakeGame) :
  saved_record g = record_json (saved_state g).
Proof.
  unfold saved_record, record_json, saved_state. simpl.
  rewrite map_map.
  destruct (snake2 g); reflexivity.
Qed.

Lemma second_snake_fits_saved (g : SnakeGame) :
  second_snake_fits (saved_state g) g.
Proof. unfold second_snake_fits. simpl. now destruct (snake2 g). Qed.

(** C1. A session is saved (the write succeeds) and loaded straight back
    into the same session: the load returns, and body, committed and pending
    direction, growth counter, score and alive flag of each snake, the list
    of obstacles and the positions and kinds of the foods are those of the
    session that was saved. *)
Theorem save_load_round_trip (g : SnakeGame) (f : SaveFile) (ticks : Z) :
  exists g',
    load_game (save_game Written g f) ticks g = (Ret tt, g') /\
    snake_state (snake1 g') = snake_state (snake1 g) /\
    option_map snake_state (snake2 g') = option_map snake_state (snake2 g) /\
    obstacles g' = obstacles g /\
    map food_state (foods g') = map food_state (foods g).
Proof.
  exists (loaded (saved_state g) ticks g).
  split.
  - unfold save_game, save_state. rewrite saved_record_typed.
    apply load_game_record. apply second_snake_fits_saved.
  - unfold loaded. simpl. repeat split.
    + now destruct (snake2 g).
    + rewrite !map_map. simpl. apply map_ext. intros a. reflexivity.
Qed.

(** ** The effect map across a save and a load *)

Lemma keeps_ret {A} (a : A) : keeps_effects (ret a).
Proof. intros g r g' H. unfold ret in H. now inversion H. Qed.

Lemma keeps_lift {A} (r : Py A) : keeps_effects (lift r).
Proof. intros g r' g' H. unfold lift in H. now inversion H. Qed.

Lemma keeps_get : keeps_effects get.
Proof. intros g r g' H. unfold get in H. now inversion H. Qed.

Lemma keeps_modify (f : SnakeGame -> SnakeGame) :
  (forall g, special_effects (f g) = special_effects g) ->
  keeps_effects (modify f).
Proof. intros F g r g' H. unfold modify in H. inversion H. apply F. Qed.

Lemma keeps_bind {A B} (c : M SnakeGame A) (k : A -> M SnakeGame B) :
  keeps_effects c -> (forall a, keeps_effects (k a)) ->
  keeps_effects (bind c k).
Proof.
  intros Hc Hk g r g' H. unfold bind in H.
  destruct (c g) as [[a|e|] g1] eqn:E.
  - rewrite (Hk a g1 r g' H). exact (Hc g _ g1 E).
  - inversion H. subst. exact (Hc g _ g' E).
  - inversion H. subst. exact (Hc g _ g' E).
Qed.

Lemma keeps_on_snake {A} (who : Player) (c : M Snake A) :
  keeps_effects (on_snake who c).
Proof.
  intros g r g' H. unfold on_snake in H.
  destruct (get_snake who g) as [s|]; [|now inversion H].
  destruct (c s) as [r0 s']. inversion H. now destruct who.
Qed.

Lemma keeps_for_each {A} (xs : list A) (body : A -> M SnakeGame unit) :
  (forall x, keeps_effects (body x)) -> keeps_effects (for_each xs body).
Proof.
  intros Hb. induction xs as [|x xs IH]; simpl.
  - apply keeps_ret.
  - apply keeps_bind; [apply Hb|intros _; exact IH].
Qed.

Ltac keeps :=
  repeat first
    [ apply keeps_ret | apply keeps_lift | apply keeps_get
    | apply keeps_on_snake
    | apply keeps_modify; intros; reflexivity
    | apply keeps_for_each; intros
    | apply keeps_bind; [|intros]
    | match goal with
      | |- keeps_effects (if ?b then _ else _) => destruct b
      end ].

Lemma keeps_restore_snake (who : Player) (s : json) :
  keeps_effects (restore_snake who s).
Proof. unfold restore_snake. keeps. Qed.

Lemma keeps_restore_food (f : json) : keeps_effects (restore_food f).
Proof. unfold restore_food. keeps. Qed.

Lemma keeps_load_game (f : SaveFile) (ticks : Z) :
  keeps_effects (load_game f ticks).
Proof.
  unfold load_game.
  destruct (negb (truthy (load_state f))); [apply keeps_ret|].
  keeps; try apply keeps_restore_snake; try apply keeps_restore_food.
Qed.

(** C10. The record that [save_game] writes has the eight entries
    difficulty, theme, two_player, snake1, snake2, obstacles, foods and
    high_score, none of them an effect timer, and it is the same record
    whatever the effect map holds.  [load_game] leaves the effect map of
    the loading session as it was, however the load ends.  So when that
    session has no speed_up and no speed_down entry, no later expiry check
    changes a snake of the loaded session: a speed modifier that came from
    the file is never reversed. *)
Theorem effects_not_persisted (g : SnakeGame) (f : SaveFile) (ticks : Z) :
  (exists entries,
     saved_record g = JObj entries /\
     dict_keys entries =
       ["difficulty"; "theme"; "two_player"; "snake1"; "snake2";
        "obstacles"; "foods"; "high_score"])
  /\ (forall effects,
        saved_record (set_special_effects effects g) = saved_record g)
  /\ (forall r g',
        load_game f ticks g = (r, g') ->
        special_effects g' = special_effects g)
  /\ (is_dict (special_effects g) ->
      dict_get "speed_up" (special_effects g) = None ->
      dict_get "speed_down" (special_effects g) = None ->
      forall r g' now,
        load_game f ticks g = (r, g') ->
        exists g'',
          expire_effects now g' = (Ret tt, g'') /\
          snake1 g'' = snake1 g' /\ snake2 g'' = snake2 g').
Proof.
  split; [eexists; split; reflexivity|].
  split; [reflexivity|].
  split; [intros r g' H; exact (keeps_load_game f ticks g r g' H)|].
  intros D U N r g' now H.
  pose proof (keeps_load_game f ticks g r g' H) as E.
  apply expire_effects_idle; rewrite E; assumption.
Qed.

(** ** Tolerance of the load *)




(** * The properties on sample sessions *)

(** The advance step on the snake [runner]. *)
Lemma Snake_update_advance_runner :
  exists s' h,
    Snake_update runner = (Ret tt, s') /\
    item_neg (body runner) 1 = Ret h /\
    let new_head := (fst h + fst (dir s'), snd h + snd (dir s')) in
    item_neg (body s') 1 = Ret new_head /\
    (0 < grow runner ->
       grow s' = grow runner - 1 /\
       body s' = body runner ++ [new_head] /\
       length (body s') = S (length (body runner))) /\
    (grow runner <= 0 ->
       grow s' = grow runner /\
       body s' = tl (body runner) ++ [new_head] /\
       length (body s') = length (body runner)).
Proof. apply (Snake_update_advance runner). simpl. discriminate. Defined.

(** The choice of direction on the snake [runner]. *)
Lemma Snake_update_no_reversal_runner :
  exists front neck head s',
    body runner = front ++ [neck; head] /\
    Snake_update runner = (Ret tt, s') /\
    let cur := (fst head - fst neck, snd head - snd neck) in
    (neck <> head -> dir s' <> neg_cell cur) /\
    (pending_dir runner = neg_cell cur \/ pending_dir runner = (0, 0) ->
     dir s' = cur).
Proof. apply (Snake_update_no_reversal runner). simpl. lia. Defined.

(** The effect table for the second snake of [duel]. *)
Lemma apply_food_effect_table_duel :
  (kind speed_up_food = "normal" ->
     apply_food_effect 1000 P2 speed_up_food duel =
       (Ret tt,
        put_snake P2 (set_score (score rival + 1) (set_grow (grow rival + 1) rival))
          duel))
  /\ (kind speed_up_food = "bonus" ->
     apply_food_effect 1000 P2 speed_up_food duel =
       (Ret tt,
        put_snake P2 (set_score (score rival + 5) (set_grow (grow rival + 2) rival))
          duel))
  /\ (kind speed_up_food = "speed_up" ->
     apply_food_effect 1000 P2 speed_up_food duel =
       (Ret tt,
        set_special_effects (dict_set "speed_up" 1000 (special_effects duel))
          (put_snake P2
             (set_speed_effect (speed_effect rival + 2)
                (set_score (score rival + 2) rival)) duel)))
  /\ (kind speed_up_food = "speed_down" ->
     apply_food_effect 1000 P2 speed_up_food duel =
       (Ret tt,
        set_special_effects (dict_set "speed_down" 1000 (special_effects duel))
          (put_snake P2
             (set_speed_effect (speed_effect rival - 2)
                (set_score (score rival + 2) rival)) duel)))
  /\ (kind speed_up_food = "shrink" ->
     apply_food_effect 1000 P2 speed_up_food duel =
       (Ret tt,
        put_snake P2
          (if (3 <? length (body rival))%nat
           then set_grow 0
                  (set_body (skipn (length (body rival) / 2 - 1)%nat (body rival))
                     (set_score (score rival + 3) rival))
           else set_score (score rival + 3) rival) duel)).
Proof. apply (apply_food_effect_table 1000 P2 speed_up_food duel rival). reflexivity. Defined.

(** The collision loop on [duel]. *)
Lemma collision_loop_deaths_duel :
  exists g',
    collision_loop duel = (Ret tt, g') /\
    (forall who s h,
       get_snake who duel = Some s -> item_neg (body s) 1 = Ret h ->
       get_snake who g' = Some (set_alive (alive s && negb (dies duel who h)) s)) /\
    (forall s2 h,
       snake2 duel = Some s2 ->
       item_neg (body (snake1 duel)) 1 = Ret h -> item_neg (body s2) 1 = Ret h ->
       alive (snake1 g') = false /\
       exists s2', snake2 g' = Some s2' /\ alive s2' = false).
Proof.
  apply (collision_loop_deaths duel).
  intros who s H. destruct who; simpl in H; inversion H; simpl; discriminate.
Defined.


(** * Further properties of the simulation *)

(** ** Shrinking *)

Lemma item_neg_skipn {A} (k : nat) (l : list A) :
  (k < length l)%nat -> item_neg (skipn k l) 1 = item_neg l 1.
Proof.
  intros H.
  assert (N : skipn k l <> []).
  { intros C. apply (f_equal (@length A)) in C. rewrite length_skipn in C.
    simpl in C. lia. }
  destruct (snoc_cases _ N) as [front [x E]].
  rewrite <- (firstn_skipn k l) at 2. rewrite E, app_assoc.
  now rewrite !item_neg_last.
Qed.

(** X1. A shrink food never takes the head: on a snake with more than three
    cells it drops [length/2 - 1] cells from the tail end and zeroes the
    growth counter, leaving [length - length/2 + 1] cells, at least three; a
    snake with three cells or fewer keeps its body and its growth counter.
    The score goes up by 3 either way. *)
Theorem shrink_keeps_head (ticks : Z) (who : Player) (food : Food)
    (g : SnakeGame) (s : Snake) :
  get_snake who g = Some s ->
  kind food = "shrink" ->
  exists g' s',
    apply_food_effect ticks who food g = (Ret tt, g') /\
    get_snake who g' = Some s' /\
    score s' = score s + 3 /\
    item_neg (body s') 1 = item_neg (body s) 1 /\
    (exists cut, body s = cut ++ body s') /\
    ((length (body s) <= 3)%nat -> body s' = body s /\ grow s' = grow s) /\
    ((3 < length (body s))%nat ->
       length (body s') = (length (body s) - length (body s) / 2 + 1)%nat /\
       (3 <= length (body s'))%nat /\
       grow s' = 0).
Proof.
  intros Hs K.
  destruct (apply_food_effect_run ticks who food g s Hs) as [_ [_ [_ [_ R]]]].
  specialize (R K).
  pose proof (Nat.div_mod_eq (length (body s)) 2) as DM.
  pose proof (Nat.mod_upper_bound (length (body s)) 2 ltac:(lia)) as MU.
  match type of R with _ = (_, put_snake _ ?x _) => set (s' := x) in * end.
  exists (put_snake who s' g), s'. split; [exact R|].
  split; [destruct who; reflexivity|].
  unfold s'. clear R s'.
  destruct (3 <? length (body s))%nat eqn:L.
  - apply Nat.ltb_lt in L.
    cbn [score body grow set_grow set_body set_score].
    split; [reflexivity|].
    split; [apply item_neg_skipn; lia|].
    split; [exists (firstn (length (body s) / 2 - 1) (body s));
            now rewrite firstn_skipn|].
    split; [lia|]. intros _. rewrite length_skipn. repeat split; lia.
  - apply Nat.ltb_ge in L.
    cbn [score body grow set_grow set_body set_score].
    split; [reflexivity|]. split; [reflexivity|].
    split; [now exists []|].
    split; [intros _; split; reflexivity|lia].
Qed.

(** ** The expiry loop, as a whole *)

Lemma distinct_keys_NoDup (ks : list string) :
  distinct_keys ks = true <-> NoDup ks.
Proof.
  induction ks as [|k ks IH]; simpl.
  - split; [constructor|reflexivity].
  - rewrite andb_true_iff, negb_true_iff, IH. split.
    + intros [H1 H2]. constructor; [|exact H2].
      intros I. apply (existsb_eqb_false _ _ H1 k I). reflexivity.
    + intros H. inversion H as [|? ? N D]. subst. split; [|exact D].
      destruct (existsb (String.eqb k) ks) eqn:X; [|reflexivity].
      apply existsb_exists in X. destruct X as [k' [I E]].
      apply String.eqb_eq in E. subst k'. contradiction.
Qed.

Lemma dict_del_absent {V} (k : string) (d : Dict V) :
  ~ In k (dict_keys d) -> dict_del k d = d.
Proof.
  unfold dict_del, dict_keys.
  induction d as [|[k0 v0] d IH]; intros N; [reflexivity|].
  cbn [filter fst]. destruct (String.eqb k k0) eqn:E.
  - apply String.eqb_eq in E. subst k0. exfalso. apply N. now left.
  - cbn [negb]. f_equal. apply IH. intros I. apply N. now right.
Qed.

Lemma dict_del_middle {V} (pre rest : Dict V) (k : string) (v : V) :
  is_dict (pre ++ (k, v) :: rest) ->
  dict_del k (pre ++ (k, v) :: rest) = pre ++ rest.
Proof.
  unfold is_dict. rewrite distinct_keys_NoDup. unfold dict_keys.
  rewrite map_app. cbn [map fst]. intros N.
  apply NoDup_remove_2 in N. rewrite in_app_iff in N.
  unfold dict_del. rewrite filter_app. cbn [filter fst].
  rewrite String.eqb_refl. cbn [negb].
  fold (dict_del k pre). fold (dict_del k rest).
  rewrite !dict_del_absent; [reflexivity| |]; intros I; apply N; auto.
Qed.

Lemma is_dict_drop {V} (pre rest : Dict V) (e : string * V) :
  is_dict (pre ++ e :: rest) -> is_dict (pre ++ rest).
Proof.
  unfold is_dict. rewrite !distinct_keys_NoDup. unfold dict_keys.
  rewrite !map_app. cbn [map]. apply NoDup_remove_1.
Qed.

Lemma effects_expire_all (now : Z) (entries : Dict Z) :
  forall pre g,
    special_effects g = pre ++ entries ->
    is_dict (pre ++ entries) ->
    special_effects (expire_all now entries g) =
      pre ++ filter (fun e => negb (expired now e)) entries.
Proof.
  unfold expire_all. induction entries as [|[k t] rest IH]; intros pre g E D.
  - exact E.
  - cbn [fold_left filter]. destruct (expired now (k, t)) eqn:X; cbn [negb].
    + apply IH; [|exact (is_dict_drop _ _ _ D)].
      rewrite special_effects_expire_entry, X, E. cbn [fst].
      now apply dict_del_middle.
    + replace (pre ++ (k, t) :: filter (fun e => negb (expired now e)) rest)
        with ((pre ++ [(k, t)]) ++ filter (fun e => negb (expired now e)) rest)
        by (now rewrite <- app_assoc).
      apply IH.
      * rewrite special_effects_expire_entry, X, E. now rewrite <- app_assoc.
      * now rewrite <- app_assoc.
Qed.

Lemma board_of_reversed (key : string) (g : SnakeGame) :
  board_of (reversed key g) = board_of g.
Proof.
  unfold reversed, shift_speed.
  destruct (String.eqb key "speed_up"); [destruct (snake2 g); reflexivity|].
  destruct (String.eqb key "speed_down"); [destruct (snake2 g); reflexivity|].
  reflexivity.
Qed.

Lemma board_of_expire_all (now : Z) (entries : Dict Z) :
  forall g, board_of (expire_all now entries g) = board_of g.
Proof.
  unfold expire_all. induction entries as [|e rest IH]; intros g; [reflexivity|].
  cbn [fold_left]. rewrite IH. unfold expire_entry.
  destruct (SPECIAL_EFFECT_DURATION <=? now - snd e); [|reflexivity].
  exact (board_of_reversed (fst e) g).
Qed.

(** The session after the loop, field by field. *)
Lemma expire_effects_leaves_unexpired_aux (now : Z) (g : SnakeGame) :
  is_dict (special_effects g) ->
  special_effects (expire_all now (special_effects g) g) =
    filter (fun e => negb (expired now e)) (special_effects g) /\
  board_of (expire_all now (special_effects g) g) = board_of g /\
  snake1 (expire_all now (special_effects g) g) =
    set_speed_effect
      (speed_effect (snake1 g) + total_reversal now (special_effects g))
      (snake1 g) /\
  snake2 (expire_all now (special_effects g) g) =
    option_map
      (fun s => set_speed_effect
                  (speed_effect s + total_reversal now (special_effects g)) s)
      (snake2 g).
Proof.
  intros D.
  split; [exact (effects_expire_all now (special_effects g) [] g eq_refl D)|].
  split; [apply board_of_expire_all|].
  apply snakes_expire_all.
Qed.

(** X2. On a session whose effect map is a dict the expiry loop returns.
    It removes exactly the entries whose age has reached 3000 ms and keeps
    the others, in order, with their timestamps; it adds to the speed
    modifier of every snake the sum of the reversals of the removed entries
    and touches nothing else in the session. *)
Theorem expire_effects_leaves_unexpired (now : Z) (g : SnakeGame) :
  is_dict (special_effects g) ->
  exists g',
    expire_effects now g = (Ret tt, g') /\
    special_effects g' =
      filter (fun e => negb (expired now e)) (special_effects g) /\
    board_of g' = board_of g /\
    snake1 g' =
      set_speed_effect
        (speed_effect (snake1 g) + total_reversal now (special_effects g))
        (snake1 g) /\
    snake2 g' =
      option_map
        (fun s => set_speed_effect
                    (speed_effect s + total_reversal now (special_effects g)) s)
        (snake2 g).
Proof.
  intros D. exists (expire_all now (special_effects g) g).
  split; [now apply expire_effects_run|].
  now apply expire_effects_leaves_unexpired_aux.
Qed.

Lemma set_speed_effect_twice (a b : Z) (s : Snake) :
  set_speed_effect (speed_effect (set_speed_effect a s) + b)
    (set_speed_effect a s) = set_speed_effect (a + b) s.
Proof. reflexivity. Qed.

Lemma session_ext (g g' : SnakeGame) :
  board_of g = board_of g' -> snake1 g = snake1 g' -> snake2 g = snake2 g' ->
  special_effects g = special_effects g' -> g = g'.
Proof.
  destruct g, g'. unfold board_of. simpl.
  intros B S1 S2 E. inversion B. subst. reflexivity.
Qed.

Lemma expired_later (t1 t2 : Z) (e : string * Z) :
  t1 <= t2 -> expired t1 e = true -> expired t2 e = true.
Proof. unfold expired. rewrite !Z.leb_le. lia. Qed.

Lemma filter_unexpired_later (t1 t2 : Z) (d : Dict Z) :
  t1 <= t2 ->
  filter (fun e => negb (expired t2 e)) (filter (fun e => negb (expired t1 e)) d)
  = filter (fun e => negb (expired t2 e)) d.
Proof.
  intros L. induction d as [|e d IH]; [reflexivity|].
  cbn [filter]. destruct (expired t1 e) eqn:X1; cbn [negb].
  - rewrite (expired_later t1 t2 e L X1). cbn [negb]. exact IH.
  - cbn [filter]. destruct (expired t2 e); cbn [negb]; now rewrite IH.
Qed.

Lemma total_reversal_later (t1 t2 : Z) (d : Dict Z) :
  t1 <= t2 ->
  total_reversal t1 d
  + total_reversal t2 (filter (fun e => negb (expired t1 e)) d)
  = total_reversal t2 d.
Proof.
  intros L. induction d as [|e d IH]; [reflexivity|].
  cbn [filter total_reversal]. destruct (expired t1 e) eqn:X1; cbn [negb].
  - rewrite (expired_later t1 t2 e L X1). lia.
  - cbn [total_reversal]. lia.
Qed.

Lemma is_dict_filter {V} (f : string * V -> bool) (d : Dict V) :
  is_dict d -> is_dict (filter f d).
Proof.
  unfold is_dict. rewrite !distinct_keys_NoDup. unfold dict_keys.
  induction d as [|e d IH]; intros N; [constructor|].
  cbn [map] in N. inversion N as [|? ? N1 N2]. subst.
  cbn [filter]. destruct (f e); [|now apply IH].
  cbn [map]. constructor; [|now apply IH].
  intros I. apply N1. apply in_map_iff in I. destruct I as [x [E I]].
  apply filter_In in I. apply in_map_iff. exists x. tauto.
Qed.

(** X3. Expiry checks compose: a check at [t1] followed by a check at a
    later [t2] leaves the session exactly as a single check at [t2] does.
    Skipped or repeated frames change nothing about which effects are
    reversed. *)
Theorem expire_effects_compose (t1 t2 : Z) (g g1 : SnakeGame) :
  is_dict (special_effects g) ->
  t1 <= t2 ->
  expire_effects t1 g = (Ret tt, g1) ->
  expire_effects t2 g1 = expire_effects t2 g.
Proof.
  intros D L R1.
  destruct (expire_effects_leaves_unexpired_aux t1 g D) as [E1 [B1 [S1 S2]]].
  rewrite (expire_effects_run t1 g D) in R1. inversion R1 as [G1]. clear R1.
  rewrite G1 in *.
  assert (D1 : is_dict (special_effects g1))
    by (rewrite E1; now apply is_dict_filter).
  destruct (expire_effects_leaves_unexpired_aux t2 g1 D1) as [E2 [B2 [S21 S22]]].
  destruct (expire_effects_leaves_unexpired_aux t2 g D) as [E3 [B3 [S31 S32]]].
  rewrite (expire_effects_run t2 g1 D1), (expire_effects_run t2 g D).
  pose proof (total_reversal_later t1 t2 (special_effects g) L) as T.
  f_equal. apply session_ext.
  - now rewrite B2, B3.
  - rewrite S21, S31, S1, E1, set_speed_effect_twice.
    f_equal. lia.
  - rewrite S22, S32, S2, E1. destruct (snake2 g); simpl; [|reflexivity].
    unfold set_speed_effect. simpl. do 2 f_equal. lia.
  - rewrite E2, E3, E1. now apply filter_unexpired_later.
Qed.

(** ** Speed foods and the tick interval *)

Lemma compute_interval_antitone (g g' : SnakeGame) (i' : Z) :
  base_speed g + (speed_effect (snake1 g)
                  + match snake2 g with Some s => speed_effect s | None => 0 end)
  <= base_speed g' + (speed_effect (snake1 g')
                  + match snake2 g' with Some s => speed_effect s | None => 0 end) ->
  compute_interval g' = Ret i' ->
  exists i, compute_interval g = Ret i /\ i' <= i.
Proof.
  intros H. rewrite !compute_interval_run. cbv zeta. unfold float_overflows.
  set (d := Z.max 5 (base_speed g + _)). set (d' := Z.max 5 (base_speed g' + _)).
  assert (L : d <= d') by (unfold d, d'; lia).
  assert (P : 5 <= d) by (unfold d; lia).
  destruct (FLOAT_LIMIT <=? d') eqn:F'; [discriminate|]. apply Z.leb_gt in F'.
  intros E. inversion E. subst i'.
  replace (FLOAT_LIMIT <=? d) with false by (symmetry; apply Z.leb_gt; lia).
  exists (1000 / d). split; [reflexivity|]. apply Z.div_le_compat_l; lia.
Qed.

(** X5. Eating a food always returns; eating a speed_up food never
    lengthens the tick interval and eating a speed_down food never shortens
    it, whichever snake eats: where the interval can be computed after a
    speed_up food it could be computed before it and was no shorter, and
    where it can be computed before a speed_down food it can be computed
    after it and is no shorter. *)
Theorem speed_food_interval (ticks : Z) (who : Player) (food : Food)
    (g : SnakeGame) (s : Snake) :
  get_snake who g = Some s ->
  exists g',
    apply_food_effect ticks who food g = (Ret tt, g') /\
    (kind food = "speed_up" ->
     forall i', compute_interval g' = Ret i' ->
       exists i, compute_interval g = Ret i /\ i' <= i) /\
    (kind food = "speed_down" ->
     forall i, compute_interval g = Ret i ->
       exists i', compute_interval g' = Ret i' /\ i <= i').
Proof.
  intros Hs.
  destruct (apply_food_effect_run ticks who food g s Hs)
    as [Rn [Rb [Ru [Rd Rs]]]].
  destruct (String.eqb (kind food) "speed_up") eqn:Ku.
  { apply String.eqb_eq in Ku. eexists. split; [exact (Ru Ku)|]. split.
    - intros _ i'. apply compute_interval_antitone.
      destruct g as [th bs oc tp s1 s2 hs obs fs rn pa lu ui se].
      destruct who; simpl in Hs; inversion Hs; subst; simpl; lia.
    - intros Kd. rewrite Ku in Kd. discriminate. }
  destruct (String.eqb (kind food) "speed_down") eqn:Kd.
  { apply String.eqb_eq in Kd. eexists. split; [exact (Rd Kd)|]. split.
    - intros K. rewrite Kd in K. discriminate.
    - intros _ i. apply compute_interval_antitone.
      destruct g as [th bs oc tp s1 s2 hs obs fs rn pa lu ui se].
      destruct who; simpl in Hs; inversion Hs; subst; simpl; lia. }
  assert (T : exists g', apply_food_effect ticks who food g = (Ret tt, g')).
  { destruct (String.eqb (kind food) "normal") eqn:Kn;
      [eexists; apply Rn; now apply String.eqb_eq|].
    destruct (String.eqb (kind food) "bonus") eqn:Kb;
      [eexists; apply Rb; now apply String.eqb_eq|].
    destruct (String.eqb (kind food) "shrink") eqn:Ks;
      [eexists; apply Rs; now apply String.eqb_eq|].
    unfold apply_food_effect. rewrite Kn, Kb, Ku, Kd, Ks.
    eexists. reflexivity. }
  destruct T as [g' R]. exists g'. split; [exact R|]. split; intros K;
    rewrite K in *; discriminate.
Qed.

Lemma total_reversal_speed_down (now t : Z) (entries : Dict Z) :
  is_dict entries ->
  dict_get "speed_down" entries = Some t ->
  dict_get "speed_up" entries = None ->
  total_reversal now entries = if expired now ("speed_down", t) then 2 else 0.
Proof.
  unfold is_dict, dict_keys.
  induction entries as [|[k t0] rest IH]; intros D U N; [discriminate|].
  cbn [map fst distinct_keys] in D.
  apply andb_true_iff in D. destruct D as [D1 D2]. apply negb_true_iff in D1.
  cbn [dict_get] in U, N. cbn [total_reversal fst]. unfold reversal_delta.
  rewrite String.eqb_sym in U. rewrite String.eqb_sym in N.
  destruct (String.eqb k "speed_up") eqn:E; [discriminate|].
  destruct (String.eqb k "speed_down") eqn:E'.
  - apply String.eqb_eq in E'. subst k. inversion U. subst t0.
    rewrite total_reversal_neutral;
      [now destruct (expired now ("speed_down", t))|exact N|].
    destruct (dict_get "speed_down" rest) eqn:G; [|reflexivity].
    exfalso. apply dict_get_some_in in G.
    apply (existsb_eqb_false _ _ D1 "speed_down"); [|reflexivity].
    apply in_map_iff. exists ("speed_down", z). split; [reflexivity|exact G].
  - rewrite (IH D2 U N). now destruct (expired now (k, t0)).
Qed.

(** X4. With one snake, a speed food is undone exactly: from a session with
    no speed entry active, eating a speed_up or a speed_down food and letting
    the entry expire brings the speed modifier, and with it the tick
    interval, back to what it was before the food, and the entry is gone. *)
Theorem speed_food_round_one_player (g : SnakeGame) (food : Food) (t now : Z) :
  snake2 g = None ->
  kind food = "speed_up" \/ kind food = "speed_down" ->
  is_dict (special_effects g) ->
  dict_get "speed_up" (special_effects g) = None ->
  dict_get "speed_down" (special_effects g) = None ->
  SPECIAL_EFFECT_DURATION <= now - t ->
  exists g1 g2,
    apply_food_effect t P1 food g = (Ret tt, g1) /\
    expire_effects now g1 = (Ret tt, g2) /\
    speed_effect (snake1 g1) <> speed_effect (snake1 g) /\
    speed_effect (snake1 g2) = speed_effect (snake1 g) /\
    compute_interval g2 = compute_interval g /\
    dict_get (kind food) (special_effects g2) = None.
Proof.
  intros One K D U N X.
  destruct (apply_food_effect_run t P1 food g (snake1 g) eq_refl)
    as [_ [_ [Ru [Rd _]]]].
  assert (Xe : forall k, expired now (k, t) = true)
    by (intros k; apply Z.leb_le; exact X).
  assert (Fin : forall g1 delta,
            snake1 g1 = set_speed_effect (speed_effect (snake1 g) + delta)
                          (set_score (score (snake1 g) + 2) (snake1 g)) ->
            snake2 g1 = None -> base_speed g1 = base_speed g ->
            is_dict (special_effects g1) ->
            dict_get (kind food) (special_effects g1) = Some t ->
            total_reversal now (special_effects g1) = - delta ->
            delta <> 0 ->
            exists g2,
              expire_effects now g1 = (Ret tt, g2) /\
              speed_effect (snake1 g1) <> speed_effect (snake1 g) /\
              speed_effect (snake1 g2) = speed_effect (snake1 g) /\
              compute_interval g2 = compute_interval g /\
              dict_get (kind food) (special_effects g2) = None).
  { intros g1 delta S1 S2 B D1 G T Nz.
    exists (expire_all now (special_effects g1) g1).
    destruct (expire_effects_leaves_unexpired_aux now g1 D1) as [_ [Bd [E1 E2]]].
    split; [now apply expire_effects_run|].
    split; [rewrite S1; simpl; lia|].
    assert (Sp : speed_effect (snake1 (expire_all now (special_effects g1) g1))
                 = speed_effect (snake1 g))
      by (rewrite E1, T, S1; simpl; lia).
    split; [exact Sp|]. split.
    - unfold compute_interval. rewrite E2, S2, One, Sp. cbn [option_map].
      unfold board_of in Bd. inversion Bd as [[Bt Bb]]. now rewrite Bb, B.
    - apply (special_effects_expire_all_gone now _ (kind food) t);
        [now apply dict_get_some_in|apply Xe]. }
  destruct K as [K|K].
  - specialize (Ru K). eexists. eexists (expire_all now _ _).
    split; [exact Ru|].
    match type of Ru with _ = (_, ?x) => set (g1 := x) in * end.
    destruct (Fin g1 2) as [g2 [R2 F]]; try reflexivity; try lia.
    + unfold g1. simpl. rewrite One. reflexivity.
    + unfold g1. simpl. now apply is_dict_set.
    + unfold g1. simpl. rewrite K. apply dict_get_set_same.
    + rewrite (total_reversal_speed_up now t).
      * now rewrite Xe.
      * unfold g1. simpl. now apply is_dict_set.
      * unfold g1. simpl. apply dict_get_set_same.
      * unfold g1. simpl. rewrite dict_get_set_other; [exact N|discriminate].
    + rewrite (expire_effects_run now g1) in R2
        by (unfold g1; simpl; now apply is_dict_set).
      inversion R2 as [G2]. rewrite <- G2 in F.
      split; [unfold g1; simpl; now apply expire_effects_run, is_dict_set|exact F].
  - specialize (Rd K). eexists. eexists (expire_all now _ _).
    split; [exact Rd|].
    match type of Rd with _ = (_, ?x) => set (g1 := x) in * end.
    destruct (Fin g1 (-2)) as [g2 [R2 F]]; try reflexivity; try lia.
    + unfold g1. simpl. rewrite One. reflexivity.
    + unfold g1. simpl. now apply is_dict_set.
    + unfold g1. simpl. rewrite K. apply dict_get_set_same.
    + rewrite (total_reversal_speed_down now t).
      * now rewrite Xe.
      * unfold g1. simpl. now apply is_dict_set.
      * unfold g1. simpl. apply dict_get_set_same.
      * unfold g1. simpl. rewrite dict_get_set_other; [exact U|discriminate].
    + rewrite (expire_effects_run now g1) in R2
        by (unfold g1; simpl; now apply is_dict_set).
      inversion R2 as [G2]. rewrite <- G2 in F.
      split; [unfold g1; simpl; now apply expire_effects_run, is_dict_set|exact F].
Qed.

(** ** More on save and load *)

Lemma difficulty_name_resolves (g : SnakeGame) :
  let cfg := resolve DIFFICULTIES (Some (get_difficulty_name g)) medium in
  (is_preset g = true ->
   speed cfg = base_speed g /\ obstacles_of cfg = obstacle_count g)
  /\ (is_preset g = false ->
      get_difficulty_name g = "custom" /\ cfg = medium).
Proof.
  unfold get_difficulty_name, is_preset, DIFFICULTIES. cbn -[Z.eqb].
  destruct ((10 =? base_speed g) && (10 =? obstacle_count g)) eqn:E1.
  { apply andb_true_iff in E1. destruct E1 as [A B].
    apply Z.eqb_eq in A, B. cbn. split; [now split|discriminate]. }
  destruct ((15 =? base_speed g) && (20 =? obstacle_count g)) eqn:E2.
  { apply andb_true_iff in E2. destruct E2 as [A B].
    apply Z.eqb_eq in A, B. cbn. split; [now split|discriminate]. }
  destruct ((20 =? base_speed g) && (35 =? obstacle_count g)) eqn:E3.
  { apply andb_true_iff in E3. destruct E3 as [A B].
    apply Z.eqb_eq in A, B. cbn. split; [now split|discriminate]. }
  cbn. split; [discriminate|now split].
Qed.

(** X6. What else a save followed by a load restores: the theme, the
    two-player flag, the high score and the speed modifiers always, and the
    base speed and obstacle count when they are those of a preset; a session
    whose pair is no preset is saved as "custom" and comes back with the
    medium preset.  The pause flag, the running flag and the effect map are
    those of the loading session, the snakes keep their key bindings, and
    the tick clock restarts at the time of the load. *)
Theorem save_load_settings (g : SnakeGame) (f : SaveFile) (ticks : Z) :
  exists g',
    load_game (save_game Written g f) ticks g = (Ret tt, g') /\
    theme g' = theme g /\
    two_player g' = two_player g /\
    high_score g' = high_score g /\
    speed_effects g' = speed_effects g /\
    (is_preset g = true ->
     base_speed g' = base_speed g /\ obstacle_count g' = obstacle_count g) /\
    (is_preset g = false -> base_speed g' = 15 /\ obstacle_count g' = 20) /\
    (paused g', running g', special_effects g') =
      (paused g, running g, special_effects g) /\
    controls (snake1 g') = controls (snake1 g) /\
    option_map controls (snake2 g') = option_map controls (snake2 g) /\
    last_update g' = ticks.
Proof.
  exists (loaded (saved_state g) ticks g).
  split.
  { unfold save_game, save_state. rewrite saved_record_typed.
    apply load_game_record. apply second_snake_fits_saved. }
  destruct (difficulty_name_resolves g) as [P1' P2'].
  unfold loaded. cbn [theme two_player high_score base_speed obstacle_count
    paused running special_effects last_update snake1 snake2 saved_state
    sv_theme sv_difficulty sv_two_player sv_high_score sv_snake1 sv_snake2
    or_default].
  split; [unfold get_theme_name; now destruct (theme g)|].
  split; [reflexivity|]. split; [reflexivity|].
  split; [unfold speed_effects; simpl; now destruct (snake2 g)|].
  split; [exact P1'|].
  split; [intros H; destruct (P2' H) as [_ E]; now rewrite E|].
  split; [reflexivity|]. split; [reflexivity|].
  split; [now destruct (snake2 g)|reflexivity].
Qed.

(** X7. A record that holds a second snake, loaded into a session that has
    none, makes [load_game] raise [AttributeError], and the session is left
    half loaded: theme, difficulty, two-player flag and the first snake are
    already those of the record, while obstacles, foods, high score and tick
    clock are still the session's own and there is still no second snake. *)
Theorem load_second_snake_into_one_player (r : SavedState) (s2 : SavedSnake)
    (ticks : Z) (g : SnakeGame) :
  sv_snake2 r = Some (Some s2) ->
  snake2 g = None ->
  exists g',
    load_game (Holds (record_json r)) ticks g = (Raise AttributeError, g') /\
    theme g' = resolve THEMES (sv_theme r) Classic /\
    base_speed g' = speed (resolve DIFFICULTIES (sv_difficulty r) medium) /\
    two_player g' = or_default (sv_two_player r) false /\
    snake1 g' =
      restored_snake (role_color (theme g') "snake1") (controls (snake1 g))
        (sv_snake1 r) /\
    snake2 g' = None /\
    (obstacles g', foods g', high_score g', last_update g') =
      (obstacles g, foods g, high_score g, last_update g).
Proof.
  intros E2 One. unfold load_game, load_state. rewrite truthy_record.
  change (dict_item "classic" THEMES) with (Ret Classic).
  change (dict_item "medium" DIFFICULTIES) with (Ret medium).
  unfold bind, lift, get, modify, ret. run_load.
  rewrite record_theme.
  rewrite (resolve_lookup THEMES (sv_theme r) "classic" Classic eq_refl).
  rewrite record_difficulty.
  rewrite (resolve_lookup DIFFICULTIES (sv_difficulty r) "medium" medium eq_refl).
  rewrite record_two_player. run_load.
  rewrite record_snake1.
  destruct (theme_item_role (resolve THEMES (sv_theme r) Classic)) as [T1 [T2 _]].
  destruct g as [th bs oc tp s1 s2' hs obs fs rn pa lu ui eff].
  simpl in One. subst s2'.
  run_load. rewrite T1.
  rewrite restore_snake1_run. run_load.
  rewrite record_snake2_get, E2, truthy_saved_snake.
  rewrite (record_snake2_item r s2 E2).
  run_load. rewrite T2.
  eexists. split; [reflexivity|]. simpl. repeat split.
Qed.

(** ** The body as a grid path *)

Lemma unit_dir_cases (d : Cell) :
  unit_dir d = true <->
  d = (10, 0) \/ d = (-10, 0) \/ d = (0, 10) \/ d = (0, -10).
Proof.
  unfold unit_dir, GRID_SIZE. rewrite !orb_true_iff, !cell_eqb_eq. tauto.
Qed.

Lemma contiguous_snoc (b : list Cell) (h x : Cell) :
  contiguous (b ++ [h]) = true ->
  unit_dir (fst x - fst h, snd x - snd h) = true ->
  contiguous (b ++ [h; x]) = true.
Proof.
  induction b as [|c b IH]; intros C U.
  - simpl. now rewrite U.
  - destruct b as [|c' b].
    + simpl in *. apply andb_true_iff in C. destruct C as [C _].
      now rewrite C, U.
    + cbn [app contiguous] in *. apply andb_true_iff in C. destruct C as [C1 C2].
      rewrite C1. cbn [andb]. now apply IH.
Qed.

Lemma contiguous_tl (b : list Cell) :
  contiguous b = true -> contiguous (tl b) = true.
Proof.
  destruct b as [|c [|c' b]]; intros C; try reflexivity.
  cbn [tl]. cbn [contiguous] in C. apply andb_true_iff in C. tauto.
Qed.

Lemma contiguous_skipn (k : nat) (b : list Cell) :
  contiguous b = true -> contiguous (skipn k b) = true.
Proof.
  revert b. induction k as [|k IH]; intros b C; [exact C|].
  destruct b as [|c b]; [reflexivity|]. cbn [skipn]. apply IH.
  exact (contiguous_tl (c :: b) C).
Qed.

Lemma contiguous_last_two (l : list Cell) (n h : Cell) :
  contiguous (l ++ [n; h]) = true ->
  unit_dir (fst h - fst n, snd h - snd n) = true.
Proof.
  induction l as [|c l IH]; intros C.
  - simpl in C. now apply andb_true_iff in C.
  - apply IH. exact (contiguous_tl _ C).
Qed.

Lemma handle_event_run (e : Event) (s : Snake) :
  exists p,
    handle_event e s = (Ret tt, set_pending_dir p s) /\
    (p = pending_dir s \/ unit_dir p = true).
Proof.
  assert (Same : set_pending_dir (pending_dir s) s = s) by (now destruct s).
  destruct e as [|key|].
  - exists (pending_dir s). rewrite Same. split; [reflexivity|now left].
  - unfold handle_event, bind, get, modify, ret.
    destruct (key =? key_left (controls s));
      [eexists; split; [reflexivity|now right]|].
    destruct (key =? key_right (controls s));
      [eexists; split; [reflexivity|now right]|].
    destruct (key =? key_up (controls s));
      [eexists; split; [reflexivity|now right]|].
    destruct (key =? key_down (controls s));
      [eexists; split; [reflexivity|now right]|].
    exists (pending_dir s). rewrite Same. split; [reflexivity|now left].
  - exists (pending_dir s). rewrite Same. split; [reflexivity|now left].
Qed.

Lemma on_grid_path_step (op : SnakeOp) (s : Snake) :
  on_grid_path s ->
  exists s', snake_op op s = (Ret tt, s') /\ on_grid_path s'.
Proof.
  intros [Hd [Hp [Hc Hb]]]. destruct op as [e| |]; cbn [snake_op].
  - destruct (handle_event_run e s) as [p [R [P|P]]];
      exists (set_pending_dir p s); (split; [exact R|]);
      unfold on_grid_path; simpl; repeat split; try assumption.
    now rewrite P.
  - destruct (snoc_cases _ Hb) as [front [h E]].
    destruct (current_dir_total s Hb) as [cur Hcur].
    assert (Ucur : unit_dir cur = true).
    { destruct front as [|c front].
      - rewrite current_dir_short in Hcur by (rewrite E; simpl; lia).
        inversion Hcur. now subst.
      - assert (Hf : c :: front <> []) by discriminate.
        destruct (snoc_cases _ Hf) as [l [n E']].
        assert (E2 : body s = l ++ [n; h])
          by (rewrite E, E', <- app_assoc; reflexivity).
        rewrite (current_dir_long s l n h E2) in Hcur. inversion Hcur.
        apply (contiguous_last_two l). now rewrite <- E2. }
    assert (Ucm : unit_dir (committed s cur) = true).
    { unfold committed. now destruct (keeps_current (pending_dir s) cur). }
    pose proof (Snake_update_run s front h cur E Hcur) as R. cbv zeta in R.
    set (nh := (fst h + fst (committed s cur), snd h + snd (committed s cur))) in *.
    assert (Cn : contiguous (body s ++ [nh]) = true).
    { rewrite E, <- app_assoc. apply contiguous_snoc; [now rewrite <- E|].
      unfold nh. cbn [fst snd].
      replace (fst h + fst (committed s cur) - fst h) with (fst (committed s cur))
        by lia.
      replace (snd h + snd (committed s cur) - snd h) with (snd (committed s cur))
        by lia.
      now rewrite <- surjective_pairing. }
    eexists. split; [exact R|].
    destruct (0 <? grow s); unfold on_grid_path; simpl;
      repeat split; try assumption.
    + intros C. now destruct (body s).
    + now apply contiguous_tl.
    + intros C. apply (f_equal (@length Cell)) in C. rewrite E in C.
      destruct front; simpl in C; rewrite ?length_app in C; simpl in C; lia.
  - unfold shrink, bind, add_score, modify, get, ret. cbn [body set_score].
    destruct (3 <? length (body s))%nat eqn:L.
    + apply Nat.ltb_lt in L. eexists. split; [reflexivity|].
      unfold on_grid_path.
      cbn [dir pending_dir body set_grow set_body set_score].
      repeat split; try assumption.
      * now apply contiguous_skipn.
      * intros C. apply (f_equal (@length Cell)) in C.
        rewrite length_skipn in C. cbn [length] in C.
        pose proof (Nat.div_mod_eq (length (body s)) 2) as DM.
        lia.
    + eexists. split; [reflexivity|].
      unfold on_grid_path. cbn [dir pending_dir body set_score].
      repeat split; assumption.
Qed.

(** X8. A snake made by [Snake.__init__] and then driven by any sequence of
    key events, advance steps and shrink effects never raises; throughout,
    its body is a non-empty chain of cells each one grid step from the one
    before, and its committed and pending directions are among the four grid
    steps. *)
Theorem snake_stays_on_grid_path (c : Color) (start_pos : Cell)
    (ctl : Controls) (initial_len : Z) (ops : list SnakeOp) :
  exists s',
    for_each ops snake_op (Snake_init c start_pos ctl initial_len) = (Ret tt, s')
    /\ on_grid_path s'.
Proof.
  assert (I : on_grid_path (Snake_init c start_pos ctl initial_len)).
  { unfold on_grid_path, Snake_init. simpl. repeat split. discriminate. }
  revert I. generalize (Snake_init c start_pos ctl initial_len).
  induction ops as [|op ops IH]; intros s I.
  - exists s. split; [reflexivity|exact I].
  - destruct (on_grid_path_step op s I) as [s1 [R1 I1]].
    destruct (IH s1 I1) as [s' [R' I']].
    exists s'. split; [|exact I'].
    cbn [for_each]. now rewrite (bind_ret _ R1).
Qed.

(** ** The frame update never raises *)

Lemma on_grid_path_same (s s' : Snake) :
  dir s' = dir s -> pending_dir s' = pending_dir s -> body s' = body s ->
  on_grid_path s -> on_grid_path s'.
Proof. unfold on_grid_path. intros -> -> ->. tauto. Qed.

Lemma snakes_present (who : Player) (g : SnakeGame) :
  In who (snakes g) <-> exists s, get_snake who g = Some s.
Proof.
  unfold snakes. destruct who; simpl.
  - split; [intros _; now exists (snake1 g)|intros _; now left].
  - destruct (snake2 g); simpl; split.
    + intros _. now eexists.
    + intros _. right. now left.
    + intros [C|[]]. discriminate.
    + intros [s C]. discriminate.
Qed.

Lemma sound_put_snake (who : Player) (s s' : Snake) (g : SnakeGame) :
  sound g -> get_snake who g = Some s -> on_grid_path s' ->
  sound (put_snake who s' g) /\ snakes (put_snake who s' g) = snakes g.
Proof.
  intros [Sn Se] Hs P. split; [split|].
  - intros w x Hx. destruct who, w; simpl in *.
    + inversion Hx. now subst.
    + now apply (Sn P2).
    + now apply (Sn P1).
    + inversion Hx. now subst.
  - now destruct who.
  - unfold snakes. destruct who; simpl in *; [reflexivity|]. now rewrite Hs.
Qed.

Lemma sound_set_special_effects (d : Dict Z) (g : SnakeGame) :
  sound g -> is_dict d ->
  sound (set_special_effects d g) /\ snakes (set_special_effects d g) = snakes g.
Proof. intros [Sn Se] D. split; [split|]; [exact Sn|exact D|reflexivity]. Qed.

Lemma well_behaved_on_snake (who : Player) (c : M Snake unit) :
  (forall s, on_grid_path s -> exists s', c s = (Ret tt, s') /\ on_grid_path s') ->
  forall g s, sound g -> get_snake who g = Some s ->
    exists g', on_snake who c g = (Ret tt, g') /\ sound g' /\ snakes g' = snakes g.
Proof.
  intros Hc g s So Hs. destruct So as [Sn Se].
  destruct (Hc s (Sn who s Hs)) as [s' [R P]].
  exists (put_snake who s' g). split; [now apply on_snake_run with (s := s)|].
  now apply (sound_put_snake who s s' g (conj Sn Se) Hs P).
Qed.

Lemma kept_path (f : Snake -> Snake) :
  (forall s, dir (f s) = dir s /\ pending_dir (f s) = pending_dir s
             /\ body (f s) = body s) ->
  forall s, on_grid_path s ->
    exists s', modify f s = (Ret tt, s') /\ on_grid_path s'.
Proof.
  intros Hf s P. exists (f s). split; [reflexivity|].
  destruct (Hf s) as [A [B C]]. now apply (on_grid_path_same s).
Qed.

Lemma apply_food_effect_sound (ticks : Z) (who : Player) (food : Food)
    (g : SnakeGame) (s : Snake) :
  sound g -> get_snake who g = Some s ->
  exists g',
    apply_food_effect ticks who food g = (Ret tt, g') /\
    sound g' /\ snakes g' = snakes g.
Proof.
  intros So Hs. unfold apply_food_effect.
  assert (Two : forall a b : Snake -> Snake,
            (forall x, dir (a x) = dir x /\ pending_dir (a x) = pending_dir x
                       /\ body (a x) = body x) ->
            (forall x, dir (b x) = dir x /\ pending_dir (b x) = pending_dir x
                       /\ body (b x) = body x) ->
            exists g', on_snake who (modify a ;;; modify b) g = (Ret tt, g')
                       /\ sound g' /\ snakes g' = snakes g).
  { intros a b Ha Hb. apply (well_behaved_on_snake who) with (s := s);
      [|exact So|exact Hs].
    intros x P. exists (b (a x)). split; [reflexivity|].
    destruct (Ha x) as [A1 [A2 A3]]. destruct (Hb (a x)) as [B1 [B2 B3]].
    apply (on_grid_path_same x); congruence. }
  assert (Arm : forall key g1,
            sound g1 -> snakes g1 = snakes g ->
            exists g', arm_effect key ticks g1 = (Ret tt, g')
                       /\ sound g' /\ snakes g' = snakes g).
  { intros key g1 S1 N1. eexists. split; [reflexivity|].
    destruct (sound_set_special_effects
                (dict_set key ticks (special_effects g1)) g1 S1) as [A B].
    - apply is_dict_set. apply S1.
    - split; [exact A|]. now rewrite B. }
  destruct (String.eqb (kind food) "normal");
    [apply Two; intros x; repeat split|].
  destruct (String.eqb (kind food) "bonus");
    [apply Two; intros x; repeat split|].
  destruct (String.eqb (kind food) "speed_up").
  { destruct (Two (fun s => set_score (score s + 2) s)
                  (fun s => set_speed_effect (speed_effect s + 2) s))
      as [g1 [R1 [S1 N1]]]; try (intros x; repeat split).
    unfold add_score, add_speed_effect. rewrite (bind_ret _ R1).
    now apply Arm. }
  destruct (String.eqb (kind food) "speed_down").
  { destruct (Two (fun s => set_score (score s + 2) s)
                  (fun s => set_speed_effect (speed_effect s + -2) s))
      as [g1 [R1 [S1 N1]]]; try (intros x; repeat split).
    unfold add_score, add_speed_effect. rewrite (bind_ret _ R1).
    now apply Arm. }
  destruct (String.eqb (kind food) "shrink").
  { apply (well_behaved_on_snake who) with (s := s); [|exact So|exact Hs].
    intros x P. exact (on_grid_path_step OpShrink x P). }
  exists g. split; [reflexivity|]. split; [exact So|reflexivity].
Qed.

Lemma keeps_collision_loop : keeps_effects collision_loop.
Proof.
  unfold collision_loop, collide, head_of, kill, when.
  keeps.
Qed.

Lemma collision_loop_sound (g : SnakeGame) :
  sound g ->
  exists g',
    collision_loop g = (Ret tt, g') /\ sound g' /\ snakes g' = snakes g.
Proof.
  intros So. destruct So as [Sn Se].
  assert (Hb : forall who s, get_snake who g = Some s -> body s <> [])
    by (intros who s Hs; apply (Sn who s Hs)).
  destruct (item_neg_nonempty _ (Hb P1 (snake1 g) eq_refl)) as [h1 H1].
  destruct (collision_loop_run g h1 H1 (fun s2 E => Hb P2 s2 E))
    as [g' [R [N F]]].
  exists g'. split; [exact R|]. split; [|exact N]. split.
  - intros who s' Hs'.
    assert (I : In who (snakes g)) by (rewrite <- N; apply snakes_present; eauto).
    apply snakes_present in I. destruct I as [s Hs].
    destruct (item_neg_nonempty _ (Hb who s Hs)) as [h Hh].
    rewrite (F who s h Hs Hh) in Hs'. inversion Hs'.
    apply (on_grid_path_same s); try reflexivity. exact (Sn who s Hs).
  - now rewrite (keeps_collision_loop g _ g' R).
Qed.

Section SafeFrames.

Variable spawn_foods : M SnakeGame unit.
Variable handle_game_over : M SnakeGame unit.
Hypothesis spawn_ok : well_behaved spawn_foods.

Lemma for_each_sound {A} (xs : list A) (body : A -> M SnakeGame unit)
    (g0 : SnakeGame) :
  (forall x g, In x xs -> sound g -> snakes g = snakes g0 ->
     exists g', body x g = (Ret tt, g') /\ sound g' /\ snakes g' = snakes g0) ->
  forall g, sound g -> snakes g = snakes g0 ->
    exists g', for_each xs body g = (Ret tt, g') /\ sound g'
               /\ snakes g' = snakes g0.
Proof.
  induction xs as [|x xs IH]; intros Hb g So N.
  - exists g. split; [reflexivity|]. now split.
  - destruct (Hb x g (or_introl eq_refl) So N) as [g1 [R1 [S1 N1]]].
    destruct (IH (fun y g' I => Hb y g' (or_intror I)) g1 S1 N1)
      as [g2 [R2 [S2 N2]]].
    exists g2. split; [|now split]. cbn [for_each]. now rewrite (bind_ret _ R1).
Qed.

Lemma eat_foods_sound (ticks : Z) (who : Player) (g0 g : SnakeGame) :
  In who (snakes g0) -> sound g -> snakes g = snakes g0 ->
  exists g',
    eat_foods spawn_foods ticks who g = (Ret tt, g') /\ sound g'
    /\ snakes g' = snakes g0.
Proof.
  intros I So N. rewrite <- N in I. apply snakes_present in I.
  destruct I as [s Hs].
  assert (Hb : body s <> []) by (apply (proj1 So who s Hs)).
  destruct (item_neg_nonempty _ Hb) as [h Hh].
  unfold eat_foods. rewrite (bind_ret _ (head_of_run who g s h Hs Hh)).
  unfold bind at 1. unfold get at 1.
  set (eaten := filter (eats h) (foods g)).
  destruct (for_each_sound eaten (apply_food_effect ticks who) g0) with (g := g)
    as [g1 [R1 [S1 N1]]]; try assumption.
  { intros f x _ Sx Nx.
    assert (Ix : In who (snakes x)).
    { rewrite Nx, <- N. apply snakes_present. eauto. }
    apply snakes_present in Ix. destruct Ix as [sx Hx].
    destruct (apply_food_effect_sound ticks who f x sx Sx Hx) as [x' [R [S' N']]].
    exists x'. split; [exact R|]. split; [exact S'|]. now rewrite N'. }
  rewrite (bind_ret _ R1). unfold bind at 1. unfold modify at 1.
  set (g2 := set_foods (filter (fun f => negb (eats h f)) (foods g1)) g1).
  assert (S2 : sound g2) by exact S1.
  assert (N2 : snakes g2 = snakes g0) by exact N1.
  destruct eaten.
  - exists g2. split; [reflexivity|]. now split.
  - destruct (spawn_ok g2 S2) as [g3 [R3 [S3 N3]]].
    exists g3. split; [exact R3|]. split; [exact S3|]. now rewrite N3.
Qed.

Lemma check_collisions_upto (ticks : Z) (g : SnakeGame) :
  sound g ->
  exists g2,
    sound g2 /\ snakes g2 = snakes g /\
    check_collisions spawn_foods handle_game_over ticks g =
      if all_dead g2 then handle_game_over g2 else (Ret tt, g2).
Proof.
  intros So. rewrite check_collisions_first_loop.
  destruct (collision_loop_sound g So) as [g1 [R1 [S1 N1]]].
  rewrite (bind_ret _ R1).
  destruct (for_each_sound (snakes g) (eat_foods spawn_foods ticks) g)
    with (g := g1) as [g2 [R2 [S2 N2]]]; try assumption.
  { intros who x I Sx Nx. now apply eat_foods_sound. }
  rewrite (bind_ret _ R2). exists g2. split; [exact S2|]. split; [exact N2|].
  unfold bind, get, when. destruct (all_dead g2); reflexivity.
Qed.

Lemma expire_effects_sound (now : Z) (g : SnakeGame) :
  sound g ->
  exists g',
    expire_effects now g = (Ret tt, g') /\ sound g' /\ snakes g' = snakes g.
Proof.
  intros [Sn Se]. exists (expire_all now (special_effects g) g).
  split; [now apply expire_effects_run|].
  destruct (snakes_expire_all now (special_effects g) g) as [E1 E2].
  split; [split|].
  - intros who s' Hs'. destruct who; simpl in Hs'.
    + inversion Hs'. rewrite E1.
      apply (on_grid_path_same (snake1 g)); try reflexivity.
      now apply (Sn P1).
    + rewrite E2 in Hs'. destruct (snake2 g) as [s2|] eqn:G2; [|discriminate].
      inversion Hs'. apply (on_grid_path_same s2); try reflexivity.
      now apply (Sn P2).
  - now apply is_dict_expire_all.
  - unfold snakes. rewrite E2. now destruct (snake2 g).
Qed.

Lemma tick_upto (now ticks : Z) (g : SnakeGame) :
  sound g ->
  exists g3,
    sound g3 /\ snakes g3 = snakes g /\
    tick spawn_foods handle_game_over now ticks g =
      if all_dead g3
      then (handle_game_over ;;; modify (set_last_update now)) g3
      else (Ret tt, set_last_update now g3).
Proof.
  intros So. unfold tick.
  destruct (well_behaved_on_snake P1 Snake_update
              (on_grid_path_step OpUpdate) g (snake1 g) So eq_refl)
    as [g1 [R1 [S1 N1]]].
  rewrite (bind_ret _ R1). unfold bind at 1. unfold get at 1.
  assert (T : exists g2,
            match snake2 g1 with
            | Some _ => on_snake P2 Snake_update
            | None => ret tt
            end g1 = (Ret tt, g2) /\ sound g2 /\ snakes g2 = snakes g).
  { destruct (snake2 g1) as [s2|] eqn:G2.
    - destruct (well_behaved_on_snake P2 Snake_update
                  (on_grid_path_step OpUpdate) g1 s2 S1 G2)
        as [g2 [R2 [S2 N2]]].
      exists g2. split; [exact R2|]. split; [exact S2|]. now rewrite N2.
    - exists g1. split; [reflexivity|]. now split. }
  destruct T as [g2 [R2 [S2 N2]]]. rewrite (bind_ret _ R2).
  destruct (check_collisions_upto ticks g2 S2) as [g3 [S3 [N3 R3]]].
  exists g3. split; [exact S3|]. split; [now rewrite N3|].
  unfold bind at 1. rewrite R3. destruct (all_dead g3); reflexivity.
Qed.

(** X9. The frame update raises nothing of its own.  Let [spawn_foods]
    return, keep the session sound and neither add nor remove a snake, and
    let [handle_game_over] be anything at all.  From a session in which
    every snake is on a grid path and the effect map is a dict, and which
    is paused or has a divisor that [float] can hold, so that
    [compute_interval] does not raise [OverflowError], [update] either
    returns, with no snake added or removed and the session again of that
    kind; or it reaches the game over prompt: every snake is dead, the
    session there is again of that kind with the same snakes, and the frame
    is [handle_game_over] run on it, followed by the setting of the tick
    clock and the expiry loop. *)
Theorem update_sound (now ticks : Z) (g : SnakeGame) :
  sound g ->
  (paused g = false -> compute_interval g <> Raise OverflowError) ->
  (exists g',
     update spawn_foods handle_game_over now ticks g = (Ret tt, g')
     /\ sound g' /\ snakes g' = snakes g)
  \/ (exists g3,
        sound g3 /\ snakes g3 = snakes g /\ all_dead g3 = true /\
        update spawn_foods handle_game_over now ticks g =
          (handle_game_over ;;; modify (set_last_update now) ;;;
           expire_effects now) g3).
Proof.
  intros So Hc. destruct (paused g) eqn:P.
  - left. exists (set_last_update now g).
    split; [unfold update, bind, get; now rewrite P|]. now split.
  - assert (E : exists i, compute_interval g = Ret i).
    { specialize (Hc eq_refl). rewrite compute_interval_run in *.
      cbv zeta in *. destruct (float_overflows _);
        [now elim Hc | eexists; reflexivity]. }
    destruct E as [i E].
    assert (U : update spawn_foods handle_game_over now ticks g =
                (when (tick_due now i g)
                   (tick spawn_foods handle_game_over now ticks) ;;;
                 expire_effects now) g).
    { unfold update, bind at 1, get at 1. rewrite P.
      unfold bind at 1, lift at 1. now rewrite E. }
    rewrite U. unfold when. destruct (tick_due now i g).
    + destruct (tick_upto now ticks g So) as [g3 [S3 [N3 R3]]].
      destruct (all_dead g3) eqn:A.
      * right. exists g3. split; [exact S3|]. split; [exact N3|].
        split; [exact A|]. unfold bind at 1. rewrite R3. unfold bind.
        destruct (handle_game_over g3) as [[a|e|] g4]; reflexivity.
      * left. rewrite (bind_ret _ R3).
        assert (S4 : sound (set_last_update now g3)) by exact S3.
        destruct (expire_effects_sound now _ S4) as [g4 [R4 [S5 N5]]].
        exists g4. split; [exact R4|]. split; [exact S5|].
        rewrite N5. exact N3.
    + left. unfold bind, ret.
      destruct (expire_effects_sound now g So) as [g2 [R2 [S2 N2]]].
      exists g2. rewrite R2. now split.
Qed.

End SafeFrames.

(** ** The high score *)

(** X10. The high score file: a score that was written is read back; an
    absent or corrupt file, a file whose content is not a record and a
    record without a [high_score] entry all read as 0; and reading never
    raises. *)
Theorem high_score_file (f : SaveFile) :
  (forall v, load_high_score (save_high_score Written v f) = Ret v)
  /\ (forall e, load_high_score f <> Raise e)
  /\ load_high_score Absent = Ret 0
  /\ load_high_score Corrupt = Ret 0
  /\ (forall j, (forall o, j <> JObj o) -> load_high_score (Holds j) = Ret 0)
  /\ (forall o, dict_get "high_score" o = None ->
                load_high_score (Holds (JObj o)) = Ret 0).
Proof.
  split; [reflexivity|]. split.
  { intros e. unfold load_high_score. destruct f as [| |data]; try discriminate.
    destruct (py_get data "high_score" (JNum 0)) as [v|e'|]; try discriminate.
    destruct (py_int v); discriminate. }
  split; [reflexivity|]. split; [reflexivity|]. split.
  - intros j H. destruct j; try reflexivity. now elim (H o).
  - intros o H. unfold load_high_score, py_get. now rewrite H.
Qed.

(** X11. At game over the session's high score becomes the larger of its
    old value and the combined score of the snakes, so it never goes down,
    and nothing else in the session changes.  The file is rewritten exactly
    when the combined score beats the session's high score.  If the file
    read as the session's high score before, and the write succeeds, it
    reads as the session's high score afterwards. *)
Theorem settle_high_score_max (w : WriteOutcome) (g : SnakeGame) (f : SaveFile) :
  let g' := fst (settle_high_score w g f) in
  let f' := snd (settle_high_score w g f) in
  high_score g' = Z.max (high_score g) (total_score g)
  /\ high_score g <= high_score g'
  /\ g' = set_high_score (high_score g') g
  /\ (total_score g <= high_score g -> f' = f)
  /\ (high_score g < total_score g ->
      f' = save_high_score w (total_score g) f)
  /\ (load_high_score f = Ret (high_score g) -> w = Written ->
      load_high_score f' = Ret (high_score g')).
Proof.
  unfold settle_high_score. cbv zeta.
  destruct (high_score g <? total_score g) eqn:E; simpl.
  - apply Z.ltb_lt in E. repeat split; try lia.
    intros _ W. subst w. reflexivity.
  - apply Z.ltb_ge in E. repeat split; try lia; try tauto.
    now destruct g.
Qed.

(** ** Random placement *)

Lemma round_div_bounds (n : Z) :
  0 <= n ->
  n / 10 <= round_div n 10 <= n / 10 + 1.
Proof.
  intros H. unfold round_div. cbv zeta.
  destruct (2 * (n mod 10) <? 10); [lia|].
  destruct (10 <? 2 * (n mod 10)); [lia|].
  destruct (Z.even (n / 10)); lia.
Qed.

Lemma randrange_run (stop : Z) (r : Rng) :
  0 < stop ->
  exists v r', randrange 0 stop r = (Ret v, r') /\ 0 <= v < stop.
Proof.
  intros H. unfold randrange, bind, draw, ret.
  eexists. eexists. split; [reflexivity|].
  rewrite Z.sub_0_r. simpl. apply Z.mod_pos_bound. exact H.
Qed.

Lemma coordinate_on_grid (v m : Z) :
  0 <= v < m - 10 -> m mod 10 = 0 ->
  let x := round_div v 10 * 10 in
  0 <= x <= m - 10 /\ x mod 10 = 0.
Proof.
  intros Hv Hm x. pose proof (round_div_bounds v (proj1 Hv)) as B.
  pose proof (Z.div_mod m 10 ltac:(lia)) as Dm.
  pose proof (Z.div_mod v 10 ltac:(lia)) as Dv.
  pose proof (Z.mod_pos_bound v 10 ltac:(lia)) as Bv.
  pose proof (Z.div_pos v 10 (proj1 Hv) ltac:(lia)) as P.
  assert (Q : v / 10 <= m / 10 - 2) by lia.
  unfold x. split; [lia|apply Z.mod_mul; lia].
Qed.


(** On the game's own board. *)
Lemma grid_pos_random_board (r : Rng) :
  exists p r',
    grid_pos_random DIS_WIDTH DIS_HEIGHT r = (Ret p, r') /\ board_cell p = true.
Proof.
  destruct (randrange_run (DIS_WIDTH - 10) r ltac:(unfold DIS_WIDTH; lia))
    as [x [r1 [Rx Bx]]].
  destruct (randrange_run (DIS_HEIGHT - 10) r1 ltac:(unfold DIS_HEIGHT; lia))
    as [y [r2 [Ry By]]].
  unfold grid_pos_random, GRID_SIZE.
  rewrite (bind_ret _ Rx), (bind_ret _ Ry).
  eexists. eexists. split; [reflexivity|].
  destruct (coordinate_on_grid x DIS_WIDTH Bx eq_refl) as [X1 X2].
  destruct (coordinate_on_grid y DIS_HEIGHT By eq_refl) as [Y1 Y2].
  unfold board_cell, aligned, out_of_bounds, GRID_SIZE. cbn [fst snd].
  rewrite X2, Y2. unfold DIS_WIDTH, DIS_HEIGHT in *.
  apply andb_true_iff. split; [reflexivity|].
  apply negb_true_iff. rewrite !orb_false_iff.
  repeat split; try (apply Z.ltb_ge; lia); apply Z.leb_gt; lia.
Qed.

Lemma cell_in_iff (c : Cell) (l : list Cell) : cell_in c l = true <-> In c l.
Proof.
  unfold cell_in. rewrite existsb_exists. split.
  - intros [x [I E]]. apply cell_eqb_eq in E. now subst.
  - intros I. exists c. split; [exact I|apply cell_eqb_refl].
Qed.

Lemma find_free_pos_loop_run (left : nat) (taken : list Cell) :
  forall r,
    exists p r',
      find_free_pos_loop left taken r = (Ret p, r') /\
      board_cell p = true /\
      (cell_in p taken = false \/ p = (GRID_SIZE, GRID_SIZE)).
Proof.
  induction left as [|left IH]; intros r.
  - exists (GRID_SIZE, GRID_SIZE), r. split; [reflexivity|].
    split; [reflexivity|now right].
  - cbn [find_free_pos_loop].
    destruct (grid_pos_random_board r) as [p [r1 [R1 B1]]].
    rewrite (bind_ret _ R1).
    destruct (cell_in p taken) eqn:T; cbn [negb].
    + apply IH.
    + exists p, r1. split; [reflexivity|]. split; [exact B1|now left].
Qed.


Lemma create_obstacles_loop_run (left : nat) (count : Z) (exclude : list Cell) :
  forall placed r,
    NoDup placed ->
    (forall p, In p placed -> ~ In p exclude /\ board_cell p = true) ->
    Z.of_nat (length placed) <= Z.max 0 count ->
    exists l r',
      create_obstacles_loop left count exclude placed r = (Ret l, r') /\
      NoDup l /\
      (forall p, In p l -> ~ In p exclude /\ board_cell p = true) /\
      Z.of_nat (length l) <= Z.max 0 count /\
      (exists more, l = placed ++ more).
Proof.
  induction left as [|left IH]; intros placed r N P L.
  - exists placed, r. split.
    + cbn [create_obstacles_loop].
      now destruct (Z.of_nat (length placed) <? count).
    + repeat split; try assumption; try apply P; try assumption.
      exists []. now rewrite app_nil_r.
  - cbn [create_obstacles_loop].
    destruct (Z.of_nat (length placed) <? count) eqn:C.
    + apply Z.ltb_lt in C.
      destruct (grid_pos_random_board r) as [p [r1 [R1 B1]]].
      rewrite (bind_ret _ R1).
      destruct (cell_in p exclude) eqn:X; [apply IH; assumption|].
      destruct (cell_in p placed) eqn:Y; cbn [negb]; [apply IH; assumption|].
      destruct (IH (placed ++ [p]) r1) as [l [r' [R [Nl [Pl [Ll [more M]]]]]]].
      * apply NoDup_app; [exact N|repeat constructor; intros []| ].
        intros a Ia [Ea|[]]. subst a. apply cell_in_iff in Ia. congruence.
      * intros q Iq. apply in_app_iff in Iq. destruct Iq as [Iq|[Iq|[]]].
        -- now apply P.
        -- subst q. split; [|exact B1]. intros I. apply cell_in_iff in I.
           congruence.
      * rewrite length_app. simpl. lia.
      * exists l, r'. split; [exact R|]. repeat split; try assumption;
          try apply Pl; try assumption.
        exists ([p] ++ more). now rewrite app_assoc.
    + exists placed, r. split; [reflexivity|].
      repeat split; try assumption; try apply P; try assumption.
      exists []. now rewrite app_nil_r.
Qed.

(** [create_obstacles], whatever the generator yields. *)
Lemma create_obstacles_run (count : Z) (exclude : list Cell) (r : Rng) :
  exists l r',
    create_obstacles count exclude r = (Ret l, r') /\
    NoDup l /\
    (forall p, In p l -> ~ In p exclude /\ board_cell p = true) /\
    Z.of_nat (length l) <= Z.max 0 count.
Proof.
  destruct (create_obstacles_loop_run (Z.to_nat MAX_ATTEMPTS) count exclude [] r)
    as [l [r' [R [N [P [L _]]]]]].
  - constructor.
  - intros p [].
  - simpl. lia.
  - exists l, r'. now repeat split; try assumption; try apply P.
Qed.

(** X14. [create_obstacles] always returns, with at most [count] cells (none
    for a negative count), no cell twice, no cell of the excluded set, and
    every cell on the board. *)
Theorem create_obstacles_distinct (count : Z) (exclude : list Cell) (r : Rng) :
  exists l r',
    create_obstacles count exclude r = (Ret l, r') /\
    NoDup l /\
    (forall p, In p l -> ~ In p exclude /\ board_cell p = true) /\
    Z.of_nat (length l) <= Z.max 0 count.
Proof. exact (create_obstacles_run count exclude r). Qed.

Lemma theme_item_special (t : Theme) (k : string) :
  In k SPECIAL_TYPES -> theme_item t k = Ret (role_color t k).
Proof.
  intros [E|[E|[E|[E|[]]]]]; subst k; now destruct t.
Qed.

Lemma choice_special (r : Rng) :
  exists k r', choice SPECIAL_TYPES "" r = (Ret k, r') /\ In k SPECIAL_TYPES.
Proof.
  unfold choice, bind, draw, ret. eexists. eexists. split; [reflexivity|].
  apply nth_In. simpl length.
  pose proof (Z.mod_pos_bound (r 0%nat) 4 ltac:(lia)). lia.
Qed.

(** [spawn_foods], whatever the generator yields. *)
Lemma spawn_foods_run (g : SnakeGame) (r : Rng) :
  exists g' r' f1 rest,
    spawn_foods g r = (Ret g', r') /\
    g' = set_foods (foods g ++ f1 :: rest) g /\
    kind f1 = "normal" /\
    food_color f1 = role_color (theme g) "food" /\
    board_cell (pos f1) = true /\
    (~ In (pos f1) (occupied g) \/ pos f1 = (GRID_SIZE, GRID_SIZE)) /\
    (rest = [] \/
     exists f2,
       rest = [f2] /\ In (kind f2) SPECIAL_TYPES /\
       food_color f2 = role_color (theme g) (kind f2) /\
       board_cell (pos f2) = true /\
       ((~ In (pos f2) (occupied g) /\ pos f2 <> pos f1)
        \/ pos f2 = (GRID_SIZE, GRID_SIZE))).
Proof.
  unfold spawn_foods, find_free_pos.
  destruct (find_free_pos_loop_run (Z.to_nat MAX_ATTEMPTS) (occupied g) r)
    as [p1 [r1 [R1 [B1 F1]]]].
  rewrite (bind_ret _ R1).
  destruct (theme_item_role (theme g)) as [_ [_ Tf]].
  unfold bind at 1. unfold lift at 1. rewrite Tf.
  set (f1 := {| pos := p1; kind := "normal";
                food_color := role_color (theme g) "food" |}).
  assert (F1' : ~ In p1 (occupied g) \/ p1 = (GRID_SIZE, GRID_SIZE)).
  { destruct F1 as [F1|F1]; [left|now right].
    intros I. apply cell_in_iff in I. congruence. }
  unfold bind at 1. unfold random_below_035, bind at 1, draw at 1, ret at 1.
  destruct (r1 0%nat mod 100 <? 35).
  - destruct (choice_special (fun n => r1 (S n))) as [k [r2 [R2 Ik]]].
    rewrite (bind_ret _ R2).
    unfold bind at 1. unfold lift at 1.
    change (theme (append_food f1 g)) with (theme g).
    rewrite (theme_item_special (theme g) k Ik).
    destruct (find_free_pos_loop_run (Z.to_nat MAX_ATTEMPTS)
                (occupied (append_food f1 g)) r2)
      as [p2 [r3 [R3 [B3 F3]]]].
    rewrite (bind_ret _ R3).
    set (f2 := {| pos := p2; kind := k; food_color := role_color (theme g) k |}).
    exists (append_food f2 (append_food f1 g)), r3, f1, [f2].
    split; [reflexivity|].
    split; [unfold append_food; simpl; now rewrite <- app_assoc|].
    split; [reflexivity|]. split; [reflexivity|]. split; [exact B1|].
    split; [exact F1'|]. right. exists f2.
    split; [reflexivity|]. split; [exact Ik|]. split; [reflexivity|].
    split; [exact B3|].
    destruct F3 as [F3|F3]; [left|now right].
    assert (N : ~ In p2 (occupied (append_food f1 g))).
    { intros I. apply cell_in_iff in I. congruence. }
    unfold occupied, append_food in N. simpl in N.
    rewrite map_app in N. simpl in N. rewrite !in_app_iff in N. simpl in N.
    split.
    + unfold occupied. rewrite !in_app_iff. tauto.
    + simpl. intros E. apply N. right. right. right. right. left.
      now symmetry.
  - exists (append_food f1 g), (fun n => r1 (S n)), f1, [].
    split; [reflexivity|]. split; [reflexivity|].
    split; [reflexivity|]. split; [reflexivity|]. split; [exact B1|].
    split; [exact F1'|]. now left.
Qed.

(** X15. [spawn_foods] always returns.  It appends to the food list one
    normal food and, depending on the draw, one more food whose kind is one
    of bonus, speed_up, speed_down and shrink; it changes nothing else in
    the session.  Each new food has the colour its kind has in the current
    theme and lies on the board, on no obstacle, snake or earlier food
    (the normal food just placed included) unless it is the fall-back
    cell. *)
Theorem spawn_foods_appends (g : SnakeGame) (r : Rng) :
  exists g' r' f1 rest,
    spawn_foods g r = (Ret g', r') /\
    g' = set_foods (foods g ++ f1 :: rest) g /\
    kind f1 = "normal" /\
    food_color f1 = role_color (theme g) "food" /\
    board_cell (pos f1) = true /\
    (~ In (pos f1) (occupied g) \/ pos f1 = (GRID_SIZE, GRID_SIZE)) /\
    (rest = [] \/
     exists f2,
       rest = [f2] /\ In (kind f2) SPECIAL_TYPES /\
       food_color f2 = role_color (theme g) (kind f2) /\
       board_cell (pos f2) = true /\
       ((~ In (pos f2) (occupied g) /\ pos f2 <> pos f1)
        \/ pos f2 = (GRID_SIZE, GRID_SIZE))).
Proof. exact (spawn_foods_run g r). Qed.

(** The game's own [spawn_foods] returns, keeps the session sound and
    leaves the snakes alone, whatever the generator yields. *)
Lemma spawn_with_well_behaved (r : Rng) : well_behaved (spawn_with r).
Proof.
  intros g So.
  destruct (spawn_foods_run g r) as [g' [r' [f1 [rest [R [E _]]]]]].
  exists g'. unfold spawn_with. rewrite R. split; [reflexivity|].
  subst g'. split; [exact So | reflexivity].
Qed.

(** ** Starting a session *)

Lemma on_grid_path_init (c : Color) (start_pos : Cell) (ctl : Controls) (n : Z) :
  on_grid_path (Snake_init c start_pos ctl n).
Proof.
  unfold on_grid_path, Snake_init. simpl. repeat split. discriminate.
Qed.

Lemma theme_name_of_key (name : string) (t : Theme) :
  dict_get name THEMES = Some t -> theme_name_in THEMES t = name.
Proof.
  unfold THEMES. cbn [dict_get].
  destruct (String.eqb name "classic") eqn:E1;
    [apply String.eqb_eq in E1; intros H; inversion H; now subst|].
  destruct (String.eqb name "dark") eqn:E2;
    [apply String.eqb_eq in E2; intros H; inversion H; now subst|].
  destruct (String.eqb name "neon") eqn:E3;
    [apply String.eqb_eq in E3; intros H; inversion H; now subst|].
  discriminate.
Qed.

Lemma difficulty_name_of_key (name : string) (cfg : Difficulty) (g : SnakeGame) :
  dict_get name DIFFICULTIES = Some cfg ->
  base_speed g = speed cfg -> obstacle_count g = obstacles_of cfg ->
  get_difficulty_name g = name /\ is_preset g = true.
Proof.
  unfold get_difficulty_name, is_preset, DIFFICULTIES. cbn [dict_get].
  intros H B O.
  destruct (String.eqb name "easy") eqn:E1;
    [apply String.eqb_eq in E1; inversion H; subst; simpl in B, O;
     cbn -[Z.eqb]; rewrite B, O; split; reflexivity|].
  destruct (String.eqb name "medium") eqn:E2;
    [apply String.eqb_eq in E2; inversion H; subst; simpl in B, O;
     cbn -[Z.eqb]; rewrite B, O; split; reflexivity|].
  destruct (String.eqb name "hard") eqn:E3;
    [apply String.eqb_eq in E3; inversion H; subst; simpl in B, O;
     cbn -[Z.eqb]; rewrite B, O; split; reflexivity|].
  discriminate.
Qed.

Lemma preset_speed_small (name : string) (cfg : Difficulty) :
  dict_get name DIFFICULTIES = Some cfg -> speed cfg <= 1000.
Proof.
  unfold DIFFICULTIES. cbn [dict_get]. intros H.
  destruct (String.eqb name "easy"); [inversion H; simpl; lia|].
  destruct (String.eqb name "medium"); [inversion H; simpl; lia|].
  destruct (String.eqb name "hard"); [inversion H; simpl; lia|].
  discriminate.
Qed.

(** [SnakeGame.__init__] on names that are registered. *)
Lemma SnakeGame_init_run (difficulty theme_name : string) (tp : bool)
    (score_file : SaveFile) (ticks hs : Z) (t : Theme) (cfg : Difficulty)
    (r : Rng) :
  dict_get theme_name THEMES = Some t ->
  dict_get difficulty DIFFICULTIES = Some cfg ->
  load_high_score score_file = Ret hs ->
  exists obs fs r',
    let s1 := Snake_init (role_color t "snake1")
                (DIS_WIDTH / 4, DIS_HEIGHT / 2) arrows 3 in
    let s2 := if tp
              then Some (Snake_init (role_color t "snake2")
                           (3 * DIS_WIDTH / 4, DIS_HEIGHT / 2) wasd 3)
              else None in
    let g :=
      {| theme := t; base_speed := speed cfg; obstacle_count := obstacles_of cfg;
         two_player := tp; snake1 := s1; snake2 := s2; high_score := hs;
         obstacles := obs; foods := fs; running := true; paused := false;
         last_update := ticks; update_interval := 1000 / Z.max 5 (speed cfg);
         special_effects := [] |} in
    SnakeGame_init (JStr difficulty) (JStr theme_name) (JBool tp)
      score_file ticks r = (Ret g, r') /\
    NoDup obs /\
    (forall p, In p obs ->
       p <> (DIS_WIDTH / 4, DIS_HEIGHT / 2) /\
       (tp = true -> p <> (3 * DIS_WIDTH / 4, DIS_HEIGHT / 2)) /\
       board_cell p = true) /\
    Z.of_nat (length obs) <= Z.max 0 (obstacles_of cfg) /\
    (1 <= length fs <= 2)%nat /\
    (forall f, In f fs -> board_cell (pos f) = true).
Proof.
  intros Ht Hc Hh. unfold SnakeGame_init.
  unfold bind at 1. unfold lift at 1. unfold json_item at 1, dict_item.
  rewrite Ht.
  unfold bind at 1. unfold lift at 1. unfold json_item at 1, dict_item.
  rewrite Hc.
  unfold bind at 1. unfold lift at 1. unfold json_item at 1, dict_item.
  rewrite Hc.
  unfold bind at 1. unfold lift at 1. cbn [as_bool].
  destruct (theme_item_role t) as [T1 [T2 _]].
  unfold bind at 1. unfold lift at 1. rewrite T1.
  set (s1 := Snake_init (role_color t "snake1")
               (DIS_WIDTH / 4, DIS_HEIGHT / 2) arrows 3).
  set (s2 := if tp
             then Some (Snake_init (role_color t "snake2")
                          (3 * DIS_WIDTH / 4, DIS_HEIGHT / 2) wasd 3)
             else None).
  assert (R2 : forall r0 : Rng,
            ((if truthy (JBool tp)
              then c2 <- lift (theme_item t "snake2") ;;
                   ret (Some (Snake_init c2 (3 * DIS_WIDTH / 4, DIS_HEIGHT / 2)
                                wasd 3))
              else ret None) : M Rng (option Snake)) r0 = (Ret s2, r0)).
  { intros r0. unfold s2. destruct tp; cbn [truthy]; [|reflexivity].
    unfold bind, lift, ret. now rewrite T2. }
  rewrite (bind_ret _ (R2 r)).
  unfold bind at 1. unfold lift at 1. rewrite Hh.
  set (exclude := body s1 ++ match s2 with
                              | Some s => firstn 1 (body s)
                              | None => []
                              end).
  destruct (create_obstacles_run (obstacles_of cfg) exclude r)
    as [obs [r1 [Ro [No [Po Lo]]]]].
  rewrite (bind_ret _ Ro).
  match goal with
  | |- context [spawn_foods ?x] => set (g0 := x)
  end.
  destruct (spawn_foods_run g0 r1)
    as [g1 [r2 [f1 [rest [Rs [Eg [_ [_ [B1 [_ Rest]]]]]]]]]].
  rewrite (bind_ret _ Rs).
  assert (Ci : compute_interval g1 = Ret (1000 / Z.max 5 (speed cfg))).
  { assert (D : base_speed g1 + (speed_effect (snake1 g1) +
                  match snake2 g1 with
                  | Some s => speed_effect s
                  | None => 0
                  end) = speed cfg)
      by (rewrite Eg; unfold g0, s2; destruct tp; simpl; lia).
    rewrite compute_interval_run. cbv zeta. rewrite D. unfold float_overflows.
    pose proof FLOAT_LIMIT_large as Fl.
    pose proof (preset_speed_small difficulty cfg Hc) as Ps.
    replace (FLOAT_LIMIT <=? Z.max 5 (speed cfg)) with false
      by (symmetry; apply Z.leb_gt; lia).
    reflexivity. }
  unfold bind at 1. unfold lift at 1. rewrite Ci.
  exists obs, (f1 :: rest), r2. cbv zeta.
  split.
  { unfold ret. f_equal. rewrite Eg. reflexivity. }
  split; [exact No|]. split.
  { intros p Ip. destruct (Po p Ip) as [Ne Bp]. unfold exclude in Ne.
    rewrite in_app_iff in Ne. repeat split; [| |exact Bp].
    - intros E. apply Ne. left. unfold s1. simpl. now left.
    - intros Tp E. apply Ne. right. unfold s2. rewrite Tp. simpl. now left. }
  split; [exact Lo|]. split.
  { destruct Rest as [E|[f2 [E _]]]; subst rest; simpl; lia. }
  intros f [E|I]; [now subst f|].
  destruct Rest as [E|[f2 [E [_ [_ [B2 _]]]]]]; subst rest;
    [contradiction|].
  destruct I as [E|[]]. now subst f.
Qed.

(** X16. [SnakeGame.__init__] with a registered theme and difficulty and a
    readable high score file always returns.  The new session is sound, is
    named by [get_theme_name] and [get_difficulty_name] as it was asked for,
    has a second snake exactly in two-player mode, an empty effect map, the
    high score of the file and the update interval of its base speed.  Its
    snakes are alive with one cell on the board, two cells of growth pending
    and score 0; no obstacle is on a snake's cell, no cell holds two
    obstacles, there are at most as many obstacles as the preset asks for
    and one or two foods. *)
Theorem SnakeGame_init_fresh (difficulty theme_name : string) (tp : bool)
    (score_file : SaveFile) (ticks hs : Z) (t : Theme) (cfg : Difficulty)
    (r : Rng) :
  dict_get theme_name THEMES = Some t ->
  dict_get difficulty DIFFICULTIES = Some cfg ->
  load_high_score score_file = Ret hs ->
  exists g r',
    SnakeGame_init (JStr difficulty) (JStr theme_name) (JBool tp)
      score_file ticks r = (Ret g, r') /\
    sound g /\
    get_theme_name g = theme_name /\ get_difficulty_name g = difficulty /\
    two_player g = tp /\ (snake2 g <> None <-> tp = true) /\
    special_effects g = [] /\ high_score g = hs /\
    compute_interval g = Ret (update_interval g) /\
    (paused g, running g, last_update g) = (false, true, ticks) /\
    (forall who s, get_snake who g = Some s ->
       alive s = true /\ grow s = 2 /\ score s = 0 /\ speed_effect s = 0 /\
       exists c, body s = [c] /\ board_cell c = true /\ ~ In c (obstacles g)) /\
    NoDup (obstacles g) /\
    Z.of_nat (length (obstacles g)) <= obstacle_count g /\
    (1 <= length (foods g) <= 2)%nat.
Proof.
  intros Ht Hc Hh.
  destruct (SnakeGame_init_run difficulty theme_name tp score_file ticks hs
              t cfg r Ht Hc Hh)
    as [obs [fs [r' [R [No [Po [Lo [Lf _]]]]]]]].
  cbv zeta in R. eexists. exists r'. split; [exact R|].
  cbn [theme base_speed obstacle_count two_player snake1 snake2 high_score
       obstacles foods running paused last_update update_interval
       special_effects].
  split.
  { split; [|reflexivity]. intros who s Hs.
    destruct who; simpl in Hs.
    - inversion Hs. apply on_grid_path_init.
    - destruct tp; inversion Hs. apply on_grid_path_init. }
  split; [unfold get_theme_name; simpl; now apply theme_name_of_key|].
  split; [now apply (difficulty_name_of_key difficulty cfg)|].
  split; [reflexivity|].
  split; [destruct tp; split; try discriminate; congruence|].
  split; [reflexivity|]. split; [reflexivity|].
  split.
  { rewrite compute_interval_run. cbv zeta.
    cbn [base_speed snake1 snake2 update_interval].
    replace (speed cfg + _) with (speed cfg) by (destruct tp; simpl; lia).
    unfold float_overflows.
    pose proof FLOAT_LIMIT_large as Fl.
    pose proof (preset_speed_small difficulty cfg Hc) as Ps.
    replace (FLOAT_LIMIT <=? Z.max 5 (speed cfg)) with false
      by (symmetry; apply Z.leb_gt; lia).
    reflexivity. }
  split; [reflexivity|].
  split.
  { intros who s Hs. destruct who; simpl in Hs.
    - inversion Hs. simpl. repeat split. eexists. split; [reflexivity|].
      split; [reflexivity|]. intros I. destruct (Po _ I) as [N _].
      apply N. reflexivity.
    - destruct tp; inversion Hs. simpl. repeat split.
      eexists. split; [reflexivity|]. split; [reflexivity|].
      intros I. destruct (Po _ I) as [_ [N _]]. now apply N. }
  split; [exact No|]. split; [|exact Lf].
  assert (P : 0 <= obstacles_of cfg).
  { revert Hc. unfold DIFFICULTIES. cbn [dict_get].
    destruct (String.eqb difficulty "easy"); [intros H; inversion H; simpl; lia|].
    destruct (String.eqb difficulty "medium"); [intros H; inversion H; simpl; lia|].
    destruct (String.eqb difficulty "hard"); [intros H; inversion H; simpl; lia|].
    discriminate. }
  lia.
Qed.

(** ** Loading from the menu *)

Lemma theme_key_of_name (t : Theme) :
  dict_get (theme_name_in THEMES t) THEMES = Some t.
Proof. now destruct t. Qed.

Lemma preset_key (g : SnakeGame) :
  is_preset g = true ->
  exists cfg,
    dict_get (get_difficulty_name g) DIFFICULTIES = Some cfg /\
    speed cfg = base_speed g /\ obstacles_of cfg = obstacle_count g.
Proof.
  unfold get_difficulty_name, is_preset, DIFFICULTIES. cbn -[Z.eqb].
  destruct ((10 =? base_speed g) && (10 =? obstacle_count g)) eqn:E1.
  { apply andb_true_iff in E1. destruct E1 as [A B].
    apply Z.eqb_eq in A, B. intros _. eexists. split; [reflexivity|].
    now split. }
  destruct ((15 =? base_speed g) && (20 =? obstacle_count g)) eqn:E2.
  { apply andb_true_iff in E2. destruct E2 as [A B].
    apply Z.eqb_eq in A, B. intros _. eexists. split; [reflexivity|].
    now split. }
  destruct ((20 =? base_speed g) && (35 =? obstacle_count g)) eqn:E3.
  { apply andb_true_iff in E3. destruct E3 as [A B].
    apply Z.eqb_eq in A, B. intros _. eexists. split; [reflexivity|].
    now split. }
  discriminate.
Qed.

(** X17. A saved game is resumed from the menu.  For a session whose
    two-player flag agrees with its snakes and whose difficulty is a preset,
    the menu's load key on the file that [save_game] wrote (high score file
    readable) builds a session and loads the record without an error; the
    session that starts has the saved snakes, obstacles, foods, theme,
    difficulty, high score and speed modifiers, and an empty effect map. *)
Theorem menu_load_resumes (g : SnakeGame) (f score_file : SaveFile)
    (ticks ticks' hs : Z) (r : Rng) :
  two_player g = match snake2 g with Some _ => true | None => false end ->
  is_preset g = true ->
  load_high_score score_file = Ret hs ->
  exists g' r',
    menu_load (save_game Written g f) score_file ticks ticks' r
      = (Ret (Some g'), r') /\
    snake_state (snake1 g') = snake_state (snake1 g) /\
    option_map snake_state (snake2 g') = option_map snake_state (snake2 g) /\
    obstacles g' = obstacles g /\
    map food_state (foods g') = map food_state (foods g) /\
    theme g' = theme g /\
    base_speed g' = base_speed g /\ obstacle_count g' = obstacle_count g /\
    high_score g' = high_score g /\
    speed_effects g' = speed_effects g /\
    special_effects g' = [].
Proof.
  intros C P Hh.
  destruct (preset_key g P) as [cfg [Hc [Hs Ho]]].
  destruct (SnakeGame_init_run (get_difficulty_name g) (get_theme_name g)
              (two_player g) score_file ticks hs (theme g) cfg r
              (theme_key_of_name (theme g)) Hc Hh)
    as [obs [fs [r' [R _]]]].
  cbv zeta in R.
  match type of R with _ = (Ret ?x, _) => set (g0 := x) in * end.
  assert (Fit : second_snake_fits (saved_state g) g0).
  { unfold second_snake_fits, g0. simpl. rewrite C. now destruct (snake2 g). }
  pose proof (load_game_record (saved_state g) ticks' g0 Fit) as L.
  exists (loaded (saved_state g) ticks' g0), r'.
  split.
  { unfold menu_load, save_game, save_state, load_state.
    rewrite saved_record_typed, truthy_record.
    unfold bind at 1. unfold lift at 1. rewrite record_difficulty.
    unfold bind at 1. unfold lift at 1. rewrite record_theme.
    unfold bind at 1. unfold lift at 1. rewrite record_two_player.
    cbn [saved_state sv_difficulty sv_theme sv_two_player or_default].
    rewrite (bind_ret _ R).
    fold (load_state (Holds (record_json (saved_state g)))).
    change (load_state (Holds (record_json (saved_state g))))
      with (record_json (saved_state g)).
    now rewrite L. }
  destruct (difficulty_name_resolves g) as [D1 _]. destruct (D1 P) as [Db Do].
  unfold loaded. simpl. repeat split.
  - rewrite C. now destruct (snake2 g).
  - rewrite !map_map. simpl. apply map_ext. intros a. reflexivity.
  - unfold get_theme_name. now destruct (theme g).
  - exact Db.
  - exact Do.
  - unfold speed_effects. simpl. rewrite C. now destruct (snake2 g).
Qed.

(** X18. The same key on a record that names an unknown theme, or a known
    or missing theme and an unknown difficulty, raises [KeyError] out of the
    constructor before anything is loaded and before a draw is taken from
    the generator, although [load_game] itself accepts such a record. *)
Theorem menu_load_unknown_names (rec : SavedState) (score_file : SaveFile)
    (ticks ticks' : Z) (r : Rng) :
  (forall n,
     sv_theme rec = Some n -> dict_get n THEMES = None ->
     menu_load (Holds (record_json rec)) score_file ticks ticks' r
       = (Raise KeyError, r))
  /\ (forall n,
        sv_difficulty rec = Some n -> dict_get n DIFFICULTIES = None ->
        (sv_theme rec = None
         \/ exists m t, sv_theme rec = Some m /\ dict_get m THEMES = Some t) ->
        menu_load (Holds (record_json rec)) score_file ticks ticks' r
          = (Raise KeyError, r))
  /\ (forall g, second_snake_fits rec g ->
        fst (load_game (Holds (record_json rec)) ticks' g) = Ret tt).
Proof.
  assert (Start : forall k : json -> json -> json -> M Rng (option SnakeGame),
            menu_load (Holds (record_json rec)) score_file ticks ticks' r =
            (game <- SnakeGame_init
                       (JStr (or_default (sv_difficulty rec) "medium"))
                       (JStr (or_default (sv_theme rec) "classic"))
                       (JBool (or_default (sv_two_player rec) false))
                       score_file ticks ;;
             match load_game (Holds (record_json rec)) ticks' game with
             | (Ret _, game') => ret (Some game')
             | (Raise e, _) => lift (Raise e)
             | (Untyped, _) => lift Untyped
             end) r).
  { intros _. unfold menu_load, load_state. rewrite truthy_record.
    unfold bind at 1. unfold lift at 1. rewrite record_difficulty.
    unfold bind at 1. unfold lift at 1. rewrite record_theme.
    unfold bind at 1. unfold lift at 1. rewrite record_two_player.
    reflexivity. }
  specialize (Start (fun _ _ _ => ret None)).
  split; [|split].
  - intros n E N. rewrite Start, E. cbn [or_default].
    unfold SnakeGame_init, bind, lift, json_item, dict_item. now rewrite N.
  - intros n E N T. rewrite Start, E. cbn [or_default].
    unfold SnakeGame_init, bind, lift, json_item, dict_item.
    destruct T as [T|[m [t [T1 T2]]]].
    + rewrite T. cbn [or_default].
      change (dict_get "classic" THEMES) with (Some Classic). now rewrite N.
    + rewrite T1. cbn [or_default]. now rewrite T2, N.
  - intros g Fit. now rewrite load_game_record.
Qed.

(** ** Eating *)

Ltac fed R who :=
  match type of R with
  | _ = (_, ?g') =>
      match g' with
      | context [put_snake _ ?x _] => exists g', x
      end
  end;
  split; [exact R|]; split; [destruct who; reflexivity|].

Lemma apply_food_effect_points (ticks : Z) (who : Player) (food : Food)
    (g : SnakeGame) (s : Snake) :
  get_snake who g = Some s ->
  exists g' s',
    apply_food_effect ticks who food g = (Ret tt, g') /\
    get_snake who g' = Some s' /\
    score s' = score s + points (kind food) /\
    item_neg (body s') 1 = item_neg (body s) 1 /\
    alive s' = alive s /\ foods g' = foods g /\ obstacles g' = obstacles g.
Proof.
  intros Hs.
  destruct (apply_food_effect_run ticks who food g s Hs)
    as [R1 [R2 [R3 [R4 R5]]]].
  unfold points.
  destruct (String.eqb (kind food) "normal") eqn:K1.
  { apply String.eqb_eq in K1. specialize (R1 K1).
    fed R1 who. destruct who; repeat split. }
  destruct (String.eqb (kind food) "bonus") eqn:K2.
  { apply String.eqb_eq in K2. specialize (R2 K2).
    fed R2 who. destruct who; repeat split. }
  destruct (String.eqb (kind food) "speed_up") eqn:K3.
  { apply String.eqb_eq in K3. specialize (R3 K3).
    fed R3 who. destruct who; repeat split. }
  destruct (String.eqb (kind food) "speed_down") eqn:K4.
  { apply String.eqb_eq in K4. specialize (R4 K4).
    fed R4 who. destruct who; repeat split. }
  destruct (String.eqb (kind food) "shrink") eqn:K5.
  { apply String.eqb_eq in K5. specialize (R5 K5).
    fed R5 who.
    pose proof (Nat.div_mod_eq (length (body s)) 2) as DM.
    pose proof (Nat.mod_upper_bound (length (body s)) 2 ltac:(lia)) as MU.
    destruct (3 <? length (body s))%nat eqn:L.
    - apply Nat.ltb_lt in L.
      cbn [score body alive set_grow set_body set_score].
      split; [reflexivity|].
      split; [apply item_neg_skipn; lia|].
      destruct who; repeat split.
    - destruct who; repeat split. }
  exists g, s. unfold apply_food_effect. rewrite K1, K2, K3, K4, K5.
  split; [reflexivity|]. split; [exact Hs|]. split; [lia|]. repeat split.
Qed.

Lemma feast_run (ticks : Z) (who : Player) (fs : list Food) :
  forall (g : SnakeGame) (s : Snake),
    get_snake who g = Some s ->
    exists g' s',
      for_each fs (apply_food_effect ticks who) g = (Ret tt, g') /\
      get_snake who g' = Some s' /\
      score s' = score s + feast fs /\
      item_neg (body s') 1 = item_neg (body s) 1 /\
      alive s' = alive s /\ foods g' = foods g /\ obstacles g' = obstacles g.
Proof.
  induction fs as [|f fs IH]; intros g s Hs.
  - exists g, s. split; [reflexivity|]. split; [exact Hs|].
    split; [simpl; lia|]. repeat split.
  - destruct (apply_food_effect_points ticks who f g s Hs)
      as [g1 [s1 [R1 [H1 [Sc1 [Hd1 [Al1 [Fo1 Ob1]]]]]]]].
    destruct (IH g1 s1 H1) as [g2 [s2 [R2 [H2 [Sc2 [Hd2 [Al2 [Fo2 Ob2]]]]]]]].
    exists g2, s2. cbn [for_each]. rewrite (bind_ret _ R1).
    split; [exact R2|]. split; [exact H2|].
    split; [cbn [feast fold_right]; fold (feast fs); lia|].
    split; [congruence|]. split; [congruence|]. split; congruence.
Qed.

(** X19. Eating, for one snake with its head at [h]: every food on the
    head's cell is applied, so the score goes up by the sum of their points (1 normal, 5 bonus, 2 either speed food, 3
    shrink, 0 for any other kind); the foods left are those not on the head's
    cell, in their order; the snake's head and its alive flag are as before,
    and so are the obstacles; and [spawn_foods] is called, once, exactly when
    something was eaten. *)
Theorem eat_foods_credits (spawn : M SnakeGame unit) (ticks : Z)
    (who : Player) (g : SnakeGame) (s : Snake) (h : Cell) :
  get_snake who g = Some s ->
  item_neg (body s) 1 = Ret h ->
  exists g1 s1,
    eat_foods spawn ticks who g =
      match filter (eats h) (foods g) with
      | [] => (Ret tt, g1)
      | _ :: _ => spawn g1
      end /\
    get_snake who g1 = Some s1 /\
    score s1 = score s + feast (filter (eats h) (foods g)) /\
    foods g1 = filter (fun f => negb (eats h f)) (foods g) /\
    item_neg (body s1) 1 = Ret h /\
    alive s1 = alive s /\
    obstacles g1 = obstacles g.
Proof.
  intros Hs Hh.
  unfold eat_foods. rewrite (bind_ret _ (head_of_run who g s h Hs Hh)).
  unfold bind at 1. unfold get at 1.
  destruct (feast_run ticks who (filter (eats h) (foods g)) g s Hs)
    as [g1 [s1 [R1 [H1 [Sc1 [Hd1 [Al1 [Fo1 Ob1]]]]]]]].
  rewrite (bind_ret _ R1). unfold bind at 1. unfold modify at 1.
  exists (set_foods (filter (fun f => negb (eats h f)) (foods g1)) g1), s1.
  split; [destruct (filter (eats h) (foods g)); reflexivity|].
  split; [destruct who; exact H1|].
  split; [exact Sc1|].
  split; [cbn [foods set_foods]; now rewrite Fo1|].
  split; [congruence|]. split; [exact Al1|]. exact Ob1.
Qed.

(** ** The command keys *)

Lemma cycle_theme_run (g : SnakeGame) :
  exists t, cycle_theme g = Some (set_theme_ref t g).
Proof.
  destruct g as [t bs oc tp s1 s2 hs ob fo ru pa lu ui se].
  destruct t; eexists; reflexivity.
Qed.

(** X20. The theme key never fails: the name of the session's theme is
    always one of the registered names, so [names.index] finds it.  Pressing
    it steps classic, dark, neon and back to classic: three presses return
    the very session, the two on the way differ from it and from each other
    in the theme, and in the theme only (snakes and foods keep the colours
    they were created with). *)
Theorem theme_key_cycles (g : SnakeGame) :
  exists g1 g2,
    cycle_theme g = Some g1 /\ cycle_theme g1 = Some g2 /\
    cycle_theme g2 = Some g /\
    theme g1 <> theme g /\ theme g2 <> theme g /\ theme g1 <> theme g2 /\
    g1 = set_theme_ref (theme g1) g /\ g2 = set_theme_ref (theme g2) g /\
    (theme g = Classic -> theme g1 = Dark) /\
    (theme g = Dark -> theme g1 = Neon) /\
    (theme g = Neon -> theme g1 = Classic).
Proof.
  destruct g as [t bs oc tp s1 s2 hs ob fo ru pa lu ui se].
  destruct t; eexists; eexists;
    (split; [reflexivity|]); (split; [reflexivity|]); (split; [reflexivity|]);
    repeat split; try discriminate; intros E; try reflexivity; discriminate E.
Qed.

Lemma handle_event_steers (e : Event) (s : Snake) :
  exists d, handle_event e s = (Ret tt, set_pending_dir d s).
Proof.
  destruct e as [|key|]; try (exists (pending_dir s); now destruct s).
  unfold handle_event, bind, get.
  destruct (key =? key_left (controls s)); [eexists; reflexivity|].
  destruct (key =? key_right (controls s)); [eexists; reflexivity|].
  destruct (key =? key_up (controls s)); [eexists; reflexivity|].
  destruct (key =? key_down (controls s)); [eexists; reflexivity|].
  exists (pending_dir s); now destruct s.
Qed.

Lemma steered_refl (s : Snake) : steered s s.
Proof. now destruct s. Qed.

Lemma steered_set (d : Cell) (s : Snake) : steered s (set_pending_dir d s).
Proof. now destruct s. Qed.

Lemma steered_trans (s1 s2 s3 : Snake) :
  steered s1 s2 -> steered s2 s3 -> steered s1 s3.
Proof.
  unfold steered. intros E1 E2. rewrite E2 at 1. rewrite E1. now destruct s1.
Qed.

Lemma commanded_refl (g : SnakeGame) : commanded g g.
Proof.
  unfold commanded. split; [apply steered_refl|].
  split; [destruct (snake2 g); [apply steered_refl|exact I]|].
  repeat split.
Qed.

Lemma commanded_trans (g1 g2 g3 : SnakeGame) :
  commanded g1 g2 -> commanded g2 g3 -> commanded g1 g3.
Proof.
  unfold commanded.
  intros [A1 [A2 A3]] [B1 [B2 B3]].
  split; [now apply steered_trans with (s2 := snake1 g2)|].
  split.
  - destruct (snake2 g1), (snake2 g2), (snake2 g3); try contradiction;
      try exact I.
    now apply steered_trans with (s2 := s0).
  - decompose [and] A3. decompose [and] B3. repeat split; congruence.
Qed.

Lemma commanded_flags (g g' : SnakeGame) :
  snake1 g' = snake1 g -> snake2 g' = snake2 g ->
  base_speed g' = base_speed g -> obstacle_count g' = obstacle_count g ->
  two_player g' = two_player g -> high_score g' = high_score g ->
  obstacles g' = obstacles g -> foods g' = foods g ->
  last_update g' = last_update g -> update_interval g' = update_interval g ->
  special_effects g' = special_effects g ->
  commanded g g'.
Proof.
  intros E1 E2. intros. unfold commanded. rewrite E1, E2.
  split; [apply steered_refl|].
  split; [destruct (snake2 g); [apply steered_refl|exact I]|].
  repeat split; assumption.
Qed.

Lemma command_key_run (wo : WriteOutcome) (ticks : Z) (key : Z) (w : World) :
  key <> K_l ->
  exists w',
    command_key wo ticks key w = (Ret tt, w') /\ commanded (game w) (game w').
Proof.
  intros N. unfold command_key.
  destruct (key =? K_q).
  { eexists. split; [reflexivity|]. now apply commanded_flags. }
  destruct (key =? K_p).
  { eexists. split; [reflexivity|]. now apply commanded_flags. }
  destruct (key =? K_t).
  { destruct (cycle_theme_run (game w)) as [t E].
    unfold bind, get. rewrite E.
    eexists. split; [reflexivity|]. now apply commanded_flags. }
  destruct (key =? K_l) eqn:L; [apply Z.eqb_eq in L; contradiction|].
  destruct (key =? K_s).
  { eexists. split; [reflexivity|]. apply commanded_refl. }
  exists w. split; [reflexivity|]. apply commanded_refl.
Qed.

Lemma on_game_run {A} (c : M SnakeGame A) (w : World) (r : Py A)
    (g' : SnakeGame) :
  c (game w) = (r, g') ->
  on_game c w = (r, {| game := g'; save_file := save_file w |}).
Proof. intros E. unfold on_game. now rewrite E. Qed.

Lemma delegate_run (event : Event) (w : World) :
  exists w',
    delegate event w = (Ret tt, w') /\ commanded (game w) (game w') /\
    save_file w' = save_file w.
Proof.
  destruct w as [g f].
  destruct (handle_event_steers event (snake1 g)) as [d1 E1].
  pose proof (on_snake_run P1 (handle_event event) g (snake1 g)
                (set_pending_dir d1 (snake1 g)) (Ret tt) eq_refl E1) as R1.
  set (g1 := put_snake P1 (set_pending_dir d1 (snake1 g)) g) in R1.
  unfold delegate.
  rewrite (bind_ret _ (on_game_run (on_snake P1 (handle_event event))
                         {| game := g; save_file := f |} _ _ R1)).
  unfold bind at 1. unfold get at 1. cbn [game save_file].
  change (snake2 g1) with (snake2 g).
  destruct (snake2 g) as [s2|] eqn:G2.
  - destruct (handle_event_steers event s2) as [d2 E2].
    pose proof (on_snake_run P2 (handle_event event) g1 s2
                  (set_pending_dir d2 s2) (Ret tt) G2 E2) as R2.
    rewrite (on_game_run (on_snake P2 (handle_event event))
               {| game := g1; save_file := f |} _ _ R2).
    eexists. split; [reflexivity|]. split; [|reflexivity].
    unfold commanded. cbn. rewrite G2.
    split; [apply steered_set|]. split; [apply steered_set|]. repeat split.
  - eexists. split; [reflexivity|]. split; [|reflexivity].
    unfold commanded. cbn. rewrite G2.
    split; [apply steered_set|]. repeat split.
Qed.

Lemma handle_one_event_run (wo : WriteOutcome) (ticks : Z) (event : Event)
    (w : World) :
  event <> KEYDOWN K_l ->
  exists w',
    handle_one_event wo ticks event w = (Ret tt, w')
    /\ commanded (game w) (game w').
Proof.
  intros N. destruct event as [|key|].
  - eexists. split; [reflexivity|]. now apply commanded_flags.
  - assert (Nk : key <> K_l) by (intros E; apply N; now rewrite E).
    destruct (command_key_run wo ticks key w Nk) as [w1 [R1 C1]].
    destruct (delegate_run (KEYDOWN key) w1) as [w2 [R2 [C2 _]]].
    exists w2. cbn [handle_one_event]. rewrite (bind_ret _ R1).
    split; [exact R2|]. now apply commanded_trans with (g2 := game w1).
  - exists w. split; [reflexivity|]. apply commanded_refl.
Qed.

(** X21. A frame's events without the load key never raise, whatever the
    keys, and change nothing of the game itself: the session after them is
    the session before but for the running and paused flags, the theme and
    the pending direction of each snake.  Bodies, directions, scores, alive
    flags, growth, foods, obstacles, timers and the tick clock are as
    before, and no snake appears or goes. *)
Theorem handle_events_commands_only (wo : WriteOutcome) (ticks : Z)
    (events : list Event) (w : World) :
  Forall (fun e => e <> KEYDOWN K_l) events ->
  exists w',
    handle_events wo ticks events w = (Ret tt, w')
    /\ commanded (game w) (game w').
Proof.
  unfold handle_events. revert w.
  induction events as [|e es IH]; intros w F.
  - exists w. split; [reflexivity|]. apply commanded_refl.
  - inversion F as [|? ? Fe Fes]; subst.
    destruct (handle_one_event_run wo ticks e w Fe) as [w1 [R1 C1]].
    destruct (IH w1 Fes) as [w2 [R2 C2]].
    exists w2. cbn [for_each]. rewrite (bind_ret _ R1).
    split; [exact R2|]. now apply commanded_trans with (g2 := game w1).
Qed.

(** X22. The save key is also the second player's down key.  In a
    two-player session whose second snake has the W/A/S/D keys and whose
    first has the arrows, pressing S writes the session as it is before the
    key is delegated, and then turns the second snake's pending direction
    down: the file holds the pending direction from before the key, the
    session the one after it.  The first snake is untouched. *)
Theorem save_key_steers_second_snake (wo : WriteOutcome) (ticks : Z)
    (w : World) (s2 : Snake) :
  snake2 (game w) = Some s2 ->
  controls s2 = wasd ->
  controls (snake1 (game w)) = arrows ->
  exists w',
    handle_events wo ticks [KEYDOWN K_s] w = (Ret tt, w') /\
    save_file w' = save_game wo (game w) (save_file w) /\
    snake1 (game w') = snake1 (game w) /\
    snake2 (game w') = Some (set_pending_dir (0, GRID_SIZE) s2) /\
    commanded (game w) (game w').
Proof.
  intros G2 C2 C1. destruct w as [g f]. cbn [game save_file] in *.
  assert (E1 : handle_event (KEYDOWN K_s) (snake1 g) = (Ret tt, snake1 g)).
  { unfold handle_event, bind, get. now rewrite C1. }
  assert (E2 : handle_event (KEYDOWN K_s) s2
               = (Ret tt, set_pending_dir (0, GRID_SIZE) s2)).
  { unfold handle_event, bind, get. now rewrite C2. }
  pose proof (on_snake_run P1 (handle_event (KEYDOWN K_s)) g (snake1 g)
                (snake1 g) (Ret tt) eq_refl E1) as R1.
  rewrite (put_get_snake P1 (snake1 g) g eq_refl) in R1.
  pose proof (on_snake_run P2 (handle_event (KEYDOWN K_s)) g s2
                (set_pending_dir (0, GRID_SIZE) s2) (Ret tt) G2 E2) as R2.
  set (f' := save_game wo g f).
  assert (RC : command_key wo ticks K_s {| game := g; save_file := f |}
               = (Ret tt, {| game := g; save_file := f' |})) by reflexivity.
  assert (RD : delegate (KEYDOWN K_s) {| game := g; save_file := f' |}
               = (Ret tt,
                  {| game := put_snake P2 (set_pending_dir (0, GRID_SIZE) s2) g;
                     save_file := f' |})).
  { unfold delegate.
    rewrite (bind_ret _ (on_game_run (on_snake P1 (handle_event (KEYDOWN K_s)))
                           {| game := g; save_file := f' |} _ _ R1)).
    unfold bind at 1. unfold get at 1. cbn [game save_file]. rewrite G2.
    exact (on_game_run (on_snake P2 (handle_event (KEYDOWN K_s)))
             {| game := g; save_file := f' |} _ _ R2). }
  assert (RH : handle_one_event wo ticks (KEYDOWN K_s)
                 {| game := g; save_file := f |}
               = (Ret tt,
                  {| game := put_snake P2 (set_pending_dir (0, GRID_SIZE) s2) g;
                     save_file := f' |})).
  { cbn [handle_one_event]. rewrite (bind_ret _ RC). exact RD. }
  unfold handle_events. cbn [for_each]. rewrite (bind_ret _ RH).
  eexists. split; [reflexivity|]. cbn [game save_file put_snake].
  split; [reflexivity|]. split; [reflexivity|]. split; [reflexivity|].
  unfold commanded. cbn. rewrite G2.
  split; [apply steered_refl|]. split; [apply steered_set|]. repeat split.
Qed.

(** * The further properties on sample sessions *)

(** A shrink food eaten by the eight-cell snake of [feeding]. *)
Lemma shrink_keeps_head_feeding :
  exists g' s',
    apply_food_effect 1000 P1 shrink_food feeding = (Ret tt, g') /\
    get_snake P1 g' = Some s' /\
    score s' = score long_runner + 3 /\
    item_neg (body s') 1 = item_neg (body long_runner) 1 /\
    (exists cut, body long_runner = cut ++ body s') /\
    ((length (body long_runner) <= 3)%nat ->
       body s' = body long_runner /\ grow s' = grow long_runner) /\
    ((3 < length (body long_runner))%nat ->
       length (body s')
         = (length (body long_runner) - length (body long_runner) / 2 + 1)%nat /\
       (3 <= length (body s'))%nat /\
       grow s' = 0).
Proof.
  apply (shrink_keeps_head 1000 P1 shrink_food feeding long_runner);
    reflexivity.
Defined.

(** The expiry loop on [boosted] at 5000 ms. *)
Lemma expire_effects_leaves_unexpired_boosted :
  exists g',
    expire_effects 5000 boosted = (Ret tt, g') /\
    special_effects g' =
      filter (fun e => negb (expired 5000 e)) (special_effects boosted) /\
    board_of g' = board_of boosted /\
    snake1 g' =
      set_speed_effect
        (speed_effect (snake1 boosted)
         + total_reversal 5000 (special_effects boosted))
        (snake1 boosted) /\
    snake2 g' =
      option_map
        (fun s => set_speed_effect
                    (speed_effect s
                     + total_reversal 5000 (special_effects boosted)) s)
        (snake2 boosted).
Proof.
  apply (expire_effects_leaves_unexpired 5000 boosted). reflexivity.
Defined.

(** A check at 2000 ms and then one at 5000 ms on [boosted]. *)
Lemma expire_effects_compose_boosted :
  expire_effects 5000 (snd (expire_effects 2000 boosted))
  = expire_effects 5000 boosted.
Proof.
  apply (expire_effects_compose 2000 5000 boosted
           (snd (expire_effects 2000 boosted)));
    [reflexivity | lia | reflexivity].
Defined.

(** A speed_up food eaten in [solo] at 1000 ms, expiry seen at 4000 ms. *)
Lemma speed_food_round_one_player_solo :
  exists g1 g2,
    apply_food_effect 1000 P1 speed_up_food solo = (Ret tt, g1) /\
    expire_effects 4000 g1 = (Ret tt, g2) /\
    speed_effect (snake1 g1) <> speed_effect (snake1 solo) /\
    speed_effect (snake1 g2) = speed_effect (snake1 solo) /\
    compute_interval g2 = compute_interval solo /\
    dict_get (kind speed_up_food) (special_effects g2) = None.
Proof.
  apply (speed_food_round_one_player solo speed_up_food 1000 4000);
    try reflexivity.
  left. reflexivity.
Defined.

(** A speed_up food eaten by the second snake of [duel]. *)
Lemma speed_food_interval_duel :
  exists g',
    apply_food_effect 1000 P2 speed_up_food duel = (Ret tt, g') /\
    (kind speed_up_food = "speed_up" ->
     forall i', compute_interval g' = Ret i' ->
       exists i, compute_interval duel = Ret i /\ i' <= i) /\
    (kind speed_up_food = "speed_down" ->
     forall i, compute_interval duel = Ret i ->
       exists i', compute_interval g' = Ret i' /\ i <= i').
Proof.
  apply (speed_food_interval 1000 P2 speed_up_food duel rival). reflexivity.
Defined.

(** The record of [duel] loaded into [solo]. *)
Lemma load_second_snake_into_one_player_solo :
  exists g',
    load_game (Holds (record_json (saved_state duel))) 0 solo
      = (Raise AttributeError, g') /\
    theme g' = resolve THEMES (sv_theme (saved_state duel)) Classic /\
    base_speed g'
      = speed (resolve DIFFICULTIES (sv_difficulty (saved_state duel)) medium) /\
    two_player g' = or_default (sv_two_player (saved_state duel)) false /\
    snake1 g' =
      restored_snake (role_color (theme g') "snake1") (controls (snake1 solo))
        (sv_snake1 (saved_state duel)) /\
    snake2 g' = None /\
    (obstacles g', foods g', high_score g', last_update g') =
      (obstacles solo, foods solo, high_score solo, last_update solo).
Proof.
  apply (load_second_snake_into_one_player (saved_state duel)
           (saved_snake rival) 0 solo);
    reflexivity.
Defined.

(** A frame of [duel] with the game's own [spawn_foods]. *)
Lemma update_sound_duel :
  (exists g',
     update (spawn_with zeros) (ret tt) 100 100 duel = (Ret tt, g')
     /\ sound g' /\ snakes g' = snakes duel)
  \/ (exists g3,
        sound g3 /\ snakes g3 = snakes duel /\ all_dead g3 = true /\
        update (spawn_with zeros) (ret tt) 100 100 duel =
          (ret tt ;;; modify (set_last_update 100) ;;;
           expire_effects 100) g3).
Proof.
  apply (update_sound (spawn_with zeros) (ret tt)
           (spawn_with_well_behaved zeros)).
  - split; [|reflexivity].
    intros who s H. destruct who; simpl in H; inversion H;
      (repeat split; try reflexivity; discriminate).
  - intros _ H. vm_compute in H. discriminate H.
Defined.


(** A medium, classic two-player session, no high score file. *)
Lemma SnakeGame_init_fresh_medium :
  exists g r',
    SnakeGame_init (JStr "medium") (JStr "classic") (JBool true)
      Absent 0 zeros = (Ret g, r') /\
    sound g /\
    get_theme_name g = "classic" /\ get_difficulty_name g = "medium" /\
    two_player g = true /\ (snake2 g <> None <-> true = true) /\
    special_effects g = [] /\ high_score g = 0 /\
    compute_interval g = Ret (update_interval g) /\
    (paused g, running g, last_update g) = (false, true, 0) /\
    (forall who s, get_snake who g = Some s ->
       alive s = true /\ grow s = 2 /\ score s = 0 /\ speed_effect s = 0 /\
       exists c, body s = [c] /\ board_cell c = true /\ ~ In c (obstacles g)) /\
    NoDup (obstacles g) /\
    Z.of_nat (length (obstacles g)) <= obstacle_count g /\
    (1 <= length (foods g) <= 2)%nat.
Proof.
  apply (SnakeGame_init_fresh "medium" "classic" true Absent 0 0 Classic
           medium zeros);
    reflexivity.
Defined.

(** [duel] saved, and resumed from the menu. *)
Lemma menu_load_resumes_duel :
  exists g' r',
    menu_load (save_game Written duel Absent) Absent 0 0 zeros
      = (Ret (Some g'), r') /\
    snake_state (snake1 g') = snake_state (snake1 duel) /\
    option_map snake_state (snake2 g') = option_map snake_state (snake2 duel) /\
    obstacles g' = obstacles duel /\
    map food_state (foods g') = map food_state (foods duel) /\
    theme g' = theme duel /\
    base_speed g' = base_speed duel /\
    obstacle_count g' = obstacle_count duel /\
    high_score g' = high_score duel /\
    speed_effects g' = speed_effects duel /\
    special_effects g' = [].
Proof.
  apply (menu_load_resumes duel Absent Absent 0 0 0 zeros); reflexivity.
Defined.

(** The long snake of [feeding] eats the two foods under its head. *)
Lemma eat_foods_credits_feeding :
  exists g1 s1,
    eat_foods (ret tt) 1000 P1 feeding =
      match filter (eats (100, 100)) (foods feeding) with
      | [] => (Ret tt, g1)
      | _ :: _ => ret tt g1
      end /\
    get_snake P1 g1 = Some s1 /\
    score s1
      = score long_runner + feast (filter (eats (100, 100)) (foods feeding)) /\
    foods g1 = filter (fun f => negb (eats (100, 100) f)) (foods feeding) /\
    item_neg (body s1) 1 = Ret (100, 100) /\
    alive s1 = alive long_runner /\
    obstacles g1 = obstacles feeding.
Proof.
  apply (eat_foods_credits (ret tt) 1000 P1 feeding long_runner (100, 100));
    reflexivity.
Defined.

(** Save, quit and pause keys in one frame of [at_play]. *)
Lemma handle_events_commands_only_at_play :
  exists w',
    handle_events Written 0 [KEYDOWN K_s; QUIT; KEYDOWN K_p; OtherEvent] at_play
      = (Ret tt, w')
    /\ commanded (game at_play) (game w').
Proof.
  apply (handle_events_commands_only Written 0
           [KEYDOWN K_s; QUIT; KEYDOWN K_p; OtherEvent] at_play).
  repeat constructor; discriminate.
Defined.

(** The save key in [at_play]. *)
Lemma save_key_steers_second_snake_at_play :
  exists w',
    handle_events Written 0 [KEYDOWN K_s] at_play = (Ret tt, w') /\
    save_file w' = save_game Written (game at_play) (save_file at_play) /\
    snake1 (game w') = snake1 (game at_play) /\
    snake2 (game w') = Some (set_pending_dir (0, GRID_SIZE) rival) /\
    commanded (game at_play) (game w').
Proof.
  apply (save_key_steers_second_snake Written 0 at_play rival); reflexivity.
Defined.
